(** * valid-tools: timestamp evidence services

  A shallow embedding of the evidence, OpenTimestamps (OTS) and RFC 3161
  (TSA) services of the application:

  - [app/services/tsa_service.py]
  - [app/services/ots_service.py]
  - [app/services/storage_service.py]
  - [app/storage/evidence_repo.py]
  - [app/services/evidence_service.py]
  - [app/utils/session.py]
  - [app/api/routes.py] (login, upload, verification and download)
  - [app/config.py] (the settings of the services)

  Python exceptions are values of [result]; the network, the record store
  and the file store are an explicit [World] threaded through every call;
  third-party libraries (opentimestamps, rfc3161ng, pyasn1, base64,
  requests) are fields of an environment record [Env]. *)

From Stdlib Require Import ZArith Lia List.
From Stdlib Require Import Strings.Byte.
From Stdlib Require Import String Ascii.
From stdpp Require Import base option gmap strings list pretty.

Local Open Scope Z_scope.

(** ** Python values *)

Module Py.

Abbreviation bytes := (list byte).

(** A call either returns or raises; [Raise msg] keeps [str(exc)]. *)
Inductive result (A : Type) : Type :=
| Ok (a : A)
| Raise (msg : string).
Arguments Ok {A} a.
Arguments Raise {A} msg.

Definition is_ok {A} (r : result A) : bool :=
  match r with Ok _ => true | Raise _ => false end.

(** [b"..."] literals. *)
Definition bytes_of (s : string) : bytes := list_byte_of_string s.

#[global] Instance byte_eq_decision : EqDecision byte := Byte.byte_eq_dec.

(** JSON-like values stored in the [info] dictionaries. *)
Inductive Value : Type :=
| VNone
| VBool (v : bool)
| VInt (v : Z)
| VStr (v : string)
| VList (v : list Value)
| VDict (v : list (string * Value)).

(** Truth value of an object, as tested by [if x:] and [not x]. *)
Definition truthy (v : Value) : bool :=
  match v with
  | VNone => false
  | VBool x => x
  | VInt n => negb (n =? 0)
  | VStr s => negb (String.eqb s "")
  | VList l => match l with [] => false | _ => true end
  | VDict l => match l with [] => false | _ => true end
  end.

Definition str_truthy (s : string) : bool := negb (String.eqb s "").

Definition bytes_truthy (x : bytes) : bool :=
  match x with [] => false | _ => true end.

(** [dict.get(key)] on a JSON object kept as an association list. *)
Fixpoint dict_get (d : list (string * Value)) (k : string) : option Value :=
  match d with
  | [] => None
  | (k', v) :: d' => if String.eqb k' k then Some v else dict_get d' k
  end.

(** ASCII white space, as skipped by [bytes.fromhex] and [bytes.strip]. *)
Definition is_space (c : byte) : bool :=
  match Byte.to_N c with
  | 9%N | 10%N | 11%N | 12%N | 13%N | 32%N => true
  | _ => false
  end.

Definition hexval (c : byte) : option N :=
  let n := Byte.to_N c in
  if ((48 <=? n) && (n <=? 57))%N then Some (n - 48)%N
  else if ((97 <=? n) && (n <=? 102))%N then Some (n - 87)%N
  else if ((65 <=? n) && (n <=? 70))%N then Some (n - 55)%N
  else None.

Definition byte_of_N (n : N) : byte :=
  match Byte.of_N n with Some x => x | None => x00 end.

(** [bytes.fromhex]: white space is skipped between pairs of hexadecimal
    digits; anything else raises [ValueError] ([None]). *)
Fixpoint fromhex_bytes (s : bytes) : option bytes :=
  match s with
  | [] => Some []
  | c :: rest =>
      if is_space c then fromhex_bytes rest
      else match rest with
           | [] => None
           | d :: rest' =>
               match hexval c, hexval d with
               | Some h, Some l =>
                   match fromhex_bytes rest' with
                   | Some tl => Some (byte_of_N (16 * h + l) :: tl)
                   | None => None
                   end
               | _, _ => None
               end
           end
  end.

Definition fromhex (s : string) : option bytes :=
  fromhex_bytes (list_byte_of_string s).

(** [x.decode("ascii")] succeeds when every byte is below 128. *)
Definition is_ascii (x : bytes) : bool :=
  forallb (fun c => (Byte.to_N c <? 128)%N) x.

Fixpoint lstrip (x : bytes) : bytes :=
  match x with
  | c :: rest => if is_space c then lstrip rest else x
  | [] => []
  end.

(** [bytes.strip()] *)
Definition strip (x : bytes) : bytes := rev (lstrip (rev (lstrip x))).

(** [x.startswith(p)] *)
Fixpoint startswith (x p : bytes) : bool :=
  match p, x with
  | [], _ => true
  | _ :: _, [] => false
  | c :: p', d :: x' => if decide (c = d) then startswith x' p' else false
  end.

Definition LF : byte := byte_of_N 10.
Definition CR : byte := byte_of_N 13.

(** [bytes.splitlines()]: lines end at LF, CR or CR LF; the terminators
    are dropped and no empty last line is produced. *)
Fixpoint splitlines_aux (cur : bytes) (x : bytes) : list bytes :=
  match x with
  | [] => match cur with [] => [] | _ => [rev cur] end
  | c :: rest =>
      if decide (c = LF) then rev cur :: splitlines_aux [] rest
      else if decide (c = CR) then
        match rest with
        | d :: rest' =>
            if decide (d = LF) then rev cur :: splitlines_aux [] rest'
            else rev cur :: splitlines_aux [] rest
        | [] => [rev cur]
        end
      else splitlines_aux (c :: cur) rest
  end.

Definition splitlines (x : bytes) : list bytes := splitlines_aux [] x.

(** [x.replace(bytes([c]), b"")] *)
Definition remove_byte (c : byte) (x : bytes) : bytes :=
  filter (fun d => d ≠ c) x.

(** [ch in allowed] *)
Definition byte_in (c : byte) (allowed : bytes) : bool :=
  bool_decide (c ∈ allowed).

(** [(-n) % 4] with Python's non-negative remainder. *)
Definition neg_mod4 (n : nat) : nat := Z.to_nat ((- Z.of_nat n) mod 4).

(** [os.path.join(a, p)] on POSIX paths. *)
Definition path_join (a p : string) : string :=
  if startswith (list_byte_of_string p) (bytes_of "/") then p
  else if String.eqb a "" then p
  else if startswith (rev (list_byte_of_string a)) (bytes_of "/") then a +:+ p
  else a +:+ "/" +:+ p.

End Py.
Export Py.

(** ** Data of the third-party libraries *)

(** The decoded RFC 3161 structures of [rfc3161ng] and [pyasn1], as far as the
    service reads them. *)
Module Asn1.

(** [messageImprint]: [mi_algorithm] is the dotted OID printed by
    [str(algorithm.getComponentByName("algorithm"))], [None] when the
    [hashAlgorithm] component is absent or cannot be read; [mi_hashed] is
    [bytes(getComponentByName("hashedMessage"))], [None] when that raises. *)
Record MessageImprint : Type := {
  mi_algorithm : option string;
  mi_hashed : option bytes
}.

Record TSTInfo : Type := {
  messageImprint : option MessageImprint
}.

(** A [TimeStampToken].  [tst_info_attr] is [Some v] when
    [hasattr(tst, "tst_info")], with [v] the attribute; [tst_content] is
    [bytes(content.contentInfo.content)], which raises on a token without
    that path. *)
Record TimeStampToken : Type := {
  tst_info_attr : option (option TSTInfo);
  tst_content : result bytes
}.

(** A [TimeStampResp]; the three attributes are read with
    [getattr(tsr, name, None)] and printed with [str]. *)
Record TimeStampResp : Type := {
  tsr_status : option string;
  tsr_time : option string;
  time_stamp_token : option TimeStampToken
}.

(** What [RemoteTimestamper.__call__] may hand back, as
    [_response_to_bytes] distinguishes it. *)
Inductive Response : Type :=
| RespNone
| RespBytes (x : bytes)
| RespStr (s : string)
| RespObject (binary content data : option (option bytes)).

End Asn1.
Export Asn1.

(** The proof tree of the [opentimestamps] library. *)
Module Proof.

Inductive Attestation : Type :=
| PendingAttestation (uri : string)
| BitcoinBlockHeaderAttestation (height : Z)
| LitecoinBlockHeaderAttestation (height : Z)
| UnknownAttestation (tag payload : bytes).

Inductive Op : Type :=
| OpAppend (arg : bytes)
| OpPrepend (arg : bytes)
| OpReverse
| OpHexlify
| OpSHA1
| OpRIPEMD160
| OpSHA256
| OpKECCAK256.

#[global] Instance Attestation_eq_dec : EqDecision Attestation.
Proof. solve_decision. Defined.

#[global] Instance Op_eq_dec : EqDecision Op.
Proof. solve_decision. Defined.

(** A node below the root: its attestations and, per operation, the child
    reached by it.  A child's message is the operation applied to the
    parent's message, so only the root stores one. *)
Inductive Node : Type :=
| MkNode (attestations : list Attestation) (ops : list (Op * Node)).

Definition attestations (n : Node) : list Attestation :=
  match n with MkNode a _ => a end.

Definition ops (n : Node) : list (Op * Node) :=
  match n with MkNode _ o => o end.

(** [Timestamp(msg)] with its tree. *)
Record Timestamp : Type := {
  msg : bytes;
  node : Node
}.

Definition empty_node : Node := MkNode [] [].

(** [Timestamp(digest)] *)
Definition new_timestamp (digest : bytes) : Timestamp :=
  {| msg := digest; node := empty_node |}.

(** [att.__class__.__name__] *)
Definition class_name (a : Attestation) : string :=
  match a with
  | PendingAttestation _ => "PendingAttestation"
  | BitcoinBlockHeaderAttestation _ => "BitcoinBlockHeaderAttestation"
  | LitecoinBlockHeaderAttestation _ => "LitecoinBlockHeaderAttestation"
  | UnknownAttestation _ _ => "UnknownAttestation"
  end.

(** [self.attestations.add(a)] on the attestation set. *)
Definition add_attestation (l : list Attestation) (a : Attestation)
  : list Attestation :=
  if decide (a ∈ l) then l else l ++ [a].

(** The child stored under [op], if any. *)
Fixpoint find_op (op : Op) (l : list (Op * Node)) : option Node :=
  match l with
  | [] => None
  | (o, ch) :: l' => if decide (o = op) then Some ch else find_op op l'
  end.

(** Replace the child stored under [op] by [f] of it. *)
Fixpoint update_op (op : Op) (f : Node → Node) (l : list (Op * Node))
  : list (Op * Node) :=
  match l with
  | [] => []
  | (o, ch) :: l' =>
      if decide (o = op) then (o, f ch) :: l' else (o, ch) :: update_op op f l'
  end.

(** [self.ops.add(op)] followed by a change of that child: the child is
    created empty when [op] is new. *)
Definition upsert_op (op : Op) (f : Node → Node) (l : list (Op * Node))
  : list (Op * Node) :=
  match find_op op l with
  | Some _ => update_op op f l
  | None => l ++ [(op, f empty_node)]
  end.

(** Modelled from the spec: [Timestamp.merge] of the proof-tree library is
    not among the sources.  Merging yields the union of the attestations and
    the union of the operation paths, and a path that is already present
    (same operation, same resulting child) is not duplicated: the children
    under an operation present on both sides are merged in turn. *)
Fixpoint merge_node (t c : Node) {struct c} : Node :=
  match t, c with
  | MkNode tatts tops, MkNode catts cops =>
      MkNode
        (foldl add_attestation tatts catts)
        ((fix merge_ops (cops : list (Op * Node)) (acc : list (Op * Node))
            {struct cops} : list (Op * Node) :=
            match cops with
            | [] => acc
            | (op, sub) :: rest =>
                merge_ops rest (upsert_op op (fun ch => merge_node ch sub) acc)
            end) cops tops)
  end.

(** Modelled from the spec: the loop of [merge_node] over the operations of
    the other side, as a function of its own. *)
Fixpoint merge_ops (cops : list (Op * Node)) (acc : list (Op * Node))
  : list (Op * Node) :=
  match cops with
  | [] => acc
  | (op, sub) :: rest =>
      merge_ops rest (upsert_op op (fun ch => merge_node ch sub) acc)
  end.

Definition merge_error : string :=
  "Can't merge timestamps for different messages together".

(** Modelled from the spec: [Timestamp.merge] at a root.  Only trees rooted
    at the same message are merged; otherwise the call raises. *)
Definition merge (t c : Timestamp) : result Timestamp :=
  if decide (msg t = msg c)
  then Ok {| msg := msg t; node := merge_node (node t) (node c) |}
  else Raise merge_error.

(** Number of attestations in a tree. *)
Fixpoint count_attestations (n : Node) : nat :=
  match n with
  | MkNode atts nops =>
      (length atts +
       (fix go (l : list (Op * Node)) : nat :=
          match l with
          | [] => 0
          | (_, ch) :: l' => count_attestations ch + go l'
          end) nops)%nat
  end.

End Proof.
Export Proof.

(** ** The world outside the services *)

(** What the services do to the outside, in the order they do it.
    [EvBlockHashLookup] marks one call of the block-hash lookup of the
    resolver; [EvHttpGet] is the request it sends when a lookup API is
    configured; [EvDatetimeNow] is one reading of the clock of the record
    store, [datetime('now')]. *)
Inductive Event : Type :=
| EvCalendarSubmit (url : string) (digest : bytes)
| EvCalendarUpgrade (uri : string) (m : bytes)
| EvBlockHashLookup (chain : string) (height : Z)
| EvHttpGet (url : string)
| EvClientStamp (digest : bytes)
| EvClientVerify (m : bytes)
| EvTsaRequest (url : string) (digest : bytes)
| EvDatetimeNow.

#[global] Instance Event_eq_dec : EqDecision Event.
Proof. solve_decision. Defined.

(** A row of the [evidences] table; [hash] is its key.  The two time
    columns hold readings of [datetime('now')]. *)
Record Row : Type := {
  row_ots_status : string;
  row_tsa_status : string;
  row_ots_path : option string;
  row_tsa_path : option string;
  row_created_at : string;
  row_updated_at : string
}.

(** The [payload] of [insert_or_ignore]: the columns its caller gives. *)
Record Payload : Type := {
  payload_ots_status : string;
  payload_tsa_status : string;
  payload_ots_path : option string;
  payload_tsa_path : option string
}.

(** The record store, the file store and the trace of outside calls. *)
Record World : Type := {
  trace : list Event;
  db : gmap string Row;
  files : gmap string bytes;
  dirs : gset string
}.

Definition log (e : Event) (w : World) : World :=
  {| trace := trace w ++ [e]; db := db w; files := files w; dirs := dirs w |}.

(** A [requests] response. *)
Record HttpResponse : Type := {
  resp_ok : bool;
  status_code : Z;
  resp_text : string;
  resp_json : result Value
}.

(** The settings read by [load_settings()] ([app/config.py]). *)
Record Settings : Type := {
  tsa_url : string;
  ots_calendar_urls : list string;
  btc_block_hash_api : string;
  ltc_block_hash_api : string;
  btc_explorer_block_url : string;
  ltc_explorer_block_url : string;
  btc_explorer_height_url : string;
  ltc_explorer_height_url : string
}.

(** The high-level client found by [_load_ots_client]. *)
Record OtsClient : Type := {
  ots_stamp : list Event → Timestamp → result Timestamp;
  ots_verify : list Event → Timestamp → result (option string)
}.

(** The third-party libraries and remote services.  A remote service answers
    as a function of the trace so far, so that two requests need not get the
    same answer.  [load_ots_client] is what [_load_ots_client()] finds;
    [core_import] is the outcome of importing [opentimestamps.core] and
    [opentimestamps.calendar], [rfc3161ng_import] that of importing
    [rfc3161ng], with the message of the exception.  Formatting a template
    and printing a value are taken to return.  [detached_serialize] builds
    the detached file of a tree for a hash operation and serialises it.
    [datetime_now] is the clock of the record store, read like a remote
    service. *)
Record Env : Type := {
  settings : Settings;
  (* opentimestamps *)
  load_ots_client : option OtsClient;
  core_import : result unit;
  apply_hash : Op → bytes → bytes;
  calendar_submit : list Event → string → bytes → result Timestamp;
  calendar_get_timestamp : list Event → string → bytes → result Timestamp;
  detached_serialize : Op → Timestamp → result bytes;
  detached_deserialize : bytes → result (Op * Timestamp);
  timestamp_serialize : Timestamp → result bytes;
  timestamp_deserialize : bytes → result Timestamp;
  (* requests *)
  http_get : list Event → string → result HttpResponse;
  (* str.format, str(), repr() and bytes.decode(errors="replace") *)
  str_format : string → list (string * string) → string;
  str_of_value : Value → string;
  str_of_info : gmap string Value → string;
  decode_utf8_replace : bytes → string;
  (* rfc3161ng, pyasn1 and base64 *)
  rfc3161ng_import : result unit;
  decode_timestamp_response : option (bytes → result TimeStampResp);
  get_timestamp : option (bytes → result string);
  remote_timestamper : list Event → string → bytes → result Response;
  der_decode_token : bytes → result TimeStampToken;
  ber_decode : bytes → result (bytes * bytes);
  ber_decode_tstinfo : bytes → result (TSTInfo * bytes);
  oid_to_hash : string → option string;
  b64decode : bool → bytes → result bytes;
  (* sqlite3: datetime('now') *)
  datetime_now : list Event → string
}.

(** Calls that touch the world. *)
Definition M (A : Type) : Type := World → A * World.

Definition ret {A} (a : A) : M A := fun w => (a, w).

Definition bind {A B} (c : M A) (k : A → M B) : M B :=
  fun w => let '(a, w') := c w in k a w'.

Notation "'let!' x ':=' c 'in' k" := (bind c (fun x => k))
  (at level 200, x binder, c at level 100, k at level 200,
   right associativity).

(** Ask a remote service: the request is logged, the answer depends on the
    trace before it. *)
Definition ask {A} (e : Event) (answer : list Event → A) : M A :=
  fun w => (answer (trace w), log e w).

(** ** [app/services/tsa_service.py] *)

Module TSA.

Record TSAResult : Type := {
  success : bool;
  error : option string;
  info : gmap string Value;
  tsr_bytes : option bytes
}.

(** [if error:] on an [Optional[str]]. *)
Definition opt_str_truthy (e : option string) : bool :=
  match e with Some s => str_truthy s | None => false end.

Definition hex_digit (n : N) : byte :=
  if (n <? 10)%N then byte_of_N (48 + n) else byte_of_N (87 + n).

(** [x.hex()] *)
Definition hex (x : bytes) : string :=
  string_of_list_byte
    (flat_map (fun c => [hex_digit (Byte.to_N c / 16); hex_digit (Byte.to_N c mod 16)]) x).

(** The message of the [ValueError] of [bytes.fromhex]; the position it
    names is left out. *)
Definition fromhex_error : string :=
  "non-hexadecimal number found in fromhex() arg".

Definition _response_to_bytes (response : Response) : option bytes :=
  match response with
  | RespNone => None
  | RespBytes x => Some x
  | RespStr s => Some (list_byte_of_string s)
  | RespObject binary content data =>
      match binary, content, data with
      | Some v, _, _ => v
      | None, Some v, _ => v
      | None, None, Some v => v
      | None, None, None => None
      end
  end.

(** The library calls made while decoding, in order. *)
Inductive DecodeCall : Type :=
| CallDecoder (x : bytes)
| CallB64decode (validate : bool) (x : bytes).

Definition MalformedBinaryToken : string :=
  "tsa response is binary but not RFC3161 TimeStampResp".

Definition InvalidBase64Alphabet : string :=
  "tsa response is not base64 or ASN.1 data".

Definition allowed : bytes :=
  bytes_of "ABCDEFGHIJKLMNOPQRSTUVWXYZabcdefghijklmnopqrstuvwxyz0123456789+/=".

Section Service.
Context (E : Env).

(** [decoder(base64.b64decode(x, validate=v))] *)
Definition decode_b64 (decoder : bytes → result TimeStampResp)
    (v : bool) (x : bytes) : result TimeStampResp * list DecodeCall :=
  match b64decode E v x with
  | Ok raw => (decoder raw, [CallB64decode v x; CallDecoder raw])
  | Raise m => (Raise m, [CallB64decode v x])
  end.

(** The text handed to the bare-base64 step: the stripped input without
    line breaks. *)
Definition b64_text_of (tsr : bytes) : bytes :=
  remove_byte CR (remove_byte LF (strip tsr)).

(** [b64_text += b"=" * missing] *)
Definition pad4 (x : bytes) : bytes :=
  x ++ replicate (neg_mod4 (length x)) (byte_of_N 61).

Definition _decode_tsa_response (decoder : bytes → result TimeStampResp)
    (tsr : bytes) : result TimeStampResp * list DecodeCall :=
  match decoder tsr with
  | Ok r => (Ok r, [CallDecoder tsr])
  | Raise _ =>
      if negb (is_ascii tsr) then
        (Raise MalformedBinaryToken, [CallDecoder tsr])
      else
        let text := strip tsr in
        if startswith text (bytes_of "-----BEGIN") then
          let parts := splitlines text in
          let b64 :=
            concat (filter (fun line => negb (startswith line (bytes_of "-----")))
                      parts) in
          let '(r, calls) := decode_b64 decoder false b64 in
          (r, CallDecoder tsr :: calls)
        else
          let b64_text := remove_byte CR (remove_byte LF text) in
          if existsb (fun ch => negb (byte_in ch allowed)) b64_text then
            (Raise InvalidBase64Alphabet, [CallDecoder tsr])
          else
            let b64_text := pad4 b64_text in
            match decode_b64 decoder true b64_text with
            | (Ok r, calls) => (Ok r, CallDecoder tsr :: calls)
            | (Raise _, calls) =>
                let '(r, calls') := decode_b64 decoder false b64_text in
                (r, CallDecoder tsr :: calls ++ calls')
            end
  end.

Definition _extract_tsa_info (tsr : bytes)
  : gmap string Value * option string :=
  match rfc3161ng_import E with
  | Raise m => (∅, Some m)
  | Ok _ =>
      let fallback :=
        match get_timestamp E with
        | Some token_parser =>
            match token_parser tsr with
            | Ok timestamp =>
                (<["format" := VStr "tst"]> (<["time" := VStr timestamp]> ∅), None)
            | Raise m => (∅, Some ("invalid tsa response: " +:+ m))
            end
        | None => (∅, Some "invalid tsa response: decoder unavailable")
        end in
      match decode_timestamp_response E with
      | Some decoder =>
          match fst (_decode_tsa_response decoder tsr) with
          | Ok r =>
              let info : gmap string Value := ∅ in
              let info :=
                match tsr_status r with
                | Some s => <["status" := VStr s]> info
                | None => info
                end in
              let info :=
                match tsr_time r with
                | Some s => <["time" := VStr s]> info
                | None => info
                end in
              (<["format" := VStr "tsr"]> info, None)
          | Raise _ => fallback
          end
      | None => fallback
      end
  end.

Definition _extract_tst_token (tsr : bytes) : option TimeStampToken :=
  let fallback :=
    match der_decode_token E tsr with
    | Ok tst => Some tst
    | Raise _ => None
    end in
  match decode_timestamp_response E with
  | Some decoder =>
      match fst (_decode_tsa_response decoder tsr) with
      | Ok r =>
          match time_stamp_token r with
          | Some tst => Some tst
          | None => fallback
          end
      | Raise _ => fallback
      end
  | None => fallback
  end.

Definition _extract_message_imprint (tst : TimeStampToken)
  : option bytes * gmap string Value :=
  let of_info (tst_info : option TSTInfo) : option bytes * gmap string Value :=
    match tst_info with
    | None => (None, ∅)
    | Some ti =>
        match messageImprint ti with
        | None => (None, ∅)
        | Some message_imprint =>
            let debug_info : gmap string Value :=
              match mi_algorithm message_imprint with
              | Some oid =>
                  <["hash_alg" :=
                      match oid_to_hash E oid with
                      | Some a => VStr a
                      | None => VNone
                      end]> (<["hash_oid" := VStr oid]> ∅)
              | None => ∅
              end in
            match mi_hashed message_imprint with
            | Some digest_bytes =>
                (Some digest_bytes,
                 <["imprint_hex" := VStr (hex digest_bytes)]> debug_info)
            | None => (None, ∅)
            end
        end
    end in
  match tst_info_attr tst with
  | Some tst_info => of_info tst_info
  | None =>
      match tst_content tst with
      | Raise _ => (None, ∅)
      | Ok content =>
          match ber_decode E content with
          | Raise _ => (None, ∅)
          | Ok (inner, substrate) =>
              if bytes_truthy substrate then (None, ∅)
              else
                match ber_decode_tstinfo E inner with
                | Raise _ => (None, ∅)
                | Ok (tst_info, substrate) =>
                    if bytes_truthy substrate then (None, ∅)
                    else of_info (Some tst_info)
                end
          end
      end
  end.

Definition _check_tsa_hash (tsr : bytes) (hash_hex : string)
  : option string :=
  match fromhex hash_hex with
  | None => Some "invalid hash hex"
  | Some digest =>
      match _extract_tst_token tsr with
      | None => Some "invalid tsa response: missing timestamp token"
      | Some tst =>
          let '(imprint, debug_info) := _extract_message_imprint tst in
          match imprint with
          | None => Some "invalid tsa response: missing message imprint"
          | Some imprint =>
              if decide (imprint ≠ digest) then
                Some ("hash mismatch: digest not equal ("
                        +:+ str_of_info E debug_info +:+ ")")
              else None
          end
      end
  end.

Definition verify_tsa (tsr : bytes) (hash_hex : option string) : TSAResult :=
  match rfc3161ng_import E with
  | Raise m => {| success := false; error := Some m; info := ∅; tsr_bytes := None |}
  | Ok _ =>
      let '(info, error) := _extract_tsa_info tsr in
      if opt_str_truthy error then
        {| success := false; error := error; info := info; tsr_bytes := None |}
      else
        let ok := {| success := true; error := None; info := info; tsr_bytes := None |} in
        if opt_str_truthy hash_hex then
          let hash_error := _check_tsa_hash tsr (default "" hash_hex) in
          if opt_str_truthy hash_error then
            {| success := false; error := hash_error; info := info; tsr_bytes := None |}
          else ok
        else ok
  end.

Definition create_tsa (hash_hex : string) (tsa_url : string) : M TSAResult :=
  let failed (e : string) (i : gmap string Value) : TSAResult :=
    {| success := false; error := Some e; info := i; tsr_bytes := None |} in
  if negb (str_truthy tsa_url) then ret (failed "TSA_URL not configured" ∅)
  else
    match rfc3161ng_import E with
    | Raise m => ret (failed m ∅)
    | Ok _ =>
        match fromhex hash_hex with
        | None => ret (failed fromhex_error ∅)
        | Some digest =>
            let! response :=
              ask (EvTsaRequest tsa_url digest)
                  (fun h => remote_timestamper E h tsa_url digest) in
            match response with
            | Raise m => ret (failed m ∅)
            | Ok response =>
                match _response_to_bytes response with
                | None => ret (failed "TSA response empty" ∅)
                | Some tsr =>
                    if negb (bytes_truthy tsr) then
                      ret (failed "TSA response empty" ∅)
                    else
                      let '(info, error) := _extract_tsa_info tsr in
                      if opt_str_truthy error then
                        ret (failed (default "" error)
                               {["preview" :=
                                   VStr (decode_utf8_replace E (take 200 tsr))]})
                      else
                        ret {| success := true; error := None; info := info;
                               tsr_bytes := Some tsr |}
                end
            end
        end
    end.

End Service.
End TSA.

(** ** [app/services/ots_service.py] *)

Module OTS.

Record OTSResult : Type := {
  success : bool;
  error : option string;
  info : gmap string Value;
  ots_bytes : option bytes;
  updated_ots_bytes : option bytes
}.

Definition failure (e : string) (i : gmap string Value) : OTSResult :=
  {| success := false; error := Some e; info := i;
     ots_bytes := None; updated_ots_bytes := None |}.

(** [str.strip()] on an ASCII text. *)
Definition str_strip (s : string) : string :=
  string_of_list_byte (strip (list_byte_of_string s)).

Definition opt_value (o : option string) : Value :=
  match o with Some s => VStr s | None => VNone end.

(** The chain and height of a block-header attestation. *)
Definition chain_of (att : Attestation) : option (string * Z) :=
  match att with
  | BitcoinBlockHeaderAttestation h => Some ("bitcoin", h)
  | LitecoinBlockHeaderAttestation h => Some ("litecoin", h)
  | _ => None
  end.

Definition is_pending (att : Attestation) : bool :=
  match att with PendingAttestation _ => true | _ => false end.

Definition is_blockchain (att : Attestation) : bool :=
  match chain_of att with Some _ => true | None => false end.

Section Service.
Context (E : Env).

(** [op(msg)]: the message of the child under [op]. *)
Definition apply_op (op : Op) (m : bytes) : bytes :=
  match op with
  | OpAppend a => m ++ a
  | OpPrepend a => a ++ m
  | OpReverse => rev m
  | OpHexlify => list_byte_of_string (TSA.hex m)
  | _ => apply_hash E op m
  end.

(** [Timestamp.all_attestations()]: the attestations of a node with its
    message, then those of its children. *)
Fixpoint all_attestations_node (m : bytes) (n : Node)
  : list (bytes * Attestation) :=
  match n with
  | MkNode atts nops =>
      map (pair m) atts ++
      (fix go (l : list (Op * Node)) : list (bytes * Attestation) :=
         match l with
         | [] => []
         | (op, ch) :: l' => all_attestations_node (apply_op op m) ch ++ go l'
         end) nops
  end.

Definition all_attestations (ts : Timestamp) : list (bytes * Attestation) :=
  all_attestations_node (msg ts) (node ts).

Definition _collect_attestation_info (ts : Timestamp) : gmap string Value :=
  match core_import E with
  | Raise _ => ∅
  | Ok _ =>
      let atts := map snd (all_attestations ts) in
      let types := map class_name atts in
      <["attestations" := VInt (Z.of_nat (length types))]>
      (<["attestation_types" := VList (map VStr types)]>
      (<["has_blockchain_proof" := VBool (existsb is_blockchain atts)]>
      (<["has_pending_attestations" := VBool (existsb is_pending atts)]> ∅)))
  end.

Definition _lookup_block_hash (chain : string) (height : Z)
  : M (option string * option string) :=
  fun w =>
  let w := log (EvBlockHashLookup chain height) w in
  let api_template :=
    if String.eqb chain "bitcoin" then Some (btc_block_hash_api (settings E))
    else if String.eqb chain "litecoin" then Some (ltc_block_hash_api (settings E))
    else None in
  match api_template with
  | None => ((None, Some "unsupported chain"), w)
  | Some api_template =>
      if negb (str_truthy api_template) then
        ((None, Some "block hash api disabled"), w)
      else
        let url := str_format E api_template [("height", pretty height)] in
        let '(resp, w) := ask (EvHttpGet url) (fun h => http_get E h url) w in
        match resp with
        | Raise m => ((None, Some m), w)
        | Ok resp =>
            if negb (resp_ok resp) then
              ((None, Some ("api status " +:+ pretty (status_code resp))), w)
            else
              let text := str_strip (resp_text resp) in
              if negb (str_truthy text) then
                ((None, Some "empty api response"), w)
              else if startswith (list_byte_of_string text) (bytes_of "{") then
                match resp_json resp with
                | Raise m => ((None, Some m), w)
                | Ok (VDict data) =>
                    let top :=
                      match dict_get data "hash" with
                      | Some v =>
                          if truthy v then (Some (str_of_value E v), None)
                          else (None, Some "unexpected api response")
                      | None => (None, Some "unexpected api response")
                      end in
                    match dict_get data "data" with
                    | Some (VDict inner) =>
                        match dict_get inner "hash" with
                        | Some v =>
                            if truthy v then ((Some (str_of_value E v), None), w)
                            else (top, w)
                        | None => (top, w)
                        end
                    | _ => (top, w)
                    end
                | Ok _ => ((None, Some "unexpected api response"), w)
                end
              else ((Some text, None), w)
        end
  end.

Definition _build_explorer_url (chain : string) (height : Z)
    (block_hash : option string) : option string :=
  let templates :=
    if String.eqb chain "bitcoin" then
      Some (btc_explorer_block_url (settings E), btc_explorer_height_url (settings E))
    else if String.eqb chain "litecoin" then
      Some (ltc_explorer_block_url (settings E), ltc_explorer_height_url (settings E))
    else None in
  match templates with
  | None => None
  | Some (block_template, height_template) =>
      if TSA.opt_str_truthy block_hash && str_truthy block_template then
        Some (str_format E block_template
                [("hash", default "" block_hash); ("height", pretty height)])
      else if str_truthy height_template then
        Some (str_format E height_template
                [("height", pretty height);
                 ("hash", if TSA.opt_str_truthy block_hash
                          then default "" block_hash else "")])
      else None
  end.

(** The loop of [_collect_blockchain_proofs], with its three local
    variables. *)
Fixpoint collect_loop (atts : list (bytes * Attestation))
    (proofs : list Value) (seen : gset (string * Z))
    (cache : gmap (string * Z) (option string * option string))
  : M (list Value) :=
  match atts with
  | [] => ret proofs
  | (_, att) :: rest =>
      match chain_of att with
      | None => collect_loop rest proofs seen cache
      | Some (chain, height) =>
          let key := (chain, height) in
          if decide (key ∈ seen) then collect_loop rest proofs seen cache
          else
            let seen := {[key]} ∪ seen in
            let! '(entry, cache) :=
              match cache !! key with
              | Some entry => ret (entry, cache)
              | None =>
                  let! entry := _lookup_block_hash chain height in
                  ret (entry, <[key := entry]> cache)
              end in
            let '(block_hash, hash_error) := entry in
            let proof :=
              [("chain", VStr chain);
               ("height", VInt height);
               ("block_hash", opt_value block_hash);
               ("explorer_url",
                 opt_value (_build_explorer_url chain height block_hash))] in
            let proof :=
              if TSA.opt_str_truthy hash_error
              then proof ++ [("block_hash_error", opt_value hash_error)]
              else proof in
            collect_loop rest (proofs ++ [VDict proof]) seen cache
      end
  end.

Definition _collect_blockchain_proofs (ts : Timestamp) : M (list Value) :=
  match core_import E with
  | Raise _ => ret []
  | Ok _ => collect_loop (all_attestations ts) [] ∅ ∅
  end.

(** [walk] of [_collect_pending_attestations]: a node of the tree is named
    by the operations leading to it, and carries its message. *)
Fixpoint walk (path : list Op) (m : bytes) (n : Node)
  : list (list Op * bytes * string) :=
  match n with
  | MkNode atts nops =>
      omap (fun att =>
              match att with
              | PendingAttestation uri => Some (path, m, uri)
              | _ => None
              end) atts ++
      (fix go (l : list (Op * Node)) : list (list Op * bytes * string) :=
         match l with
         | [] => []
         | (op, ch) :: l' => walk (path ++ [op]) (apply_op op m) ch ++ go l'
         end) nops
  end.

Definition _collect_pending_attestations (ts : Timestamp)
  : list (list Op * bytes * string) :=
  match core_import E with
  | Raise _ => []
  | Ok _ => walk [] (msg ts) (node ts)
  end.

(** [node.merge(cal_ts)] for the node at [path]. *)
Fixpoint merge_at (path : list Op) (n c : Node) : Node :=
  match path with
  | [] => merge_node n c
  | op :: path' =>
      match n with
      | MkNode atts nops =>
          MkNode atts (update_op op (fun ch => merge_at path' ch c) nops)
      end
  end.

(** The loop of [_create_ots_with_calendar] over the calendars. *)
Fixpoint submit_loop (digest : bytes) (calendars : list string)
    (base_ts : Timestamp) (errors : list string) (success_count : nat)
  : M (Timestamp * list string * nat) :=
  match calendars with
  | [] => ret (base_ts, errors, success_count)
  | url :: rest =>
      let! cal_ts :=
        ask (EvCalendarSubmit url digest)
            (fun h => calendar_submit E h url digest) in
      match cal_ts with
      | Ok cal_ts =>
          match merge base_ts cal_ts with
          | Ok merged => submit_loop digest rest merged errors (S success_count)
          | Raise m =>
              submit_loop digest rest base_ts (errors ++ [url +:+ ": " +:+ m])
                success_count
          end
      | Raise m =>
          submit_loop digest rest base_ts (errors ++ [url +:+ ": " +:+ m])
            success_count
      end
  end.

(** An exception that leaves [_create_ots_with_calendar] is [Raise]. *)
Definition _create_ots_with_calendar (hash_hex : string)
    (calendars : list string) : M (result OTSResult) :=
  match core_import E with
  | Raise m => ret (Ok (failure ("opentimestamps core unavailable: " +:+ m) ∅))
  | Ok _ =>
      match calendars with
      | [] => ret (Ok (failure "no calendars configured" ∅))
      | _ =>
          match fromhex hash_hex with
          | None => ret (Raise TSA.fromhex_error)
          | Some digest =>
              let! '(base_ts, errors, success_count) :=
                submit_loop digest calendars (new_timestamp digest) [] 0 in
              if decide (success_count = 0%nat) then
                ret (Ok (failure "all calendars failed"
                           {["errors" := VList (map VStr errors)]}))
              else
                match detached_serialize E OpSHA256 base_ts with
                | Raise m => ret (Raise m)
                | Ok out =>
                    ret (Ok {| success := true; error := None;
                               info :=
                                 <["calendar_success" :=
                                     VInt (Z.of_nat success_count)]>
                                 {["calendar_errors" := VList (map VStr errors)]};
                               ots_bytes := Some out;
                               updated_ots_bytes := None |})
                end
          end
      end
  end.

Definition create_ots (hash_hex : string) (calendars : option (list string))
  : M OTSResult :=
  match load_ots_client E with
  | None =>
      let! r := _create_ots_with_calendar hash_hex (default [] calendars) in
      match r with
      | Ok res => ret res
      | Raise m => ret (failure m ∅)
      end
  | Some client =>
      match fromhex hash_hex with
      | None => ret (failure TSA.fromhex_error ∅)
      | Some digest =>
          let timestamp := new_timestamp digest in
          let! stamped :=
            ask (EvClientStamp digest) (fun h => ots_stamp client h timestamp) in
          match stamped with
          | Raise m => ret (failure m ∅)
          | Ok timestamp =>
              match timestamp_serialize E timestamp with
              | Raise m => ret (failure m ∅)
              | Ok out =>
                  ret {| success := true; error := None; info := ∅;
                         ots_bytes := Some out; updated_ots_bytes := None |}
              end
          end
      end
  end.

(** [if hash_hex: expected = bytes.fromhex(hash_hex);
    if timestamp.msg != expected: ...], which [verify_ots] runs on each of
    its paths. *)
Inductive HashCheck : Type :=
| NoDigest
| BadHex
| Mismatch
| Match.

Definition check_hash (hash_hex : option string) (m : bytes) : HashCheck :=
  if TSA.opt_str_truthy hash_hex then
    match fromhex (default "" hash_hex) with
    | None => BadHex
    | Some expected => if decide (m ≠ expected) then Mismatch else Match
    end
  else NoDigest.

(** The loop of [verify_ots] over the pending attestations. *)
Fixpoint upgrade_loop (pending : list (list Op * bytes * string))
    (ts : Timestamp) (upgraded : bool) (upgrade_errors : list string)
    (calendar_results : list Value)
  : M (Timestamp * bool * list string * list Value) :=
  match pending with
  | [] => ret (ts, upgraded, upgrade_errors, calendar_results)
  | (path, m, uri) :: rest =>
      let! cal_ts :=
        ask (EvCalendarUpgrade uri m)
            (fun h => calendar_get_timestamp E h uri m) in
      let failed (e : string) :=
        upgrade_loop rest ts upgraded
          (upgrade_errors ++ [uri +:+ ": " +:+ e])
          (calendar_results ++
             [VDict [("uri", VStr uri); ("success", VBool false);
                     ("error", VStr e)]]) in
      match cal_ts with
      | Ok cal_ts =>
          if decide (m = msg cal_ts) then
            upgrade_loop rest
              {| msg := msg ts;
                 node := merge_at path (node ts) (node cal_ts) |}
              true upgrade_errors
              (calendar_results ++
                 [VDict [("uri", VStr uri); ("success", VBool true);
                         ("summary",
                           VDict (map_to_list (_collect_attestation_info cal_ts)))]])
          else failed merge_error
      | Raise e => failed e
      end
  end.

Definition set_if_any (key : string) (l : list Value)
    (info : gmap string Value) : gmap string Value :=
  match l with
  | [] => info
  | _ => <[key := VList l]> info
  end.

Definition verify_ots (ots_bytes : bytes) (hash_hex : option string)
  : M OTSResult :=
  match load_ots_client E with
  | None =>
      match core_import E with
      | Raise m => ret (failure ("opentimestamps core unavailable: " +:+ m) ∅)
      | Ok _ =>
          match detached_deserialize E ots_bytes with
          | Raise m => ret (failure m ∅)
          | Ok (file_hash_op, ts) =>
              let info := _collect_attestation_info ts in
              match check_hash hash_hex (msg ts) with
              | BadHex => ret (failure TSA.fromhex_error ∅)
              | Mismatch =>
                  ret (failure "hash mismatch" (<["hash_match" := VBool false]> info))
              | _ =>
                  let pending := _collect_pending_attestations ts in
                  let! '(ts, upgraded, upgrade_errors, calendar_results) :=
                    upgrade_loop pending ts false [] [] in
                  let info := _collect_attestation_info ts in
                  let! proofs := _collect_blockchain_proofs ts in
                  let info := set_if_any "blockchain_proofs" proofs info in
                  let info :=
                    set_if_any "upgrade_errors" (map VStr upgrade_errors) info in
                  let info := set_if_any "calendar_results" calendar_results info in
                  let updated :=
                    if upgraded then
                      match detached_serialize E file_hash_op ts with
                      | Ok out => Ok (Some out)
                      | Raise m => Raise m
                      end
                    else Ok None in
                  match updated with
                  | Raise m => ret (failure m ∅)
                  | Ok updated_ots_bytes =>
                      match check_hash hash_hex (msg ts) with
                      | BadHex => ret (failure TSA.fromhex_error ∅)
                      | Mismatch => ret (failure "hash mismatch" info)
                      | Match =>
                          ret {| success := true; error := None;
                                 info := <["hash_match" := VBool true]> info;
                                 ots_bytes := None;
                                 updated_ots_bytes := updated_ots_bytes |}
                      | NoDigest =>
                          ret {| success := true; error := None; info := info;
                                 ots_bytes := None;
                                 updated_ots_bytes := updated_ots_bytes |}
                      end
                  end
              end
          end
      end
  | Some client =>
      match timestamp_deserialize E ots_bytes with
      | Raise m => ret (failure m ∅)
      | Ok timestamp =>
          let! verdict :=
            ask (EvClientVerify (msg timestamp))
                (fun h => ots_verify client h timestamp) in
          match verdict with
          | Raise m => ret (failure m ∅)
          | Ok verdict =>
              let info := _collect_attestation_info timestamp in
              let! proofs := _collect_blockchain_proofs timestamp in
              let info := set_if_any "blockchain_proofs" proofs info in
              let with_result (info : gmap string Value) :=
                match verdict with
                | Some r => <["result" := VStr r]> info
                | None => info
                end in
              match check_hash hash_hex (msg timestamp) with
              | BadHex => ret (failure TSA.fromhex_error ∅)
              | Mismatch =>
                  ret (failure "hash mismatch" (<["hash_match" := VBool false]> info))
              | Match =>
                  ret {| success := true; error := None;
                         info := with_result (<["hash_match" := VBool true]> info);
                         ots_bytes := None; updated_ots_bytes := None |}
              | NoDigest =>
                  ret {| success := true; error := None; info := with_result info;
                         ots_bytes := None; updated_ots_bytes := None |}
              end
          end
      end
  end.

End Service.
End OTS.

(** ** [app/services/storage_service.py] *)

Module Storage.

Definition evidence_dir (files_dir hash_value : string) : string :=
  path_join files_dir hash_value.

(** [os.makedirs(path, exist_ok=True)] *)
Definition ensure_evidence_dir (files_dir hash_value : string) : M string :=
  fun w =>
    let path := evidence_dir files_dir hash_value in
    (path, {| trace := trace w; db := db w; files := files w;
              dirs := {[path]} ∪ dirs w |}).

Definition write_file (target : string) (content : bytes) : M unit :=
  fun w =>
    (tt, {| trace := trace w; db := db w;
            files := <[target := content]> (files w); dirs := dirs w |}).

Definition save_ots_file (files_dir hash_value : string) (content : bytes)
  : M string :=
  let! base_dir := ensure_evidence_dir files_dir hash_value in
  let target := path_join base_dir (hash_value +:+ ".ots") in
  let! _ := write_file target content in
  ret target.

Definition save_tsa_file (files_dir hash_value : string) (content : bytes)
  : M string :=
  let! base_dir := ensure_evidence_dir files_dir hash_value in
  let target := path_join base_dir (hash_value +:+ ".tsr") in
  let! _ := write_file target content in
  ret target.

(** [path] is [os.path.join(base_dir, name)] for an entry [name] of
    [os.listdir(base_dir)]. *)
Definition is_entry_of (base_dir path : string) : bool :=
  let prefix := list_byte_of_string (path_join base_dir "") in
  let p := list_byte_of_string path in
  startswith p prefix &&
  let name := drop (length prefix) p in
  bytes_truthy name && negb (byte_in (byte_of_N 47) name).

Definition delete_evidence_files (files_dir hash_value : string) : M unit :=
  fun w =>
    let base_dir := evidence_dir files_dir hash_value in
    if decide (base_dir ∈ dirs w) then
      let files' :=
        filter (fun kv => negb (is_entry_of base_dir kv.1) = true) (files w) in
      let has_subdir :=
        bool_decide (set_Exists (fun d => is_entry_of base_dir d = true) (dirs w)) in
      (tt, {| trace := trace w; db := db w; files := files';
              dirs := if has_subdir then dirs w else dirs w ∖ {[base_dir]} |})
    else (tt, w).

Definition read_file (path : option string) : M (option bytes) :=
  fun w =>
    match path with
    | None => (None, w)
    | Some p => if str_truthy p then (files w !! p, w) else (None, w)
    end.

End Storage.

(** ** [app/storage/evidence_repo.py] *)

(** Modelled from the spec: the schema of the [evidences] table is not among
    the sources; the store keeps one record per digest ([hash] is the key of
    the table), which is what [INSERT OR IGNORE] relies on.  The columns are
    those the statements of the module name. *)
Module evidence_repo.

Definition with_db (f : gmap string Row → gmap string Row) : M unit :=
  fun w =>
    (tt, {| trace := trace w; db := f (db w); files := files w; dirs := dirs w |}).

Definition fetch_by_hash (hash_value : string) : M (option Row) :=
  fun w => (db w !! hash_value, w).

Section Store.
Context (E : Env).

(** One evaluation of [datetime('now')]. *)
Definition datetime_now_read : M string :=
  ask EvDatetimeNow (datetime_now E).

(** Both time columns of the new row get the same reading. *)
Definition insert_or_ignore (hash_value : string) (payload : Payload) : M unit :=
  let! now := datetime_now_read in
  with_db (fun d =>
             match d !! hash_value with
             | Some _ => d
             | None =>
                 <[hash_value :=
                     {| row_ots_status := payload_ots_status payload;
                        row_tsa_status := payload_tsa_status payload;
                        row_ots_path := payload_ots_path payload;
                        row_tsa_path := payload_tsa_path payload;
                        row_created_at := now;
                        row_updated_at := now |}]> d
             end).

(** The [UPDATE] reads the clock for the row it finds; without a row it
    does nothing. *)
Definition update_statuses (hash_value ots_status tsa_status : string)
    (ots_path tsa_path : option string) : M unit :=
  let! existing := fetch_by_hash hash_value in
  match existing with
  | Some old =>
      let! now := datetime_now_read in
      with_db (fun d =>
                 <[hash_value :=
                     {| row_ots_status := ots_status;
                        row_tsa_status := tsa_status;
                        row_ots_path := ots_path;
                        row_tsa_path := tsa_path;
                        row_created_at := row_created_at old;
                        row_updated_at := now |}]> d)
  | None => ret tt
  end.

End Store.

Definition delete_by_hash (hash_value : string) : M unit :=
  with_db (delete hash_value).

End evidence_repo.

(** ** [app/services/evidence_service.py] *)

Module Evidence.

Record EvidenceResult : Type := {
  hash_value : string;
  ots_status : string;
  tsa_status : string;
  ots_error : option string;
  tsa_error : option string;
  tsa_info : gmap string Value;
  record : option Row;
  saved : bool;
  ots_bytes : option bytes;
  tsa_bytes : option bytes;
  download_name_base : option string
}.

Definition _status_from_result (success : bool) : string :=
  if success then "success" else "failed".

(** [x and x_bytes]: the bytes of a result when they are present and not
    empty. *)
Definition nonempty (x : option bytes) : option bytes :=
  match x with
  | Some c => if bytes_truthy c then Some c else None
  | None => None
  end.

Section Service.
Context (E : Env).

(** [status == "success" and not read_file(path)] then ["failed"]. *)
Definition recheck (status : string) (path : option string) : M string :=
  if String.eqb status "success" then
    let! content := Storage.read_file path in
    match nonempty content with
    | Some _ => ret status
    | None => ret "failed"
    end
  else ret status.

(** The OTS block of [process_submission] when the record is saved. *)
Definition ots_block_saved (files_dir hash : string) (ots_enabled : bool)
    (ots_status : string) (ots_path : option string)
  : M (string * option string * option string) :=
  if negb (String.eqb ots_status "success") then
    if ots_enabled then
      let! ots_result :=
        OTS.create_ots E hash (Some (ots_calendar_urls (settings E))) in
      let ots_status := _status_from_result (OTS.success ots_result) in
      let ots_error := OTS.error ots_result in
      match (if OTS.success ots_result then nonempty (OTS.ots_bytes ots_result)
             else None) with
      | Some content =>
          let! target := Storage.save_ots_file files_dir hash content in
          ret (ots_status, ots_error, Some target)
      | None => ret (ots_status, ots_error, ots_path)
      end
    else ret ("disabled", Some "ots disabled", ots_path)
  else ret (ots_status, None, ots_path).

(** The TSA block of [process_submission] when the record is saved. *)
Definition tsa_block_saved (files_dir tsa_url hash : string) (tsa_enabled : bool)
    (tsa_status : string) (tsa_path : option string)
  : M (string * option string * gmap string Value * option string) :=
  if negb (String.eqb tsa_status "success") then
    if tsa_enabled then
      let! tsa_result := TSA.create_tsa E hash tsa_url in
      let tsa_status := _status_from_result (TSA.success tsa_result) in
      let tsa_error := TSA.error tsa_result in
      let tsa_info := TSA.info tsa_result in
      match (if TSA.success tsa_result then nonempty (TSA.tsr_bytes tsa_result)
             else None) with
      | Some content =>
          let! target := Storage.save_tsa_file files_dir hash content in
          ret (tsa_status, tsa_error, tsa_info, Some target)
      | None => ret (tsa_status, tsa_error, tsa_info, tsa_path)
      end
    else ret ("disabled", Some "tsa disabled", ∅, tsa_path)
  else ret (tsa_status, None, ∅, tsa_path).

(** The OTS block of [process_submission] when nothing is saved. *)
Definition ots_block_unsaved (hash : string) (ots_enabled : bool)
  : M (string * option string * option bytes) :=
  if ots_enabled then
    let! ots_result :=
      OTS.create_ots E hash (Some (ots_calendar_urls (settings E))) in
    ret (_status_from_result (OTS.success ots_result), OTS.error ots_result,
         if OTS.success ots_result then nonempty (OTS.ots_bytes ots_result)
         else None)
  else ret ("disabled", Some "ots disabled", None).

(** The TSA block of [process_submission] when nothing is saved. *)
Definition tsa_block_unsaved (tsa_url hash : string) (tsa_enabled : bool)
  : M (string * option string * gmap string Value * option bytes) :=
  if tsa_enabled then
    let! tsa_result := TSA.create_tsa E hash tsa_url in
    ret (_status_from_result (TSA.success tsa_result), TSA.error tsa_result,
         TSA.info tsa_result,
         if TSA.success tsa_result then nonempty (TSA.tsr_bytes tsa_result)
         else None)
  else ret ("disabled", Some "tsa disabled", ∅, None).

(** [process_submission] with [save_record], from the point where the
    statuses and the record [existing] are known. *)
Definition process_saved (files_dir tsa_url hash : string)
    (ots_enabled tsa_enabled : bool) (name_base : option string)
    (ots_status tsa_status : string) (existing : option Row)
  : M EvidenceResult :=
  let ots_path := existing ≫= row_ots_path in
  let tsa_path := existing ≫= row_tsa_path in
  let! ots_status := recheck ots_status ots_path in
  let! tsa_status := recheck tsa_status tsa_path in
  let! '(ots_status, ots_error, ots_path) :=
    ots_block_saved files_dir hash ots_enabled ots_status ots_path in
  let! '(tsa_status, tsa_error, tsa_info, tsa_path) :=
    tsa_block_saved files_dir tsa_url hash tsa_enabled tsa_status tsa_path in
  let! _ :=
    evidence_repo.update_statuses E hash ots_status tsa_status ots_path
      tsa_path in
  let! record := evidence_repo.fetch_by_hash hash in
  ret {| hash_value := hash; ots_status := ots_status; tsa_status := tsa_status;
         ots_error := ots_error; tsa_error := tsa_error; tsa_info := tsa_info;
         record := record; saved := true;
         ots_bytes := None; tsa_bytes := None;
         download_name_base := name_base |}.

Definition process_submission (files_dir tsa_url hash : string)
    (ots_enabled tsa_enabled save_record : bool)
    (name_base : option string) : M EvidenceResult :=
  if save_record then
    let! existing := evidence_repo.fetch_by_hash hash in
    match existing with
    | Some row =>
        process_saved files_dir tsa_url hash ots_enabled tsa_enabled name_base
          (row_ots_status row) (row_tsa_status row) (Some row)
    | None =>
        let! _ :=
          evidence_repo.insert_or_ignore E hash
            {| payload_ots_status := "pending";
               payload_tsa_status := "pending";
               payload_ots_path := None; payload_tsa_path := None |} in
        let! existing := evidence_repo.fetch_by_hash hash in
        process_saved files_dir tsa_url hash ots_enabled tsa_enabled name_base
          "pending" "pending" existing
    end
  else
    let! '(ots_status, ots_error, ots_bytes) :=
      ots_block_unsaved hash ots_enabled in
    let! '(tsa_status, tsa_error, tsa_info, tsa_bytes) :=
      tsa_block_unsaved tsa_url hash tsa_enabled in
    ret {| hash_value := hash; ots_status := ots_status; tsa_status := tsa_status;
           ots_error := ots_error; tsa_error := tsa_error; tsa_info := tsa_info;
           record := None; saved := save_record;
           ots_bytes := ots_bytes; tsa_bytes := tsa_bytes;
           download_name_base := name_base |}.





Definition delete_evidence (files_dir hash : string) (keep_files : bool)
  : M bool :=
  let! record := evidence_repo.fetch_by_hash hash in
  match record with
  | None => ret false
  | Some _ =>
      let! _ :=
        if negb keep_files then Storage.delete_evidence_files files_dir hash
        else ret tt in
      let! _ := evidence_repo.delete_by_hash hash in
      ret true
  end.

End Service.
End Evidence.

(** ** A concrete environment

    Stand-ins for the libraries and remote services, on which the services
    can be run. *)

Module Demo.

(** Position of a character in the 64-character alphabet. *)
Fixpoint index_of (c : byte) (l : bytes) (i : N) : option N :=
  match l with
  | [] => None
  | d :: l' => if decide (c = d) then Some i else index_of c l' (i + 1)%N
  end.

Definition b64_index (c : byte) : option N :=
  index_of c (take 64 TSA.allowed) 0%N.

Definition pad_char : byte := byte_of_N 61.

(** RFC 4648 decoding of a padded text. *)
Fixpoint b64decode_ref (x : bytes) : result bytes :=
  match x with
  | [] => Ok []
  | c1 :: c2 :: c3 :: c4 :: rest =>
      match b64_index c1, b64_index c2, b64_index c3, b64_index c4 with
      | Some n1, Some n2, Some n3, Some n4 =>
          match b64decode_ref rest with
          | Ok tl =>
              Ok (byte_of_N (n1 * 4 + n2 / 16)
                  :: byte_of_N ((n2 mod 16) * 16 + n3 / 4)
                  :: byte_of_N ((n3 mod 4) * 64 + n4) :: tl)
          | Raise m => Raise m
          end
      | Some n1, Some n2, Some n3, None =>
          if decide (c4 = pad_char ∧ rest = []) then
            Ok [byte_of_N (n1 * 4 + n2 / 16); byte_of_N ((n2 mod 16) * 16 + n3 / 4)]
          else Raise "Incorrect padding"
      | Some n1, Some n2, None, None =>
          if decide (c3 = pad_char ∧ c4 = pad_char ∧ rest = []) then
            Ok [byte_of_N (n1 * 4 + n2 / 16)]
          else Raise "Incorrect padding"
      | _, _, _, _ => Raise "Incorrect padding"
      end
  | _ => Raise "Incorrect padding"
  end.

Definition sha512_oid : string := "2.16.840.1.101.3.4.2.3".
Definition sha256_oid : string := "2.16.840.1.101.3.4.2.1".

Definition demo_oid_to_hash (oid : string) : option string :=
  if String.eqb oid "1.3.14.3.2.26" then Some "sha1"
  else if String.eqb oid sha256_oid then Some "sha256"
  else if String.eqb oid "2.16.840.1.101.3.4.2.2" then Some "sha384"
  else if String.eqb oid sha512_oid then Some "sha512"
  else None.

(** A 32-byte digest and its hexadecimal text. *)
Definition digest32 : bytes := replicate 32 (byte_of_N 171).
Definition digest32_hex : string := TSA.hex digest32.

(** A token whose imprint declares SHA-512 and carries 32 bytes. *)
Definition demo_token : TimeStampToken :=
  {| tst_info_attr :=
       Some (Some {| messageImprint :=
                       Some {| mi_algorithm := Some sha512_oid;
                               mi_hashed := Some digest32 |} |});
     tst_content := Raise "no content" |}.

Definition demo_tsr : TimeStampResp :=
  {| tsr_status := Some "granted";
     tsr_time := Some "2024-01-01 00:00:00";
     time_stamp_token := Some demo_token |}.

(** The one byte string the strict decoder accepts, and its base64 text
    without the final padding character. *)
Definition demo_der : bytes := map byte_of_N [48; 3; 2; 1; 0]%N.
Definition demo_b64_unpadded : bytes := bytes_of "MAMCAQA".

Definition demo_decoder (x : bytes) : result TimeStampResp :=
  if decide (x = demo_der) then Ok demo_tsr
  else Raise "not a TimeStampResp".

Definition calendar_a : string := "https://a.example".
Definition calendar_b : string := "https://b.example".
Definition calendar_down : string := "https://down.example".

Definition demo_submit (h : list Event) (url : string) (digest : bytes)
  : result Timestamp :=
  if String.eqb url calendar_down then Raise "connection refused"
  else Ok {| msg := digest; node := MkNode [PendingAttestation url] [] |}.

Definition demo_settings (btc_api : string) : Settings :=
  {| tsa_url := "https://tsa.example/tsr";
     ots_calendar_urls := [calendar_a; calendar_down; calendar_b];
     btc_block_hash_api := btc_api;
     ltc_block_hash_api := "https://ltc.example/{height}";
     btc_explorer_block_url := "https://explorer.example/btc/{hash}";
     ltc_explorer_block_url := "https://explorer.example/ltc/{hash}";
     btc_explorer_height_url := "https://explorer.example/btc/{height}";
     ltc_explorer_height_url := "https://explorer.example/ltc/{height}" |}.

(** A client whose [stamp] and [verify] always return. *)
Definition demo_client : OtsClient :=
  {| ots_stamp := fun _ ts =>
       Ok {| msg := msg ts; node := MkNode [PendingAttestation calendar_a] [] |};
     ots_verify := fun _ _ => Ok None |}.

(** A proof file is read as a one-byte tag followed by the digest: tag 1
    for a tree with one Bitcoin attestation at height 800000, any other tag
    for a tree with one pending attestation. *)
Definition demo_tree (x : bytes) : result Timestamp :=
  match x with
  | [] => Raise "unexpected end of file"
  | tag :: digest =>
      Ok {| msg := digest;
            node :=
              if decide (tag = x01)
              then MkNode [BitcoinBlockHeaderAttestation 800000] []
              else MkNode [PendingAttestation calendar_a] [] |}
  end.

(** A clock that moves with every outside call. *)
Definition demo_clock (h : list Event) : string :=
  "2024-01-01 00:00:" +:+ pretty (Z.of_nat (length h / 10 mod 6))
  +:+ pretty (Z.of_nat (length h mod 10)).

Definition mk_env (client : option OtsClient) (core : result unit)
    (btc_api : string) : Env :=
  {| settings := demo_settings btc_api;
     load_ots_client := client;
     core_import := core;
     apply_hash := fun _ m => m;
     calendar_submit := demo_submit;
     calendar_get_timestamp := fun _ _ _ => Raise "not found";
     detached_serialize := fun _ ts => Ok (x00 :: msg ts);
     detached_deserialize := fun x =>
       match demo_tree x with
       | Ok ts => Ok (OpSHA256, ts)
       | Raise m => Raise m
       end;
     timestamp_serialize := fun ts => Ok (x00 :: msg ts);
     timestamp_deserialize := demo_tree;
     http_get := fun _ _ =>
       Ok {| resp_ok := true; status_code := 200;
             resp_text := "00000000000000000002a7c4c1e48d76c5a37902165a270156b7a8d72728a054";
             resp_json := Raise "not json" |};
     str_format := fun template _ => template;
     str_of_value := fun v => match v with VStr s => s | _ => "" end;
     str_of_info := fun _ => "{}";
     decode_utf8_replace := string_of_list_byte;
     rfc3161ng_import := Ok tt;
     decode_timestamp_response := Some demo_decoder;
     get_timestamp := Some (fun _ => Raise "not a TimeStampToken");
     remote_timestamper := fun _ _ _ => Ok (RespBytes demo_der);
     der_decode_token := fun _ => Raise "not a TimeStampToken";
     ber_decode := fun _ => Raise "not BER";
     ber_decode_tstinfo := fun _ => Raise "not BER";
     oid_to_hash := demo_oid_to_hash;
     b64decode := fun _ x => b64decode_ref x;
     datetime_now := demo_clock |}.

Definition demo_env : Env := mk_env None (Ok tt) "https://btc.example/{height}".

Definition demo_env_client : Env :=
  mk_env (Some demo_client) (Ok tt) "https://btc.example/{height}".

Definition empty_world : World :=
  {| trace := []; db := ∅; files := ∅; dirs := ∅ |}.

(** A world with one stored record and its proof file. *)
Definition stored_world : World :=
  {| trace := [];
     db := {["cd" := {| row_ots_status := "success";
                        row_tsa_status := "disabled";
                        row_ots_path := Some "/data/files/cd/cd.ots";
                        row_tsa_path := None;
                        row_created_at := "2023-12-31 23:59:59";
                        row_updated_at := "2023-12-31 23:59:59" |}]};
     files := {["/data/files/cd/cd.ots" := x00 :: digest32]};
     dirs := {["/data/files/cd"]} |}.

End Demo.

(** ** [app/utils/session.py] *)

(** The sessions of the process: the module-level dict [_SESSIONS], from
    token to session.  The clock is [time.time()]: its readings are compared
    with [<] and moved forward with [+]; the token that
    [secrets.token_urlsafe] draws and the reading of the clock are arguments
    of the calls that use them. *)
Module Session.

Definition SESSION_TTL_SECONDS : Z := 60 * 60 * 12.

Record SessionData (time : Type) : Type := {
  expires_at : time;
  user : string
}.
Arguments expires_at {time} _.
Arguments user {time} _.

Abbreviation Sessions time := (gmap string (SessionData time)).

Section Clock.
Context {time : Type}.
Context (time_lt : time → time → bool) (time_add : time → Z → time).

Definition create_session (token : string) (now : time) (username : string)
    (s : Sessions time) : string * Sessions time :=
  (token,
   <[token := {| expires_at := time_add now SESSION_TTL_SECONDS;
                 user := username |}]> s).

Definition get_session (now : time) (token : option string)
    (s : Sessions time) : option (SessionData time) * Sessions time :=
  match token with
  | None => (None, s)
  | Some t =>
      if negb (str_truthy t) then (None, s)
      else
        match s !! t with
        | None => (None, s)
        | Some session =>
            if time_lt (expires_at session) now then (None, delete t s)
            else (Some session, s)
        end
  end.

Definition delete_session (token : option string) (s : Sessions time)
  : Sessions time :=
  match token with
  | None => s
  | Some t => if negb (str_truthy t) then s else delete t s
  end.

End Clock.
End Session.

(** ** [app/api/routes.py] *)

(** The handlers of the login, upload and download routes.  A handler
    answers or raises [HTTPException]; the cookie [session_id] of the
    request, the form fields, the sessions and the world are its
    arguments.  [files_dir], [basic_auth_user] and [basic_auth_pass] are
    the settings of these names; [str_lower] is [str.lower] and
    [b64encode] is [base64.b64encode(...).decode("ascii")]. *)
Module Routes.

Inductive Http (A : Type) : Type :=
| Respond (a : A)
| HTTPException (status_code : Z) (detail : string).
Arguments Respond {A} _.
Arguments HTTPException {A} _ _.



(** [FileResponse(path, filename=filename)] *)
Record FileResponse : Type := {
  fr_path : string;
  fr_filename : string
}.

(** [x or "enable"] *)
Definition or_enable (x : option string) : string :=
  match x with
  | Some s => if str_truthy s then s else "enable"
  | None => "enable"
  end.



Section Handlers.
Context (E : Env) {time : Type}.
Context (time_lt : time → time → bool) (time_add : time → Z → time).
Context (files_dir basic_auth_user basic_auth_pass : string).
Context (str_lower : string → string) (b64encode : bytes → string).

Definition enabled (option_value : option string) : bool :=
  negb (String.eqb (str_lower (or_enable option_value)) "disable").

Definition require_login (now : time) (cookie : option string)
    (s : Session.Sessions time)
  : Http (Session.SessionData time) * Session.Sessions time :=
  let '(session, s) := Session.get_session time_lt now cookie s in
  match session with
  | None => (HTTPException 403 "forbidden", s)
  | Some session => (Respond session, s)
  end.

(** The answer of [login] is the value of the cookie it sets. *)
Definition login (token : string) (now : time) (username password : string)
    (s : Session.Sessions time) : Http string * Session.Sessions time :=
  if negb (String.eqb username basic_auth_user
           && String.eqb password basic_auth_pass)
  then (HTTPException 401 "unauthorized", s)
  else
    let '(token, s) := Session.create_session time_add token now username s in
    (Respond token, s).

Definition logout (cookie : option string) (s : Session.Sessions time)
  : Session.Sessions time :=
  Session.delete_session cookie s.



(** [not path or not os.path.isfile(path)] raises. *)
Definition _file_response (path : option string) (filename : string)
  : M (Http FileResponse) :=
  fun w =>
    match path with
    | Some p =>
        if str_truthy p && bool_decide (is_Some (files w !! p))
        then (Respond {| fr_path := p; fr_filename := filename |}, w)
        else (HTTPException 404 "file not found", w)
    | None => (HTTPException 404 "file not found", w)
    end.

Definition download_ots (hash_value : string) : M (Http FileResponse) :=
  let! record := evidence_repo.fetch_by_hash hash_value in
  match record with
  | None => ret (HTTPException 404 "record not found")
  | Some row =>
      if negb (String.eqb (row_ots_status row) "success")
      then ret (HTTPException 403 "ots file not available")
      else _file_response (row_ots_path row) (hash_value +:+ ".ots")
  end.

Definition download_tsa (hash_value : string) : M (Http FileResponse) :=
  let! record := evidence_repo.fetch_by_hash hash_value in
  match record with
  | None => ret (HTTPException 404 "record not found")
  | Some row =>
      if negb (String.eqb (row_tsa_status row) "success")
      then ret (HTTPException 403 "tsa file not available")
      else _file_response (row_tsa_path row) (hash_value +:+ ".tsr")
  end.


End Handlers.
End Routes.

(** ** [app/config.py] *)

(** The settings the services read, as [load_settings] takes them from the
    environment [os.environ]; [str_strip] is [str.strip]. *)
Module Config.

(** [x.split(sep)] for a separator of one character. *)
Fixpoint split_aux (sep : byte) (cur x : bytes) : list bytes :=
  match x with
  | [] => [cur]
  | c :: rest =>
      if decide (c = sep) then cur :: split_aux sep [] rest
      else split_aux sep (cur ++ [c]) rest
  end.

Definition str_split (sep : byte) (s : string) : list string :=
  map string_of_list_byte (split_aux sep [] (list_byte_of_string s)).

(** [sep.join(items)] *)
Fixpoint str_join (sep : string) (items : list string) : string :=
  match items with
  | [] => ""
  | [x] => x
  | x :: rest => x +:+ sep +:+ str_join sep rest
  end.

Definition comma : byte := byte_of_N 44.

Definition calendar_default : string :=
  str_join ","
    ["https://a.pool.opentimestamps.org";
     "https://b.pool.opentimestamps.org";
     "https://a.pool.eternitywall.com";
     "https://ots.btc.catallaxy.com";
     "https://alice.btc.calendar.opentimestamps.org/"].

Section Environment.
Context (str_strip : string → string) (environ : gmap string string).

(** [os.environ.get(name, fallback)] *)
Definition environ_get (name fallback : string) : string :=
  default fallback (environ !! name).

Definition load_settings : Settings :=
  let calendar_env := environ_get "OTS_CALENDAR_URLS" calendar_default in
  {| tsa_url := str_strip (environ_get "TSA_URL" "https://freetsa.org/tsr");
     ots_calendar_urls :=
       omap (fun item : string =>
               if str_truthy (str_strip item) then Some (str_strip item)
               else None)
         (str_split comma calendar_env);
     btc_block_hash_api :=
       str_strip (environ_get "BTC_BLOCK_HASH_API"
                    "https://blockstream.info/api/block-height/{height}");
     ltc_block_hash_api :=
       str_strip (environ_get "LTC_BLOCK_HASH_API"
                    "https://sochain.com/api/v2/get_block/LTC/{height}");
     btc_explorer_block_url :=
       str_strip (environ_get "BTC_EXPLORER_BLOCK_URL"
                    "https://blockchair.com/bitcoin/block/{hash}");
     ltc_explorer_block_url :=
       str_strip (environ_get "LTC_EXPLORER_BLOCK_URL"
                    "https://blockchair.com/litecoin/block/{hash}");
     btc_explorer_height_url :=
       str_strip (environ_get "BTC_EXPLORER_HEIGHT_URL"
                    "https://blockchair.com/bitcoin/block/{height}");
     ltc_explorer_height_url :=
       str_strip (environ_get "LTC_EXPLORER_HEIGHT_URL"
                    "https://blockchair.com/litecoin/block/{height}") |}.

End Environment.
End Config.

(** ** Notions used to state the properties *)

(** The world after some more outside calls. *)
Definition extend (w : World) (evs : list Event) : World :=
  {| trace := trace w ++ evs; db := db w; files := files w; dirs := dirs w |}.

(** The claim as the specification words it: creation with an empty
    calendar list fails with the configuration error and does nothing to
    the outside. *)
Definition fails_fast_without_calendars (E : Env) (hash_hex : string)
    (w : World) : Prop :=
  OTS.create_ots E hash_hex (Some []) w
  = (OTS.failure "no calendars configured" ∅, w).

(** What one calendar contributes to the aggregation: its answer, merged
    into the tree built so far. *)
Definition endpoint_outcome (E : Env) (h : list Event) (base_ts : Timestamp)
    (url : string) (digest : bytes) : result Timestamp :=
  match calendar_submit E h url digest with
  | Ok cal_ts => merge base_ts cal_ts
  | Raise m => Raise m
  end.

(** The outcome of every endpoint, in endpoint order: each one is asked
    after those before it and merged into what they left. *)
Fixpoint outcomes (E : Env) (digest : bytes) (calendars : list string)
    (base_ts : Timestamp) (h : list Event) : list (string * result Timestamp) :=
  match calendars with
  | [] => []
  | url :: rest =>
      let r := endpoint_outcome E h base_ts url digest in
      (url, r)
      :: outcomes E digest rest
           (match r with Ok merged => merged | Raise _ => base_ts end)
           (h ++ [EvCalendarSubmit url digest])
  end.

(** The error string of every endpoint that failed, in endpoint order. *)
Definition error_strings (outs : list (string * result Timestamp))
  : list string :=
  omap (fun o : string * result Timestamp =>
          match o.2 with
          | Raise m => Some (o.1 +:+ ": " +:+ m)
          | Ok _ => None
          end) outs.

(** The number of endpoints that succeeded. *)
Definition successes (outs : list (string * result Timestamp)) : nat :=
  length (filter (fun o : string * result Timestamp => is_ok o.2 = true) outs).

(** The tree after all endpoints. *)
Definition merged_tree (base_ts : Timestamp)
    (outs : list (string * result Timestamp)) : Timestamp :=
  foldl (fun t (o : string * result Timestamp) =>
           match o.2 with Ok merged => merged | Raise _ => t end) base_ts outs.

(** The submissions to [calendars], in order. *)
Definition submissions (digest : bytes) (calendars : list string)
  : list Event :=
  map (fun url => EvCalendarSubmit url digest) calendars.

(** The (chain, height) pairs of the block-header attestations of a tree,
    in the order the resolver meets them. *)
Definition anchor_keys (atts : list (bytes * Attestation))
  : list (string * Z) :=
  omap (fun ma : bytes * Attestation => OTS.chain_of ma.2) atts.

(** The distinct (chain, height) pairs among the anchors of a tree. *)
Definition distinct_anchors (E : Env) (ts : Timestamp) : gset (string * Z) :=
  list_to_set (anchor_keys (OTS.all_attestations E ts)).

(** The pairs met for the first time, given those already seen. *)
Fixpoint fresh_keys (keys : list (string * Z)) (seen : gset (string * Z))
  : list (string * Z) :=
  match keys with
  | [] => []
  | k :: rest =>
      if decide (k ∈ seen) then fresh_keys rest seen
      else k :: fresh_keys rest ({[k]} ∪ seen)
  end.

Definition is_block_hash_lookup (e : Event) : bool :=
  match e with EvBlockHashLookup _ _ => true | _ => false end.

Definition is_http_get (e : Event) : bool :=
  match e with EvHttpGet _ => true | _ => false end.

(** How many events of a kind a trace holds. *)
Definition count_events (p : Event → bool) (evs : list Event) : nat :=
  length (filter (fun e => p e = true) evs).

(** The lookup API of a chain, when the chain is supported. *)
Definition api_template_of (E : Env) (chain : string) : option string :=
  if String.eqb chain "bitcoin" then Some (btc_block_hash_api (settings E))
  else if String.eqb chain "litecoin" then Some (ltc_block_hash_api (settings E))
  else None.

(** The requests one block-hash lookup sends: one when the chain has a
    lookup API configured, none otherwise. *)
Definition lookup_requests (E : Env) (key : string * Z) : list Event :=
  match api_template_of E key.1 with
  | Some api_template =>
      if str_truthy api_template
      then [EvHttpGet (str_format E api_template [("height", pretty key.2)])]
      else []
  | None => []
  end.

(** The events of one block-hash lookup. *)
Definition lookup_events (E : Env) (key : string * Z) : list Event :=
  EvBlockHashLookup key.1 key.2 :: lookup_requests E key.

(** A tree with two anchors at the same Bitcoin height, on two paths. *)
Definition two_anchor_tree : Timestamp :=
  {| msg := Demo.digest32;
     node :=
       MkNode [BitcoinBlockHeaderAttestation 800000]
         [(OpSHA256,
           MkNode [BitcoinBlockHeaderAttestation 800000;
                   PendingAttestation Demo.calendar_a] [])] |}.

(** The tree a proof file decodes to, on the path [verify_ots] takes: the
    detached file of the core library, or the client's own format when
    the high-level client is loaded. *)
Definition decoded_proof (E : Env) (ots_bytes : bytes) : result Timestamp :=
  match load_ots_client E with
  | None =>
      match core_import E with
      | Raise m => Raise m
      | Ok _ =>
          match detached_deserialize E ots_bytes with
          | Ok (_, ts) => Ok ts
          | Raise m => Raise m
          end
      end
  | Some _ => timestamp_deserialize E ots_bytes
  end.

(** The answer to a proof made for another digest. *)
Definition reports_mismatch (r : OTS.OTSResult) : Prop :=
  OTS.success r = false
  ∧ OTS.error r = Some "hash mismatch"
  ∧ OTS.info r !! "hash_match" = Some (VBool false).

(** The claim as the specification words it: every proof that decodes to
    a tree made for another digest than the supplied one is answered with
    the mismatch, whatever its attestations are worth. *)
Definition mismatch_always_reported (E : Env) : Prop :=
  ∀ (ots_bytes : bytes) (hash_hex : string) (expected : bytes)
    (ts : Timestamp) (w : World),
    decoded_proof E ots_bytes = Ok ts →
    hash_hex ≠ "" →
    fromhex hash_hex = Some expected →
    msg ts ≠ expected →
    reports_mismatch (OTS.verify_ots E ots_bytes (Some hash_hex) w).1.

(** A high-level client whose [verify] raises on every proof, as the
    client does for attestations it cannot check. *)
Definition rejecting_client : OtsClient :=
  {| ots_stamp := ots_stamp Demo.demo_client;
     ots_verify := fun _ _ => Raise "attestation could not be verified" |}.

Definition rejecting_env : Env :=
  Demo.mk_env (Some rejecting_client) (Ok tt) "https://btc.example/{height}".

(** The digest length, in bytes, of the hash algorithms [oid_to_hash]
    names. *)
Definition digest_size (name : string) : option nat :=
  if String.eqb name "sha1" then Some 20%nat
  else if String.eqb name "sha256" then Some 32%nat
  else if String.eqb name "sha384" then Some 48%nat
  else if String.eqb name "sha512" then Some 64%nat
  else None.

(** The digest length of the algorithm an imprint declares. *)
Definition declared_digest_length (E : Env) (mi : MessageImprint)
  : option nat :=
  match mi_algorithm mi with
  | Some oid =>
      match oid_to_hash E oid with
      | Some name => digest_size name
      | None => None
      end
  | None => None
  end.

(** The invariant as the specification words it: the hashed message is as
    long as the digests of the declared algorithm. *)
Definition well_formed_imprint (E : Env) (mi : MessageImprint) : Prop :=
  ∃ d n, mi_hashed mi = Some d
         ∧ declared_digest_length E mi = Some n
         ∧ length d = n.

(** The claim as the specification words it: verification accepts a token
    only when its imprint is well-formed. *)
Definition verification_checks_imprint_length (E : Env) : Prop :=
  ∀ tsr hash_hex tst ti mi,
    TSA.success (TSA.verify_tsa E tsr hash_hex) = true →
    TSA._extract_tst_token E tsr = Some tst →
    tst_info_attr tst = Some (Some ti) →
    messageImprint ti = Some mi →
    well_formed_imprint E mi.

(** [c] holds nothing that [t] does not: its attestations are attestations
    of [t], and each of its operations leads, in [t], to a child of which
    the same is true. *)
Fixpoint included (c t : Node) {struct c} : Prop :=
  match c with
  | MkNode catts cops =>
      (∀ a, a ∈ catts → a ∈ attestations t)
      ∧ (fix go (l : list (Op * Node)) : Prop :=
           match l with
           | [] => True
           | (op, sub) :: l' =>
               match find_op op (ops t) with
               | Some ch => included sub ch
               | None => False
               end ∧ go l'
           end) cops
  end.

(** The tree the aggregation leaves. *)
Definition aggregated_tree (E : Env) (digest : bytes)
    (calendars : list string) (w : World) : Timestamp :=
  (OTS.submit_loop E digest calendars (new_timestamp digest) [] 0 w).1.1.1.

(** The row written for a digest seen for the first time. *)
Definition pending_payload : Payload :=
  {| payload_ots_status := "pending"; payload_tsa_status := "pending";
     payload_ots_path := None; payload_tsa_path := None |}.

Definition pending_row (now : string) : Row :=
  {| row_ots_status := "pending"; row_tsa_status := "pending";
     row_ots_path := None; row_tsa_path := None;
     row_created_at := now; row_updated_at := now |}.

(** The world once [process_submission] has looked its record up: a
    digest without a record gets a pending one when records are saved. *)
Definition opening (E : Env) (hash : string) (save_record : bool) (w : World)
  : World :=
  if save_record then
    match db w !! hash with
    | Some _ => w
    | None => (evidence_repo.insert_or_ignore E hash pending_payload w).2
    end
  else w.

(** The proof file at [path] can be read and is not empty. *)
Definition readable (path : option string) (w : World) : bool :=
  match Evidence.nonempty (Storage.read_file path w).1 with
  | Some _ => true
  | None => false
  end.

(** A stored status that stands: it is "success" and its file is there. *)
Definition kept (status : string) (path : option string) (w : World) : bool :=
  String.eqb status "success" && readable path w.




(** The status a protocol ends a submission with. *)
Definition next_status (was_kept enabled operation_succeeded : bool) : string :=
  if was_kept then "success"
  else if enabled then
    if operation_succeeded then "success" else "failed"
  else "disabled".


(** Lines joined by line feeds, as a PEM file holds them. *)
Fixpoint join_lines (ls : list bytes) : bytes :=
  match ls with
  | [] => []
  | [l] => l
  | l :: rest => l ++ LF :: join_lines rest
  end.

(** A line of text: no carriage return or line feed in it. *)
Definition one_line (l : bytes) : Prop := LF ∉ l ∧ CR ∉ l.

(** A line that is not white at either end. *)
Definition trimmed (x : bytes) : Prop :=
  (∃ c rest, x = c :: rest ∧ is_space c = false)
  ∧ (∃ front c, x = front ++ [c] ∧ is_space c = false).

(** The request [verify_ots] sends for a pending attestation. *)
Definition upgrade_event (p : list Op * bytes * string) : Event :=
  EvCalendarUpgrade p.2 p.1.2.

Definition is_upgrade (e : Event) : bool :=
  match e with EvCalendarUpgrade _ _ => true | _ => false end.

(** The (chain, height) an entry of [blockchain_proofs] is about. *)
Definition entry_key (v : Value) : option (string * Z) :=
  match v with
  | VDict d =>
      match dict_get d "chain", dict_get d "height" with
      | Some (VStr chain), Some (VInt height) => Some (chain, height)
      | _, _ => None
      end
  | _ => None
  end.

(** The entry of [blockchain_proofs] for an anchor whose chain has no
    lookup API configured. *)
Definition disabled_entry (E : Env) (key : string * Z) : Value :=
  VDict [("chain", VStr key.1);
         ("height", VInt key.2);
         ("block_hash", VNone);
         ("explorer_url", OTS.opt_value (OTS._build_explorer_url E key.1 key.2 None));
         ("block_hash_error", VStr "block hash api disabled")].

(** An environment with other settings. *)
Definition with_settings (E : Env) (s : Settings) : Env :=
  {| settings := s;
     load_ots_client := load_ots_client E;
     core_import := core_import E;
     apply_hash := apply_hash E;
     calendar_submit := calendar_submit E;
     calendar_get_timestamp := calendar_get_timestamp E;
     detached_serialize := detached_serialize E;
     detached_deserialize := detached_deserialize E;
     timestamp_serialize := timestamp_serialize E;
     timestamp_deserialize := timestamp_deserialize E;
     http_get := http_get E;
     str_format := str_format E;
     str_of_value := str_of_value E;
     str_of_info := str_of_info E;
     decode_utf8_replace := decode_utf8_replace E;
     rfc3161ng_import := rfc3161ng_import E;
     decode_timestamp_response := decode_timestamp_response E;
     get_timestamp := get_timestamp E;
     remote_timestamper := remote_timestamper E;
     der_decode_token := der_decode_token E;
     ber_decode := ber_decode E;
     ber_decode_tstinfo := ber_decode_tstinfo E;
     oid_to_hash := oid_to_hash E;
     b64decode := b64decode E;
     datetime_now := datetime_now E |}.

(** The demonstration environment with both block-hash lookup APIs
    switched off. *)
Definition no_lookup_env : Env :=
  with_settings Demo.demo_env
    {| tsa_url := "https://tsa.example/tsr";
       ots_calendar_urls := [Demo.calendar_a];
       btc_block_hash_api := "";
       ltc_block_hash_api := "";
       btc_explorer_block_url := "https://explorer.example/btc/{hash}";
       ltc_explorer_block_url := "https://explorer.example/ltc/{hash}";
       btc_explorer_height_url := "https://explorer.example/btc/{height}";
       ltc_explorer_height_url := "https://explorer.example/ltc/{height}" |}.

(** The info [verify_ots] builds on its core-library path once the
    pending attestations were tried. *)
Definition verified_info (E : Env) (hash_hex : option string) (ts : Timestamp)
    (proofs : list Value) (upgrade_errors : list string)
    (calendar_results : list Value) : gmap string Value :=
  let info :=
    OTS.set_if_any "calendar_results" calendar_results
      (OTS.set_if_any "upgrade_errors" (map VStr upgrade_errors)
         (OTS.set_if_any "blockchain_proofs" proofs
            (OTS._collect_attestation_info E ts))) in
  match OTS.check_hash hash_hex (msg ts) with
  | OTS.Match => <["hash_match" := VBool true]> info
  | _ => info
  end.

(** The expected digest, when there is one to compare with, is the digest
    of the tree. *)
Definition digest_accepted (hash_hex : option string) (ts : Timestamp) : Prop :=
  OTS.check_hash hash_hex (msg ts) = OTS.Match
  ∨ OTS.check_hash hash_hex (msg ts) = OTS.NoDigest.

(** A call that only talks to the outside: it adds to the trace and leaves
    the record store, the files and the directories as it found them. *)
Definition only_logs {A} (c : M A) : Prop :=
  ∀ w, ∃ evs, (c w).2 = extend w evs.



(** Where [save_ots_file] and [save_tsa_file] write. *)
Definition ots_target (files_dir hash : string) : string :=
  path_join (Storage.evidence_dir files_dir hash) (hash +:+ ".ots").

Definition tsa_target (files_dir hash : string) : string :=
  path_join (Storage.evidence_dir files_dir hash) (hash +:+ ".tsr").

(** The library never serializes a proof to no bytes at all. *)
Definition serializes_nonempty (E : Env) : Prop :=
  (∀ op ts out, detached_serialize E op ts = Ok out → out ≠ [])
  ∧ (∀ ts out, timestamp_serialize E ts = Ok out → out ≠ []).

(** A digest text that can name a directory entry: no "/" in it. *)
Definition no_slash (s : string) : bool :=
  negb (byte_in (byte_of_N 47) (list_byte_of_string s)).


(** An entry of [calendar_results] for an upgrade that failed. *)
Definition failed_upgrade (v : Value) : Prop :=
  ∃ d, v = VDict d
       ∧ dict_get d "success" = Some (VBool false)
       ∧ is_Some (dict_get d "error").

(** No calendar answers an upgrade request. *)
Definition calendars_unreachable (E : Env) : Prop :=
  ∀ h uri m, is_ok (calendar_get_timestamp E h uri m) = false.

(** A calendar URL as it can stand in [OTS_CALENDAR_URLS]: not empty, left
    alone by [str_strip], without a comma. *)
Definition plain_url (str_strip : string → string) (u : string) : Prop :=
  u ≠ "" ∧ str_strip u = u ∧ Config.comma ∉ list_byte_of_string u.



(** The claim as the specification words it: for bytes that the strict
    decoder rejects and that are not ASCII text, the error the decoding of
    a token ends with is the one of [_decode_tsa_response]. *)
Definition malformed_binary_surfaced (E : Env) : Prop :=
  ∀ (decoder : bytes → result TimeStampResp) (tsr : bytes),
    decode_timestamp_response E = Some decoder →
    is_ok (decoder tsr) = false →
    is_ascii tsr = false →
    (TSA._extract_tsa_info E tsr).2 = Some TSA.MalformedBinaryToken.

(** An environment with another serializer of detached files. *)
Definition with_detached_serialize (E : Env)
    (serialize : Op → Timestamp → result bytes) : Env :=
  {| settings := settings E;
     load_ots_client := load_ots_client E;
     core_import := core_import E;
     apply_hash := apply_hash E;
     calendar_submit := calendar_submit E;
     calendar_get_timestamp := calendar_get_timestamp E;
     detached_serialize := serialize;
     detached_deserialize := detached_deserialize E;
     timestamp_serialize := timestamp_serialize E;
     timestamp_deserialize := timestamp_deserialize E;
     http_get := http_get E;
     str_format := str_format E;
     str_of_value := str_of_value E;
     str_of_info := str_of_info E;
     decode_utf8_replace := decode_utf8_replace E;
     rfc3161ng_import := rfc3161ng_import E;
     decode_timestamp_response := decode_timestamp_response E;
     get_timestamp := get_timestamp E;
     remote_timestamper := remote_timestamper E;
     der_decode_token := der_decode_token E;
     ber_decode := ber_decode E;
     ber_decode_tstinfo := ber_decode_tstinfo E;
     oid_to_hash := oid_to_hash E;
     b64decode := b64decode E;
     datetime_now := datetime_now E |}.

(** The detached file of the library: [DetachedTimestampFile(OpSHA256(),
    base_ts)] raises unless the message of the tree has the 32 bytes of a
    SHA-256 digest. *)
Definition sha256_serialize (op : Op) (ts : Timestamp) : result bytes :=
  if decide (length (msg ts) = 32%nat) then Ok (x00 :: msg ts)
  else Raise "Timestamp message length and file_hash_op digest length differ".

Definition sha256_env : Env :=
  with_detached_serialize Demo.demo_env sha256_serialize.

(** The claim as the specification words it: for every digest, one
    calendar that answers makes the outcome of the aggregation a
    success. *)
Definition success_with_one_calendar (E : Env) : Prop :=
  ∀ (hash_hex : string) (digest : bytes) (calendars : list string) (w : World),
    core_import E = Ok tt →
    fromhex hash_hex = Some digest →
    calendars ≠ [] →
    (1 ≤ successes
           (outcomes E digest calendars (new_timestamp digest) (trace w)))%nat →
    ∃ res, (OTS._create_ots_with_calendar E hash_hex calendars w).1 = Ok res
           ∧ OTS.success res = true.

(** * Properties *)

(** ** The Python helpers on small inputs *)

Example fromhex_pairs : fromhex "00fF 10" = Some [x00; xff; x10].
Proof. reflexivity. Qed.

Example fromhex_odd : fromhex "abc" = None.
Proof. reflexivity. Qed.

Example fromhex_split_pair : fromhex "a b" = None.
Proof. reflexivity. Qed.

Example hex_fromhex : fromhex (TSA.hex [x00; xff; x10]) = Some [x00; xff; x10].
Proof. reflexivity. Qed.

Example strip_both_ends :
  strip (bytes_of "  QUJD
") = bytes_of "QUJD".
Proof. reflexivity. Qed.

Example splitlines_pem :
  splitlines (bytes_of "-----BEGIN X-----
QUJD
-----END X-----")
  = [bytes_of "-----BEGIN X-----"; bytes_of "QUJD"; bytes_of "-----END X-----"].
Proof. reflexivity. Qed.

Example neg_mod4_values :
  map neg_mod4 [0; 1; 2; 3; 4; 7]%nat = [0; 3; 2; 1; 0; 1]%nat.
Proof. reflexivity. Qed.

Example path_join_plain : path_join "/data/files" "ab" = "/data/files/ab".
Proof. reflexivity. Qed.

Example path_join_absolute : path_join "/data/files" "/etc" = "/etc".
Proof. reflexivity. Qed.

(** A PEM-wrapped token decodes through the base64 of its body. *)
Example decode_pem :
  (TSA._decode_tsa_response Demo.demo_env Demo.demo_decoder
     (bytes_of "-----BEGIN TSR-----
MAMCAQA=
-----END TSR-----")).1 = Ok Demo.demo_tsr.
Proof. vm_compute. reflexivity. Qed.

(** Merging two proofs that share an operation merges below it. *)
Example merge_node_shared_path :
  merge_node
    (MkNode [] [(OpSHA256, MkNode [PendingAttestation "a"] [])])
    (MkNode [] [(OpSHA256, MkNode [BitcoinBlockHeaderAttestation 7] []);
                (OpReverse, MkNode [PendingAttestation "b"] [])])
  = MkNode []
      [(OpSHA256,
        MkNode [PendingAttestation "a"; BitcoinBlockHeaderAttestation 7] []);
       (OpReverse, MkNode [PendingAttestation "b"] [])].
Proof. vm_compute. reflexivity. Qed.

(** ** Traces *)

Lemma extend_nil w : extend w [] = w.
Proof. destruct w; unfold extend; simpl. by rewrite app_nil_r. Qed.

Lemma extend_extend w e1 e2 : extend (extend w e1) e2 = extend w (e1 ++ e2).
Proof. unfold extend; simpl. by rewrite app_assoc. Qed.

Lemma log_extend e w : log e w = extend w [e].
Proof. reflexivity. Qed.

Lemma ask_extend {A} (e : Event) (answer : list Event → A) w :
  ask e answer w = (answer (trace w), extend w [e]).
Proof. reflexivity. Qed.

(** ** Deleting evidence *)

(** C10: for a hash value with no stored record, [delete_evidence] returns
    [False] and leaves the record store, the file store and the trace as
    they were, whatever [keep_files] is. *)
Theorem delete_evidence_absent (files_dir hash : string) (keep_files : bool)
    (w : World) :
  db w !! hash = None →
  Evidence.delete_evidence files_dir hash keep_files w = (false, w).
Proof.
  intros Habsent.
  unfold Evidence.delete_evidence, bind, evidence_repo.fetch_by_hash.
  by rewrite Habsent.
Qed.

Lemma delete_evidence_absent_witness :
  db Demo.stored_world !! "ab" = None ∧
  Evidence.delete_evidence "/data/files" "ab" false Demo.stored_world
  = (false, Demo.stored_world).
Proof.
  split; [reflexivity |].
  apply (delete_evidence_absent "/data/files" "ab" false Demo.stored_world).
  reflexivity.
Defined.

(** ** Creating a proof without calendars *)

(** With the high-level client loaded, [create_ots] never looks at the
    calendar list: it stamps through the client, over the network. *)
Lemma create_ots_client_ignores_calendars :
  ¬ fails_fast_without_calendars Demo.demo_env_client "00ff" Demo.empty_world
  ∧ (let r := OTS.create_ots Demo.demo_env_client "00ff" (Some []) Demo.empty_world in
     OTS.success r.1 = true ∧ trace r.2 = [EvClientStamp [x00; xff]]).
Proof.
  split; [| split; reflexivity].
  unfold fails_fast_without_calendars. intros H.
  apply (f_equal (fun r => OTS.success r.1)) in H.
  vm_compute in H. discriminate H.
Qed.

(** C4 (amended): when the core library can be imported, the calendar
    aggregator given an empty list returns the error "no calendars
    configured" for every digest text and leaves the world, hence the
    trace of network calls, untouched; [create_ots] does the same whenever
    the high-level client is not loaded and the list is empty or absent. *)
Theorem create_ots_no_calendars (E : Env) (hash_hex : string) (w : World) :
  core_import E = Ok tt →
  OTS._create_ots_with_calendar E hash_hex [] w
  = (Ok (OTS.failure "no calendars configured" ∅), w)
  ∧ ∀ calendars,
      load_ots_client E = None →
      default [] calendars = [] →
      OTS.create_ots E hash_hex calendars w
      = (OTS.failure "no calendars configured" ∅, w).
Proof.
  intros Hcore.
  assert (Hagg : OTS._create_ots_with_calendar E hash_hex [] w
                 = (Ok (OTS.failure "no calendars configured" ∅), w)).
  { unfold OTS._create_ots_with_calendar. by rewrite Hcore. }
  split; [exact Hagg |].
  intros calendars Hclient Hempty.
  unfold OTS.create_ots. rewrite Hclient, Hempty.
  unfold bind. by rewrite Hagg.
Qed.

Lemma create_ots_no_calendars_witness :
  OTS._create_ots_with_calendar Demo.demo_env "not hex" [] Demo.stored_world
  = (Ok (OTS.failure "no calendars configured" ∅), Demo.stored_world)
  ∧ OTS.create_ots Demo.demo_env "not hex" None Demo.stored_world
    = (OTS.failure "no calendars configured" ∅, Demo.stored_world).
Proof.
  destruct (create_ots_no_calendars Demo.demo_env "not hex" Demo.stored_world
              eq_refl) as [Hagg Hcreate].
  split; [exact Hagg |].
  apply (Hcreate None); reflexivity.
Defined.

(** ** Aggregation over the calendars *)

Section Aggregation.
Context (E : Env) (digest : bytes).

Lemma outcomes_endpoints calendars base_ts h :
  map fst (outcomes E digest calendars base_ts h) = calendars.
Proof.
  revert base_ts h.
  induction calendars as [| url rest IH]; intros base_ts h; simpl; [done |].
  by rewrite IH.
Qed.

Lemma successes_cons url (r : result Timestamp) outs :
  successes ((url, r) :: outs)
  = ((if is_ok r then 1 else 0) + successes outs)%nat.
Proof.
  unfold successes. rewrite filter_cons.
  destruct r; simpl; done.
Qed.

Lemma error_strings_cons url (r : result Timestamp) outs :
  error_strings ((url, r) :: outs)
  = match r with
    | Raise m => (url +:+ ": " +:+ m) :: error_strings outs
    | Ok _ => error_strings outs
    end.
Proof. unfold error_strings. simpl. by destruct r. Qed.

Lemma outcomes_split calendars base_ts h :
  (length (error_strings (outcomes E digest calendars base_ts h))
   + successes (outcomes E digest calendars base_ts h))%nat
  = length calendars.
Proof.
  revert base_ts h.
  induction calendars as [| url rest IH]; intros base_ts h; [done |].
  simpl outcomes. rewrite successes_cons, error_strings_cons.
  destruct (endpoint_outcome E h base_ts url digest) as [merged | m]; simpl.
  - rewrite <- (IH merged (h ++ [EvCalendarSubmit url digest])). lia.
  - rewrite <- (IH base_ts (h ++ [EvCalendarSubmit url digest])). lia.
Qed.

(** The loop computes what the outcomes say, and asks every calendar. *)
Lemma submit_loop_spec calendars :
  ∀ base_ts errors success_count w,
    OTS.submit_loop E digest calendars base_ts errors success_count w
    = let outs := outcomes E digest calendars base_ts (trace w) in
      ((merged_tree base_ts outs,
        errors ++ error_strings outs,
        (success_count + successes outs)%nat),
       extend w (submissions digest calendars)).
Proof.
  induction calendars as [| url rest IH]; intros base_ts errors cnt w.
  - simpl. unfold ret, error_strings, successes. simpl.
    by rewrite app_nil_r, Nat.add_0_r, extend_nil.
  - simpl OTS.submit_loop. unfold bind. rewrite ask_extend.
    cbv zeta. simpl outcomes.
    rewrite successes_cons, error_strings_cons.
    unfold endpoint_outcome.
    destruct (calendar_submit E (trace w) url digest) as [cal_ts | m].
    + destruct (merge base_ts cal_ts) as [merged | m].
      * rewrite IH. cbv zeta. simpl.
        rewrite extend_extend. simpl. do 3 f_equal. lia.
      * rewrite IH. cbv zeta. simpl.
        rewrite extend_extend, <- app_assoc. simpl. done.
    + rewrite IH. cbv zeta. simpl.
      rewrite extend_extend, <- app_assoc. simpl. done.
Qed.

End Aggregation.

(** C3, counterexample: the digest "00ff" has two bytes.  Of the three
    calendars two answer, and the aggregator then raises when it builds the
    detached file for SHA-256: there is no success although [k = 2]. *)
Lemma aggregation_short_digest_raises :
  ¬ success_with_one_calendar sha256_env.
Proof.
  intros H.
  destruct (H "00ff" [x00; xff]
              [Demo.calendar_a; Demo.calendar_down; Demo.calendar_b]
              Demo.empty_world) as (res & Hres & _).
  - reflexivity.
  - reflexivity.
  - discriminate.
  - vm_compute. lia.
  - vm_compute in Hres. discriminate.
Qed.

(** C3, amended: for a digest and a non-empty list of [N] calendars, the
    aggregator submits to every calendar, in order, whatever the others
    answered.  With no success it returns the failure "all calendars
    failed" carrying all [N] error strings "endpoint: message" in endpoint
    order.  With [k >= 1] successes it builds the detached file of the
    merged tree: when the library serialises it, the result is a success
    carrying [k] and the [N - k] error strings of the failed calendars in
    endpoint order; when the library raises, as it does for a digest that
    is not of 32 bytes, the exception leaves the aggregator and [create_ots]
    answers with the failure of that message.  Whenever the aggregator
    returns, it reports success exactly when a calendar succeeded. *)
Theorem aggregation_outcome (E : Env) (hash_hex : string) (digest : bytes)
    (calendars : list string) (w : World) :
  core_import E = Ok tt →
  fromhex hash_hex = Some digest →
  calendars ≠ [] →
  let outs := outcomes E digest calendars (new_timestamp digest) (trace w) in
  let k := successes outs in
  let errs := error_strings outs in
  let run := OTS._create_ots_with_calendar E hash_hex calendars w in
  run.2 = extend w (submissions digest calendars)
  ∧ map fst outs = calendars
  ∧ length errs = (length calendars - k)%nat
  ∧ (k = 0%nat →
     run.1 = Ok (OTS.failure "all calendars failed"
                   {["errors" := VList (map VStr errs)]})
     ∧ length errs = length calendars)
  ∧ ((1 ≤ k)%nat →
     match detached_serialize E OpSHA256
             (merged_tree (new_timestamp digest) outs) with
     | Ok out =>
         run.1 = Ok {| OTS.success := true; OTS.error := None;
                       OTS.info :=
                         <["calendar_success" := VInt (Z.of_nat k)]>
                           {["calendar_errors" := VList (map VStr errs)]};
                       OTS.ots_bytes := Some out;
                       OTS.updated_ots_bytes := None |}
     | Raise m =>
         run.1 = Raise m
         ∧ (load_ots_client E = None →
            (OTS.create_ots E hash_hex (Some calendars) w).1 = OTS.failure m ∅)
     end)
  ∧ (∀ res, run.1 = Ok res → (OTS.success res = true ↔ (1 ≤ k)%nat)).
Proof.
  intros Hcore Hhex Hne outs k errs run.
  assert (Hlen : length errs = (length calendars - k)%nat).
  { pose proof (outcomes_split E digest calendars (new_timestamp digest) (trace w)).
    fold outs in H. fold errs in H. fold k in H. lia. }
  assert (Hrun : run =
    (if decide (k = 0%nat) then
       Ok (OTS.failure "all calendars failed" {["errors" := VList (map VStr errs)]})
     else
       match detached_serialize E OpSHA256 (merged_tree (new_timestamp digest) outs) with
       | Raise m => Raise m
       | Ok out =>
           Ok {| OTS.success := true; OTS.error := None;
                 OTS.info := <["calendar_success" := VInt (Z.of_nat k)]>
                               {["calendar_errors" := VList (map VStr errs)]};
                 OTS.ots_bytes := Some out; OTS.updated_ots_bytes := None |}
       end,
     extend w (submissions digest calendars))).
  { unfold run, OTS._create_ots_with_calendar. rewrite Hcore, Hhex.
    destruct calendars as [| url rest]; [done |].
    unfold bind. rewrite submit_loop_spec. cbv zeta.
    fold outs. fold k. fold errs. simpl.
    destruct (decide (k = 0%nat)); [done |].
    by destruct (detached_serialize E OpSHA256 _). }
  split; [by rewrite Hrun |].
  split; [apply outcomes_endpoints |].
  split; [exact Hlen |].
  split; [| split].
  - intros Hk. rewrite Hrun. simpl. rewrite decide_True by done.
    split; [done | lia].
  - intros Hk.
    assert (Hcreate : load_ots_client E = None →
              (OTS.create_ots E hash_hex (Some calendars) w).1
              = match run.1 with
                | Ok res => res
                | Raise m => OTS.failure m ∅
                end).
    { intros Hclient. unfold OTS.create_ots, bind. rewrite Hclient.
      simpl. fold run. by destruct run as [[res | m] w']. }
    rewrite Hrun in Hcreate |- *. simpl in Hcreate |- *.
    rewrite decide_False in Hcreate |- * by lia.
    destruct (detached_serialize E OpSHA256 _) as [out | m]; done.
  - intros res. rewrite Hrun. simpl.
    destruct (decide (k = 0%nat)) as [Hk | Hk].
    + intros [= <-]. simpl. split; [done | lia].
    + destruct (detached_serialize E OpSHA256 _) as [out | m]; [| done].
      intros [= <-]. simpl. split; [lia | done].
Qed.

Lemma aggregation_outcome_witness :
  ∃ out,
    (OTS._create_ots_with_calendar sha256_env Demo.digest32_hex
       [Demo.calendar_a; Demo.calendar_down; Demo.calendar_b]
       Demo.empty_world).1
    = Ok {| OTS.success := true; OTS.error := None;
            OTS.info :=
              <["calendar_success" := VInt 2]>
                {["calendar_errors" :=
                    VList [VStr "https://down.example: connection refused"]]};
            OTS.ots_bytes := Some out;
            OTS.updated_ots_bytes := None |}.
Proof.
  destruct (aggregation_outcome sha256_env Demo.digest32_hex Demo.digest32
              [Demo.calendar_a; Demo.calendar_down; Demo.calendar_b]
              Demo.empty_world eq_refl ltac:(by vm_compute)
              ltac:(discriminate))
    as (_ & _ & _ & _ & Hpos & _).
  assert (Hk : (1 ≤ successes
                  (outcomes sha256_env Demo.digest32
                     [Demo.calendar_a; Demo.calendar_down; Demo.calendar_b]
                     (new_timestamp Demo.digest32)
                     (trace Demo.empty_world)))%nat)
    by (vm_compute; lia).
  specialize (Hpos Hk).
  exists (x00 :: Demo.digest32). exact Hpos.
Defined.

(** ** Resolving block hashes *)

Section Resolver.
Context (E : Env).

Lemma lookup_block_hash_trace chain height w :
  (OTS._lookup_block_hash E chain height w).2
  = extend w (lookup_events E (chain, height)).
Proof.
  unfold OTS._lookup_block_hash, lookup_events, lookup_requests,
    api_template_of. simpl.
  rewrite log_extend.
  destruct (String.eqb chain "bitcoin");
    [| destruct (String.eqb chain "litecoin"); [| done]].
  all: match goal with
       | |- context [str_truthy ?t] => destruct (str_truthy t); simpl; [| done]
       end.
  all: repeat case_match; simpl; rewrite ?log_extend, ?extend_extend; done.
Qed.

Lemma count_events_app p l1 l2 :
  count_events p (l1 ++ l2) = (count_events p l1 + count_events p l2)%nat.
Proof. unfold count_events. by rewrite filter_app, length_app. Qed.

Lemma lookup_events_lookups key :
  count_events is_block_hash_lookup (lookup_events E key) = 1%nat.
Proof.
  unfold lookup_events, lookup_requests.
  destruct (api_template_of E key.1) as [t |]; [destruct (str_truthy t) |];
    reflexivity.
Qed.

Lemma anchor_keys_cons m att rest :
  anchor_keys ((m, att) :: rest)
  = match OTS.chain_of att with
    | Some key => key :: anchor_keys rest
    | None => anchor_keys rest
    end.
Proof. unfold anchor_keys. simpl. by destruct (OTS.chain_of att). Qed.

(** The loop looks up exactly the pairs it meets for the first time. *)
Lemma collect_loop_trace atts :
  ∀ proofs seen cache w,
    dom cache ⊆ seen →
    let run := OTS.collect_loop E atts proofs seen cache w in
    run.2 = extend w (flat_map (lookup_events E)
                        (fresh_keys (anchor_keys atts) seen))
    ∧ length run.1
      = (length proofs + length (fresh_keys (anchor_keys atts) seen))%nat.
Proof.
  induction atts as [| [m att] rest IH]; intros proofs seen cache w Hdom.
  - simpl. by rewrite extend_nil, Nat.add_0_r.
  - rewrite anchor_keys_cons. simpl OTS.collect_loop.
    destruct (OTS.chain_of att) as [[chain height] |] eqn:Hchain.
    2: { by apply IH. }
    simpl fresh_keys.
    destruct (decide ((chain, height) ∈ seen)) as [Hin | Hnotin].
    + by apply IH.
    + assert (Hmiss : cache !! (chain, height) = None).
      { apply not_elem_of_dom. set_solver. }
      unfold bind. rewrite Hmiss.
      destruct (OTS._lookup_block_hash E chain height w)
        as [[block_hash hash_error] w'] eqn:Hlookup.
      pose proof (lookup_block_hash_trace chain height w) as Hw'.
      rewrite Hlookup in Hw'. simpl in Hw'. subst w'.
      unfold ret. cbv zeta.
      match goal with
      | |- context [OTS.collect_loop E rest ?p ?s ?c ?w0] =>
          destruct (IH p s c w0) as [Htrace Hlen]
      end.
      { rewrite dom_insert. set_solver. }
      rewrite Htrace, Hlen. rewrite extend_extend.
      rewrite length_app. simpl length. simpl flat_map.
      split; [done | lia].
Qed.

Lemma fresh_keys_size keys :
  ∀ seen : gset (string * Z),
    length (fresh_keys keys seen) = size (list_to_set keys ∖ seen : gset _).
Proof.
  induction keys as [| k rest IH]; intros seen; simpl.
  - replace (∅ ∖ seen) with (∅ : gset (string * Z)) by set_solver.
    by rewrite size_empty.
  - destruct (decide (k ∈ seen)) as [Hin | Hnotin].
    + rewrite IH. f_equal. set_solver.
    + simpl. rewrite IH.
      replace (({[k]} ∪ list_to_set rest) ∖ seen)
        with ({[k]} ∪ (list_to_set rest ∖ ({[k]} ∪ seen)) : gset (string * Z)).
      * rewrite (size_union (C:=gset (string * Z)) {[k]}
                   (list_to_set rest ∖ ({[k]} ∪ seen))) by set_solver.
        by rewrite size_singleton.
      * apply set_eq. intros x. rewrite !elem_of_union, !elem_of_difference,
          !elem_of_union, !elem_of_singleton.
        destruct (decide (x = k)) as [-> |]; naive_solver.
Qed.

Lemma count_lookups_flat_map keys :
  count_events is_block_hash_lookup (flat_map (lookup_events E) keys)
  = length keys.
Proof.
  induction keys as [| k rest IH]; [done |].
  change (flat_map (lookup_events E) (k :: rest))
    with (lookup_events E k ++ flat_map (lookup_events E) rest).
  rewrite count_events_app, lookup_events_lookups, IH. done.
Qed.

Lemma anchor_keys_supported atts key :
  key ∈ anchor_keys atts → key.1 = "bitcoin" ∨ key.1 = "litecoin".
Proof.
  unfold anchor_keys. rewrite list_elem_of_omap.
  intros ([m att] & _ & Hchain). simpl in Hchain.
  destruct att; simpl in Hchain; simplify_eq; simpl; auto.
Qed.

Lemma fresh_keys_subset keys :
  ∀ seen key, key ∈ fresh_keys keys seen → key ∈ keys.
Proof.
  induction keys as [| k rest IH]; intros seen key; simpl; [done |].
  destruct (decide (k ∈ seen)).
  - intros H. right. by eapply IH.
  - rewrite elem_of_cons. intros [-> | H]; [left | right; by eapply IH].
Qed.

Lemma count_requests_flat_map keys :
  str_truthy (btc_block_hash_api (settings E)) = true →
  str_truthy (ltc_block_hash_api (settings E)) = true →
  (∀ key, key ∈ keys → key.1 = "bitcoin" ∨ key.1 = "litecoin") →
  count_events is_http_get (flat_map (lookup_events E) keys) = length keys.
Proof.
  intros Hbtc Hltc.
  induction keys as [| k rest IH]; intros Hkeys; [done |].
  change (flat_map (lookup_events E) (k :: rest))
    with (lookup_events E k ++ flat_map (lookup_events E) rest).
  rewrite count_events_app, IH.
  2: { intros key Hkey. apply Hkeys. by right. }
  simpl. f_equal.
  unfold lookup_events, lookup_requests, api_template_of.
  destruct k as [chain height].
  destruct (Hkeys (chain, height) ltac:(left)) as [Hc | Hc];
    simpl in Hc; subst chain; simpl.
  - by rewrite Hbtc.
  - by rewrite Hltc.
Qed.

End Resolver.

(** C7: in one resolution pass over a proof tree the resolver performs one
    block-hash lookup per distinct (chain, height) pair among the anchors
    of the tree, and reports one entry per pair; when both lookup APIs are
    configured these are as many HTTP requests.  Two anchors at the same
    pair, such as (bitcoin, 800000), cost one lookup. *)
Theorem block_hash_lookups_per_distinct_anchor (E : Env) (ts : Timestamp)
    (w : World) :
  core_import E = Ok tt →
  ∃ evs,
    (OTS._collect_blockchain_proofs E ts w).2 = extend w evs
    ∧ count_events is_block_hash_lookup evs = size (distinct_anchors E ts)
    ∧ length (OTS._collect_blockchain_proofs E ts w).1
      = size (distinct_anchors E ts)
    ∧ (str_truthy (btc_block_hash_api (settings E)) = true →
       str_truthy (ltc_block_hash_api (settings E)) = true →
       count_events is_http_get evs = size (distinct_anchors E ts)).
Proof.
  intros Hcore.
  unfold OTS._collect_blockchain_proofs. rewrite Hcore.
  set (keys := anchor_keys (OTS.all_attestations E ts)).
  destruct (collect_loop_trace E (OTS.all_attestations E ts) [] ∅ ∅ w)
    as [Htrace Hlen]; [set_solver |].
  fold keys in Htrace, Hlen.
  assert (Hsize : length (fresh_keys keys ∅) = size (distinct_anchors E ts)).
  { rewrite fresh_keys_size. unfold distinct_anchors. fold keys.
    f_equal. set_solver. }
  exists (flat_map (lookup_events E) (fresh_keys keys ∅)).
  split; [exact Htrace |].
  split; [by rewrite count_lookups_flat_map |].
  split; [by rewrite Hlen |].
  intros Hbtc Hltc. rewrite count_requests_flat_map; try done.
  intros key Hkey. eapply anchor_keys_supported, fresh_keys_subset, Hkey.
Qed.

Lemma block_hash_lookups_per_distinct_anchor_witness :
  let run :=
    OTS._collect_blockchain_proofs Demo.demo_env two_anchor_tree
      Demo.empty_world in
  count_events is_block_hash_lookup (trace run.2) = 1%nat
  ∧ length run.1 = 1%nat.
Proof.
  destruct (block_hash_lookups_per_distinct_anchor Demo.demo_env
              two_anchor_tree Demo.empty_world eq_refl)
    as (evs & Htrace & Hlookups & Hlen & _).
  cbv zeta. rewrite Htrace, Hlen. simpl trace. rewrite Hlookups.
  split; vm_compute; reflexivity.
Defined.

(** ** Decoding a signed token *)

Section Decoding.
Context (E : Env) (decoder : bytes → result TimeStampResp).

Lemma decode_strict_failed tsr :
  is_ok (decoder tsr) = false → ∃ m, decoder tsr = Raise m.
Proof. destruct (decoder tsr) as [r | m]; [done | by exists m]. Qed.

Lemma neg_mod4_lt n : (neg_mod4 n < 4)%nat.
Proof.
  unfold neg_mod4.
  pose proof (Z.mod_pos_bound (- Z.of_nat n) 4 ltac:(lia)). lia.
Qed.

Lemma neg_mod4_multiple n : ((n + neg_mod4 n) mod 4 = 0)%nat.
Proof.
  unfold neg_mod4.
  pose proof (Z.mod_pos_bound (- Z.of_nat n) 4 ltac:(lia)) as Hb.
  pose proof (Z.div_mod (- Z.of_nat n) 4 ltac:(lia)) as Hd.
  set (q := (- Z.of_nat n) `div` 4) in *.
  set (r := (- Z.of_nat n) `mod` 4) in *.
  assert (Hn : (n + Z.to_nat r)%nat = (Z.to_nat (- q) * 4)%nat) by lia.
  rewrite Hn. apply Nat.Div0.mod_mul.
Qed.

Lemma neg_mod4_aligned n : (n mod 4 = 0)%nat → neg_mod4 n = 0%nat.
Proof.
  intros Hn. unfold neg_mod4.
  pose proof (Nat.div_mod_eq n 4) as Hd. rewrite Hn in Hd.
  replace (- Z.of_nat n) with ((- Z.of_nat (n / 4)) * 4) by lia.
  by rewrite Z.mod_mul by lia.
Qed.

Lemma pad4_length x : (length (TSA.pad4 x) mod 4 = 0)%nat.
Proof.
  unfold TSA.pad4. rewrite length_app, length_replicate.
  apply neg_mod4_multiple.
Qed.

Lemma outside_alphabet (text : bytes) :
  existsb (fun ch => negb (byte_in ch TSA.allowed)) text = true
  ↔ ∃ ch, ch ∈ text ∧ ch ∉ TSA.allowed.
Proof.
  rewrite existsb_exists. split.
  - intros (ch & Hin & Hout). exists ch. split; [by apply list_elem_of_In |].
    unfold byte_in in Hout. apply negb_true_iff in Hout.
    by apply bool_decide_eq_false in Hout.
  - intros (ch & Hin & Hout). exists ch. split; [by apply list_elem_of_In |].
    unfold byte_in. apply negb_true_iff. by apply bool_decide_eq_false.
Qed.

End Decoding.

(** What the caller makes of that error: [_extract_tsa_info] catches it
    and hands the same bytes to the parser of bare tokens. *)
Lemma extract_tsa_info_after_malformed (E : Env)
    (decoder : bytes → result TimeStampResp) (tsr : bytes) :
  rfc3161ng_import E = Ok tt →
  decode_timestamp_response E = Some decoder →
  is_ok (decoder tsr) = false →
  is_ascii tsr = false →
  TSA._extract_tsa_info E tsr
  = match get_timestamp E with
    | Some token_parser =>
        match token_parser tsr with
        | Ok timestamp =>
            (<["format" := VStr "tst"]> (<["time" := VStr timestamp]> ∅), None)
        | Raise m => (∅, Some ("invalid tsa response: " +:+ m))
        end
    | None => (∅, Some "invalid tsa response: decoder unavailable")
    end.
Proof.
  intros Himport Hdecoder Hstrict Hbinary.
  destruct (decode_strict_failed decoder tsr Hstrict) as [m Hm].
  unfold TSA._extract_tsa_info, TSA._decode_tsa_response.
  by rewrite Himport, Hdecoder, Hm, Hbinary.
Qed.

(** The comparison of imprints has its own errors. *)
Lemma check_tsa_hash_not_malformed (E : Env) (tsr : bytes) (hash_hex : string) :
  TSA._check_tsa_hash E tsr hash_hex ≠ Some TSA.MalformedBinaryToken.
Proof.
  unfold TSA._check_tsa_hash.
  destruct (fromhex hash_hex) as [digest |]; [| done].
  destruct (TSA._extract_tst_token E tsr) as [tst |]; [| done].
  destruct (TSA._extract_message_imprint E tst) as [[imprint |] debug_info];
    [| done].
  destruct (decide (imprint ≠ digest)); [| done].
  simpl. intros [= Heq].
Qed.

(** C2, counterexample: for 200 bytes of 0xff, which the strict decoder
    rejects and which are not ASCII, the error [_extract_tsa_info] answers
    with is that of the parser of bare tokens, "invalid tsa response: not
    a TimeStampToken", not the one of [_decode_tsa_response]. *)
Lemma extract_tsa_info_surfaces_parser_error :
  ¬ malformed_binary_surfaced Demo.demo_env.
Proof.
  intros H.
  specialize (H Demo.demo_decoder (replicate 200 xff) eq_refl eq_refl eq_refl).
  vm_compute in H. discriminate.
Qed.

(** C2, amended: a byte string that the strict decoder rejects and that is
    not ASCII text makes [_decode_tsa_response] raise "tsa response is
    binary but not RFC3161 TimeStampResp"; the strict decoder was the only
    library call it made, so neither the PEM nor the base64 path was tried.
    Its caller [_extract_tsa_info] catches this error and hands the same
    bytes to the parser of bare tokens: when the parser accepts them the
    decoding succeeds with the format "tst", and otherwise the error
    surfaced, also by [verify_tsa], is "invalid tsa response: " followed by
    the parser's message (or "decoder unavailable" without a parser), never
    the error of [_decode_tsa_response]. *)
Theorem decode_malformed_binary (E : Env)
    (decoder : bytes → result TimeStampResp) (tsr : bytes) :
  is_ok (decoder tsr) = false →
  is_ascii tsr = false →
  (TSA._decode_tsa_response E decoder tsr
   = (Raise TSA.MalformedBinaryToken, [TSA.CallDecoder tsr])
   ∧ TSA.MalformedBinaryToken
     = "tsa response is binary but not RFC3161 TimeStampResp")
  ∧ (rfc3161ng_import E = Ok tt →
     decode_timestamp_response E = Some decoder →
     TSA._extract_tsa_info E tsr
     = match get_timestamp E with
       | Some token_parser =>
           match token_parser tsr with
           | Ok timestamp =>
               (<["format" := VStr "tst"]> (<["time" := VStr timestamp]> ∅),
                None)
           | Raise m => (∅, Some ("invalid tsa response: " +:+ m))
           end
       | None => (∅, Some "invalid tsa response: decoder unavailable")
       end
     ∧ (TSA._extract_tsa_info E tsr).2 ≠ Some TSA.MalformedBinaryToken
     ∧ ∀ hash_hex,
         TSA.error (TSA.verify_tsa E tsr hash_hex)
         ≠ Some TSA.MalformedBinaryToken
         ∧ ((TSA._extract_tsa_info E tsr).2 ≠ None →
            TSA.success (TSA.verify_tsa E tsr hash_hex) = false
            ∧ TSA.error (TSA.verify_tsa E tsr hash_hex)
              = (TSA._extract_tsa_info E tsr).2)).
Proof.
  intros Hstrict Hbinary. split.
  { split; [| reflexivity].
    destruct (decode_strict_failed decoder tsr Hstrict) as [m Hm].
    unfold TSA._decode_tsa_response. by rewrite Hm, Hbinary. }
  intros Himport Hdecoder.
  pose proof (extract_tsa_info_after_malformed E decoder tsr Himport Hdecoder
                Hstrict Hbinary) as Hinfo.
  split; [exact Hinfo |].
  assert (Herr : (TSA._extract_tsa_info E tsr).2 = None
                 ∨ ∃ m, (TSA._extract_tsa_info E tsr).2
                        = Some ("invalid tsa response: " +:+ m)).
  { rewrite Hinfo. destruct (get_timestamp E) as [token_parser |].
    - destruct (token_parser tsr) as [timestamp | m]; [by left |].
      right. by exists m.
    - right. by exists "decoder unavailable". }
  split.
  { destruct Herr as [-> | [m ->]]; [done |]. intros [= Heq]. }
  intros hash_hex. unfold TSA.verify_tsa. rewrite Himport.
  destruct (TSA._extract_tsa_info E tsr) as [info error]. simpl in Herr |- *.
  destruct Herr as [-> | [m ->]].
  - split; [| done]. simpl.
    destruct (TSA.opt_str_truthy hash_hex); [| done].
    pose proof (check_tsa_hash_not_malformed E tsr (default "" hash_hex))
      as Hown.
    destruct (TSA._check_tsa_hash E tsr (default "" hash_hex)) as [e |];
      [| done].
    by destruct (TSA.opt_str_truthy (Some e)).
  - simpl. split; [by intros [= Heq] | done].
Qed.

Lemma decode_malformed_binary_witness :
  TSA._decode_tsa_response Demo.demo_env Demo.demo_decoder (replicate 200 xff)
  = (Raise "tsa response is binary but not RFC3161 TimeStampResp",
     [TSA.CallDecoder (replicate 200 xff)])
  ∧ TSA._extract_tsa_info Demo.demo_env (replicate 200 xff)
    = (∅, Some "invalid tsa response: not a TimeStampToken").
Proof.
  destruct (decode_malformed_binary Demo.demo_env Demo.demo_decoder
              (replicate 200 xff) eq_refl eq_refl) as [[Hraise _] Hcaller].
  split; [exact Hraise |].
  destruct (Hcaller eq_refl eq_refl) as [Hinfo _]. exact Hinfo.
Defined.

(** C8: in the bare-base64 step (strict decoding failed, the bytes are
    ASCII and not PEM), with [text] the stripped input without line breaks:
    a character outside the allowed alphabet makes the decoding raise "tsa
    response is not base64 or ASN.1 data" before any base64 call; otherwise
    [text] is padded with '=' to a multiple of four characters (left as it
    is when already one), the padded text is what is base64-decoded, and
    when it decodes to bytes the strict decoder accepts, the decoding
    succeeds with that token. *)
Theorem bare_base64_step (E : Env) (decoder : bytes → result TimeStampResp)
    (tsr : bytes) :
  is_ok (decoder tsr) = false →
  is_ascii tsr = true →
  startswith (strip tsr) (bytes_of "-----BEGIN") = false →
  let text := TSA.b64_text_of tsr in
  let run := TSA._decode_tsa_response E decoder tsr in
  ((∃ ch, ch ∈ text ∧ ch ∉ TSA.allowed) →
   run = (Raise TSA.InvalidBase64Alphabet, [TSA.CallDecoder tsr])
   ∧ TSA.InvalidBase64Alphabet = "tsa response is not base64 or ASN.1 data")
  ∧ ((∀ ch, ch ∈ text → ch ∈ TSA.allowed) →
     (length (TSA.pad4 text) mod 4 = 0)%nat
     ∧ (∃ n, (n < 4)%nat ∧ TSA.pad4 text = text ++ replicate n (byte_of_N 61))
     ∧ ((length text mod 4 = 0)%nat → TSA.pad4 text = text)
     ∧ (∃ calls,
          run.2 = TSA.CallDecoder tsr
                  :: TSA.CallB64decode true (TSA.pad4 text) :: calls)
     ∧ ∀ raw r,
         b64decode E true (TSA.pad4 text) = Ok raw →
         decoder raw = Ok r →
         run.1 = Ok r).
Proof.
  intros Hstrict Hascii Hpem text run.
  destruct (decode_strict_failed decoder tsr Hstrict) as [m Hm].
  assert (Hrun : run =
    if existsb (fun ch => negb (byte_in ch TSA.allowed)) text then
      (Raise TSA.InvalidBase64Alphabet, [TSA.CallDecoder tsr])
    else
      match TSA.decode_b64 E decoder true (TSA.pad4 text) with
      | (Ok r, calls) => (Ok r, TSA.CallDecoder tsr :: calls)
      | (Raise _, calls) =>
          let '(r, calls') := TSA.decode_b64 E decoder false (TSA.pad4 text) in
          (r, TSA.CallDecoder tsr :: calls ++ calls')
      end).
  { unfold run, TSA._decode_tsa_response. rewrite Hm, Hascii, Hpem. simpl.
    reflexivity. }
  split.
  - intros Hout. apply outside_alphabet in Hout.
    rewrite Hrun, Hout. done.
  - intros Hin.
    assert (Hnone : existsb (fun ch => negb (byte_in ch TSA.allowed)) text = false).
    { apply not_true_is_false. intros Hex. apply outside_alphabet in Hex.
      destruct Hex as (ch & Hch & Hout). by apply Hout, Hin. }
    rewrite Hrun, Hnone.
    split; [apply pad4_length |].
    split; [exists (neg_mod4 (length text)); split; [apply neg_mod4_lt | done] |].
    split.
    { intros Haligned. unfold TSA.pad4. rewrite neg_mod4_aligned by done.
      simpl. by rewrite app_nil_r. }
    split.
    + unfold TSA.decode_b64.
      destruct (b64decode E true (TSA.pad4 text)) as [raw | e].
      * destruct (decoder raw) as [r | e]; [by eexists |].
        destruct (b64decode E false (TSA.pad4 text)) as [raw' | e'];
          by eexists.
      * destruct (b64decode E false (TSA.pad4 text)) as [raw' | e'];
          by eexists.
    + intros raw r Hraw Hr. unfold TSA.decode_b64. by rewrite Hraw, Hr.
Qed.

Lemma bare_base64_step_witness :
  TSA._decode_tsa_response Demo.demo_env Demo.demo_decoder (bytes_of "MAMC*QA")
  = (Raise "tsa response is not base64 or ASN.1 data",
     [TSA.CallDecoder (bytes_of "MAMC*QA")])
  ∧ (TSA._decode_tsa_response Demo.demo_env Demo.demo_decoder
       Demo.demo_b64_unpadded).1 = Ok Demo.demo_tsr.
Proof.
  split.
  - destruct (bare_base64_step Demo.demo_env Demo.demo_decoder
                (bytes_of "MAMC*QA") eq_refl eq_refl eq_refl) as [Hbad _].
    apply Hbad. exists (byte_of_N 42). split.
    + apply (proj1 (bool_decide_eq_true _)). vm_compute. reflexivity.
    + apply (proj1 (bool_decide_eq_false _)). vm_compute. reflexivity.
  - destruct (bare_base64_step Demo.demo_env Demo.demo_decoder
                Demo.demo_b64_unpadded eq_refl eq_refl eq_refl)
      as [_ Hgood].
    destruct Hgood as (_ & _ & _ & _ & Hok).
    + apply Forall_forall.
      apply (proj1 (bool_decide_eq_true (Forall _ _))). vm_compute. reflexivity.
    + apply (Hok Demo.demo_der); reflexivity.
Defined.

(** ** Comparing digests *)

Section Digests.
Context (E : Env).

Lemma str_truthy_nonempty (s : string) : s ≠ "" → str_truthy s = true.
Proof.
  intros Hs. unfold str_truthy. apply negb_true_iff.
  by apply String.eqb_neq.
Qed.

(** The comparison of [verify_ots] is equality of the whole byte strings. *)
Lemma check_hash_spec (hash_hex : string) (expected m : bytes) :
  hash_hex ≠ "" →
  fromhex hash_hex = Some expected →
  (OTS.check_hash (Some hash_hex) m = OTS.Match ↔ m = expected)
  ∧ (OTS.check_hash (Some hash_hex) m = OTS.Mismatch ↔ m ≠ expected).
Proof.
  intros Hs Hhex. unfold OTS.check_hash. simpl.
  rewrite (str_truthy_nonempty _ Hs), Hhex.
  destruct (decide (m ≠ expected)) as [Hne | Heq].
  - split; split; try done.
  - apply dec_stable in Heq. split; split; try done.
Qed.

(** [_check_tsa_hash] accepts exactly the tokens whose imprint is the
    expected digest, byte for byte. *)
Lemma check_tsa_hash_accepts (tsr : bytes) (hash_hex : string)
    (expected : bytes) :
  fromhex hash_hex = Some expected →
  TSA._check_tsa_hash E tsr hash_hex = None
  ↔ ∃ tst, TSA._extract_tst_token E tsr = Some tst
           ∧ (TSA._extract_message_imprint E tst).1 = Some expected.
Proof.
  intros Hhex. unfold TSA._check_tsa_hash. rewrite Hhex.
  destruct (TSA._extract_tst_token E tsr) as [tst |].
  2: { split; [done | intros (tst' & Htst & _); done]. }
  destruct (TSA._extract_message_imprint E tst) as [[imprint |] debug_info]
    eqn:Himp.
  - destruct (decide (imprint ≠ expected)) as [Hne | Heq].
    + split; [done |]. intros (tst' & [= <-] & Himp').
      rewrite Himp in Himp'. simpl in Himp'. congruence.
    + apply dec_stable in Heq. subst imprint. split; [| done].
      intros _. exists tst. by rewrite Himp.
  - split; [done |]. intros (tst' & [= <-] & Himp').
    rewrite Himp in Himp'. done.
Qed.

(** A token whose imprint differs from the expected digest is reported
    as a hash mismatch. *)
Lemma check_tsa_hash_mismatch (tsr : bytes) (hash_hex : string)
    (expected imprint : bytes) (tst : TimeStampToken) :
  fromhex hash_hex = Some expected →
  TSA._extract_tst_token E tsr = Some tst →
  (TSA._extract_message_imprint E tst).1 = Some imprint →
  imprint ≠ expected →
  TSA._check_tsa_hash E tsr hash_hex
  = Some ("hash mismatch: digest not equal ("
            +:+ str_of_info E (TSA._extract_message_imprint E tst).2 +:+ ")").
Proof.
  intros Hhex Htst Himp Hne. unfold TSA._check_tsa_hash.
  rewrite Hhex, Htst.
  destruct (TSA._extract_message_imprint E tst) as [imp debug_info].
  simpl in Himp. subst imp. simpl. by rewrite decide_True.
Qed.

(** A proof that does not decode yields an empty [info]. *)
Lemma verify_ots_decode_failure (ots_bytes : bytes) (hash_hex : option string)
    (w : World) (m : string) :
  decoded_proof E ots_bytes = Raise m →
  let r := (OTS.verify_ots E ots_bytes hash_hex w).1 in
  OTS.success r = false ∧ OTS.info r = ∅.
Proof.
  unfold decoded_proof, OTS.verify_ots.
  destruct (load_ots_client E) as [client |].
  - intros ->. done.
  - destruct (core_import E) as [[] | e]; [| done].
    destruct (detached_deserialize E ots_bytes) as [[op ts] | e]; done.
Qed.

End Digests.

(** C1, counterexample: with a high-level client whose [verify] raises,
    a proof made for another digest than the supplied one is answered with
    the text of the exception and an empty info, not with "hash mismatch":
    the client is called before the digests are compared. *)
Lemma verify_ots_client_raises_before_comparison :
  ¬ mismatch_always_reported rejecting_env.
Proof.
  intros H.
  destruct (H (x01 :: Demo.digest32) "00ff" [x00; xff]
              {| msg := Demo.digest32;
                 node := MkNode [BitcoinBlockHeaderAttestation 800000] [] |}
              Demo.empty_world) as (_ & Herror & _).
  - reflexivity.
  - discriminate.
  - reflexivity.
  - apply (proj1 (bool_decide_eq_false _)). vm_compute. reflexivity.
  - vm_compute in Herror. discriminate.
Qed.

(** C1, amended: a proof that decodes to a tree whose digest differs from
    the supplied one is answered with [success = False], the error "hash
    mismatch" and [hash_match = False] in the info, whatever attestations
    the tree carries, on the path of the core library always, and with the
    high-level client loaded whenever the client's [verify] returns; when
    that call raises, the answer is the failure with the text of the
    exception and an empty info.  The comparison, here and for the imprint
    of a signed token, is equality of the whole byte strings; and a proof
    that does not decode is answered with an empty info, which no mismatch
    answer has. *)
Theorem verify_ots_hash_mismatch (E : Env) (ots_bytes : bytes)
    (hash_hex : string) (expected : bytes) (ts : Timestamp) (w : World) :
  decoded_proof E ots_bytes = Ok ts →
  hash_hex ≠ "" →
  fromhex hash_hex = Some expected →
  msg ts ≠ expected →
  let r := (OTS.verify_ots E ots_bytes (Some hash_hex) w).1 in
  match load_ots_client E with
  | None => reports_mismatch r
  | Some client =>
      match ots_verify client (trace w) ts with
      | Ok _ => reports_mismatch r
      | Raise e => r = OTS.failure e ∅
      end
  end
  ∧ (∀ m, OTS.check_hash (Some hash_hex) m = OTS.Mismatch ↔ m ≠ expected)
  ∧ (∀ tsr, TSA._check_tsa_hash E tsr hash_hex = None
            ↔ ∃ tst, TSA._extract_tst_token E tsr = Some tst
                     ∧ (TSA._extract_message_imprint E tst).1 = Some expected)
  ∧ (∀ other w' m,
       decoded_proof E other = Raise m →
       let r' := (OTS.verify_ots E other (Some hash_hex) w').1 in
       OTS.success r' = false ∧ OTS.info r' = ∅
       ∧ ∀ r0, reports_mismatch r0 → r' ≠ r0).
Proof.
  intros Hdec Hne Hhex Hdiff r.
  assert (Hcheck : OTS.check_hash (Some hash_hex) (msg ts) = OTS.Mismatch).
  { by apply (check_hash_spec hash_hex expected). }
  split.
  { unfold r, OTS.verify_ots, decoded_proof, reports_mismatch in *.
    destruct (load_ots_client E) as [client |].
    - rewrite Hdec. unfold bind. rewrite ask_extend.
      destruct (ots_verify client (trace w) ts) as [verdict | e]; [| done].
      destruct (OTS._collect_blockchain_proofs E ts _) as [proofs w'].
      rewrite Hcheck. simpl. by rewrite lookup_insert_eq.
    - destruct (core_import E) as [[] | e]; [| done].
      destruct (detached_deserialize E ots_bytes) as [[op ts'] | e]; [| done].
      injection Hdec as ->. rewrite Hcheck. simpl.
      by rewrite lookup_insert_eq. }
  split; [intros m; by apply (check_hash_spec hash_hex expected) |].
  split; [intros tsr; by apply check_tsa_hash_accepts |].
  intros other w' m Hfail r'.
  destruct (verify_ots_decode_failure E other (Some hash_hex) w' m Hfail)
    as [Hfalse Hinfo].
  fold r' in Hinfo, Hfalse.
  split; [done |]. split; [done |].
  intros r0 (_ & _ & Hmatch) Heq.
  rewrite <- Heq, Hinfo in Hmatch. done.
Qed.

Lemma verify_ots_hash_mismatch_witness :
  reports_mismatch
    (OTS.verify_ots Demo.demo_env_client (x01 :: Demo.digest32) (Some "00ff")
       Demo.empty_world).1
  ∧ reports_mismatch
      (OTS.verify_ots Demo.demo_env (x01 :: Demo.digest32) (Some "00ff")
         Demo.empty_world).1.
Proof.
  split.
  - refine (proj1 (verify_ots_hash_mismatch Demo.demo_env_client
                     (x01 :: Demo.digest32) "00ff" [x00; xff]
                     {| msg := Demo.digest32;
                        node := MkNode [BitcoinBlockHeaderAttestation 800000] [] |}
                     Demo.empty_world _ _ _ _)).
    + reflexivity.
    + discriminate.
    + reflexivity.
    + apply (proj1 (bool_decide_eq_false _)). vm_compute. reflexivity.
  - refine (proj1 (verify_ots_hash_mismatch Demo.demo_env
                     (x01 :: Demo.digest32) "00ff" [x00; xff]
                     {| msg := Demo.digest32;
                        node := MkNode [BitcoinBlockHeaderAttestation 800000] [] |}
                     Demo.empty_world _ _ _ _)).
    + reflexivity.
    + discriminate.
    + reflexivity.
    + apply (proj1 (bool_decide_eq_false _)). vm_compute. reflexivity.
Defined.

(** ** The imprint of a signed token *)

Section Imprint.
Context (E : Env).

(** Every error of [_check_tsa_hash] is a non-empty text. *)
Lemma check_tsa_hash_silent (tsr : bytes) (hash_hex : string) :
  TSA.opt_str_truthy (TSA._check_tsa_hash E tsr hash_hex) = false →
  TSA._check_tsa_hash E tsr hash_hex = None.
Proof.
  unfold TSA._check_tsa_hash.
  destruct (fromhex hash_hex) as [digest |]; [| done].
  destruct (TSA._extract_tst_token E tsr) as [tst |]; [| done].
  destruct (TSA._extract_message_imprint E tst) as [[imprint |] debug_info];
    [| done].
  by destruct (decide (imprint ≠ digest)).
Qed.

(** The imprint handed to the comparison is the hashed message, whatever
    algorithm is declared next to it. *)
Lemma extract_message_imprint_direct (tst : TimeStampToken) (ti : TSTInfo)
    (mi : MessageImprint) :
  tst_info_attr tst = Some (Some ti) →
  messageImprint ti = Some mi →
  (TSA._extract_message_imprint E tst).1 = mi_hashed mi.
Proof.
  intros Hattr Hmi. unfold TSA._extract_message_imprint.
  rewrite Hattr, Hmi. by destruct (mi_hashed mi).
Qed.

End Imprint.

(** The token of the demonstration declares SHA-512, carries 32 bytes and
    is accepted, with and without a digest to compare with. *)
Lemma verify_tsa_accepts_short_imprint :
  ¬ verification_checks_imprint_length Demo.demo_env
  ∧ TSA.success
      (TSA.verify_tsa Demo.demo_env Demo.demo_der (Some Demo.digest32_hex))
    = true
  ∧ TSA.success (TSA.verify_tsa Demo.demo_env Demo.demo_der None) = true
  ∧ declared_digest_length Demo.demo_env
      {| mi_algorithm := Some Demo.sha512_oid;
         mi_hashed := Some Demo.digest32 |} = Some 64%nat
  ∧ length Demo.digest32 = 32%nat.
Proof.
  split; [| repeat split; vm_compute; reflexivity].
  intros Hclaim.
  destruct (Hclaim Demo.demo_der (Some Demo.digest32_hex) Demo.demo_token
              {| messageImprint :=
                   Some {| mi_algorithm := Some Demo.sha512_oid;
                           mi_hashed := Some Demo.digest32 |} |}
              {| mi_algorithm := Some Demo.sha512_oid;
                 mi_hashed := Some Demo.digest32 |})
    as (d & n & Hd & Hn & Hlen); try (vm_compute; reflexivity).
  simpl in Hd. injection Hd as <-.
  vm_compute in Hn. injection Hn as <-.
  vm_compute in Hlen. discriminate Hlen.
Qed.

(** C5 (amended): verification does not compare the length of the hashed
    message with the declared algorithm.  When a digest is supplied, a
    token is accepted only if a token is found whose hashed message is the
    supplied digest byte for byte, hence of its length; the declared
    algorithm takes no part in what is compared. *)
Theorem verify_tsa_imprint_is_digest (E : Env) (tsr : bytes)
    (hash_hex : string) (expected : bytes) :
  hash_hex ≠ "" →
  fromhex hash_hex = Some expected →
  TSA.success (TSA.verify_tsa E tsr (Some hash_hex)) = true →
  (∃ tst imprint,
     TSA._extract_tst_token E tsr = Some tst
     ∧ (TSA._extract_message_imprint E tst).1 = Some imprint
     ∧ imprint = expected
     ∧ length imprint = length expected)
  ∧ (∀ tst ti mi,
       tst_info_attr tst = Some (Some ti) →
       messageImprint ti = Some mi →
       (TSA._extract_message_imprint E tst).1 = mi_hashed mi).
Proof.
  intros Hne Hhex Hok.
  split; [| intros tst ti mi; apply extract_message_imprint_direct].
  unfold TSA.verify_tsa in Hok.
  destruct (rfc3161ng_import E) as [[] | e]; [| done].
  destruct (TSA._extract_tsa_info E tsr) as [info error].
  destruct (TSA.opt_str_truthy error); [done |].
  simpl in Hok. rewrite (str_truthy_nonempty _ Hne) in Hok.
  destruct (TSA.opt_str_truthy (TSA._check_tsa_hash E tsr hash_hex))
    eqn:Hsilent; [done |].
  apply check_tsa_hash_silent in Hsilent.
  apply (check_tsa_hash_accepts E tsr hash_hex expected Hhex) in Hsilent.
  destruct Hsilent as (tst & Htst & Himp).
  by exists tst, expected.
Qed.

Lemma verify_tsa_imprint_is_digest_witness :
  ∃ tst, TSA._extract_tst_token Demo.demo_env Demo.demo_der = Some tst
         ∧ (TSA._extract_message_imprint Demo.demo_env tst).1
           = Some Demo.digest32.
Proof.
  destruct (verify_tsa_imprint_is_digest Demo.demo_env Demo.demo_der
              Demo.digest32_hex Demo.digest32)
    as [(tst & imprint & Htst & Himp & -> & _) _].
  - discriminate.
  - vm_compute. reflexivity.
  - vm_compute. reflexivity.
  - by exists tst.
Defined.

(** ** Merging proof trees *)

Section Merge.

(** Induction on a tree, with the hypothesis for every child. *)
Lemma Node_ind_children (P : Node → Prop) :
  (∀ atts nops, Forall (fun oc : Op * Node => P oc.2) nops → P (MkNode atts nops)) →
  ∀ n, P n.
Proof.
  intros Hnode.
  fix IH 1. intros [atts nops]. apply Hnode.
  induction nops as [| [op ch] rest IHrest]; constructor.
  - apply IH.
  - exact IHrest.
Qed.

Lemma merge_node_unfold tatts tops catts cops :
  merge_node (MkNode tatts tops) (MkNode catts cops)
  = MkNode (foldl add_attestation tatts catts) (merge_ops cops tops).
Proof. reflexivity. Qed.

Lemma included_unfold catts cops t :
  included (MkNode catts cops) t
  ↔ (∀ a, a ∈ catts → a ∈ attestations t)
    ∧ Forall (fun oc : Op * Node =>
                ∃ ch, find_op oc.1 (ops t) = Some ch ∧ included oc.2 ch) cops.
Proof.
  simpl. apply and_iff_compat_l.
  induction cops as [| [op sub] rest IH].
  - split; [constructor | done].
  - rewrite Forall_cons, <- IH. simpl.
    destruct (find_op op (ops t)) as [ch |]; naive_solver.
Qed.

(** *** Attestations *)

Lemma add_attestation_present l a : a ∈ l → add_attestation l a = l.
Proof. intros Hin. unfold add_attestation. by rewrite decide_True. Qed.

Lemma add_attestation_elem l a x :
  x ∈ add_attestation l a ↔ x ∈ l ∨ x = a.
Proof.
  unfold add_attestation. destruct (decide (a ∈ l)) as [Hin | Hout].
  - naive_solver.
  - rewrite elem_of_app, list_elem_of_singleton. done.
Qed.

Lemma foldl_add_elem catts : ∀ tatts x,
  x ∈ foldl add_attestation tatts catts ↔ x ∈ tatts ∨ x ∈ catts.
Proof.
  induction catts as [| a rest IH]; intros tatts x; simpl.
  - rewrite elem_of_nil. naive_solver.
  - rewrite IH, add_attestation_elem, elem_of_cons. naive_solver.
Qed.

Lemma foldl_add_present catts : ∀ tatts,
  (∀ a, a ∈ catts → a ∈ tatts) → foldl add_attestation tatts catts = tatts.
Proof.
  induction catts as [| a rest IH]; intros tatts Hall; simpl; [done |].
  rewrite add_attestation_present by (apply Hall; left).
  apply IH. intros x Hx. apply Hall. by right.
Qed.

(** *** Operations *)

Lemma update_op_fixed op f l ch :
  find_op op l = Some ch → f ch = ch → update_op op f l = l.
Proof.
  induction l as [| [o c] rest IH]; simpl; [done |].
  destruct (decide (o = op)) as [-> | Hne].
  - intros [= ->] ->. done.
  - intros Hfind Hf. by rewrite IH.
Qed.

Lemma find_update_op op op' f l :
  find_op op (update_op op' f l)
  = if decide (op' = op) then f <$> find_op op l else find_op op l.
Proof.
  induction l as [| [o c] rest IH]; simpl.
  - by destruct (decide (op' = op)).
  - destruct (decide (o = op')) as [-> | Hne]; simpl.
    + destruct (decide (op' = op)) as [-> | Hne']; [done |].
      done.
    + destruct (decide (o = op)) as [-> | Hne'].
      * by rewrite decide_False by done.
      * exact IH.
Qed.

Lemma find_op_app op l l' :
  find_op op (l ++ l')
  = match find_op op l with Some ch => Some ch | None => find_op op l' end.
Proof.
  induction l as [| [o c] rest IH]; simpl; [done |].
  by destruct (decide (o = op)).
Qed.

Lemma find_upsert_op op op' f l :
  find_op op (upsert_op op' f l)
  = if decide (op' = op)
    then Some (f (default empty_node (find_op op l)))
    else find_op op l.
Proof.
  unfold upsert_op. destruct (find_op op' l) as [ch' |] eqn:Hfind.
  - rewrite find_update_op. destruct (decide (op' = op)) as [<- | Hne]; [| done].
    by rewrite Hfind.
  - rewrite find_op_app. simpl.
    destruct (decide (op' = op)) as [<- | Hne].
    + by rewrite Hfind.
    + by destruct (find_op op l).
Qed.

(** What holds of the child under an operation and is kept by merging
    into that child, still holds after a run of [merge_ops]. *)
Lemma merge_ops_preserves (Q : Node → Prop) :
  (∀ x d, Q x → Q (merge_node x d)) →
  ∀ dops acc op x,
    find_op op acc = Some x → Q x →
    ∃ x', find_op op (merge_ops dops acc) = Some x' ∧ Q x'.
Proof.
  intros HQ. induction dops as [| [o d] rest IH]; intros acc op x Hfind Hx.
  - by exists x.
  - simpl. destruct (decide (o = op)) as [-> | Hne].
    + apply (IH _ op (merge_node x d)).
      * rewrite find_upsert_op, decide_True by done. by rewrite Hfind.
      * by apply HQ.
    + apply (IH _ op x); [| done].
      by rewrite find_upsert_op, decide_False.
Qed.

(** Merging more into a tree keeps what it already included. *)
Lemma included_merge_node s : ∀ t d, included s t → included s (merge_node t d).
Proof.
  induction s as [satts sops IH] using Node_ind_children.
  intros [tatts tops] [datts dops]. rewrite merge_node_unfold, !included_unfold.
  simpl. intros [Hatts Hops]. split.
  - intros a Ha. apply foldl_add_elem. left. by apply Hatts.
  - rewrite Forall_forall in IH, Hops. apply Forall_forall.
    intros [op sub] Hin. destruct (Hops _ Hin) as (ch & Hfind & Hsub).
    simpl in *.
    apply (merge_ops_preserves (included sub)) with (x := ch); try done.
    intros x d. apply (IH _ Hin).
Qed.

(** After a merge, the merged tree includes what was merged into it. *)
Lemma merge_node_includes c : ∀ t, included c (merge_node t c).
Proof.
  induction c as [catts cops IH] using Node_ind_children.
  intros [tatts tops]. rewrite merge_node_unfold, included_unfold. simpl.
  split.
  - intros a Ha. apply foldl_add_elem. by right.
  - clear catts tatts. revert tops.
    induction cops as [| [op sub] rest IHrest]; intros tops; [constructor |].
    apply Forall_cons in IH as [IHsub IH]. simpl in IHsub.
    constructor.
    + simpl.
      apply (merge_ops_preserves (included sub))
        with (x := merge_node (default empty_node (find_op op tops)) sub).
      * intros x d. apply included_merge_node.
      * by rewrite find_upsert_op, decide_True.
      * apply IHsub.
    + apply IHrest, IH.
Qed.

(** Merging what a tree already includes changes nothing. *)
Lemma merge_node_included c : ∀ t, included c t → merge_node t c = t.
Proof.
  induction c as [catts cops IH] using Node_ind_children.
  intros [tatts tops]. rewrite merge_node_unfold, included_unfold. simpl.
  intros [Hatts Hops]. rewrite foldl_add_present by done. f_equal.
  clear Hatts catts tatts.
  induction cops as [| [op sub] rest IHrest]; [done |].
  apply Forall_cons in IH as [IHsub IH].
  apply Forall_cons in Hops as [(ch & Hfind & Hsub) Hops].
  simpl in *. unfold upsert_op. rewrite Hfind.
  rewrite (update_op_fixed op _ tops ch) by auto.
  by apply IHrest.
Qed.

Lemma merge_node_idempotent t c :
  merge_node (merge_node t c) c = merge_node t c.
Proof. apply merge_node_included, merge_node_includes. Qed.

End Merge.

(** C6: merging is idempotent.  A calendar proof for the digest of the base
    tree merges into it, and merging the same proof once more gives the
    same tree, with the same number of attestations; so the aggregation
    over a calendar asked twice, answering the same proof both times,
    leaves the tree that asking it once leaves. *)
Theorem merge_idempotent (E : Env) (digest : bytes) (url : string)
    (cal : Timestamp) (w : World) :
  msg cal = digest →
  calendar_submit E (trace w) url digest = Ok cal →
  calendar_submit E (trace w ++ [EvCalendarSubmit url digest]) url digest
  = Ok cal →
  (∀ base, msg base = msg cal →
     ∃ once, merge base cal = Ok once
             ∧ merge once cal = Ok once
             ∧ ∀ twice, merge once cal = Ok twice →
                 count_attestations (node twice)
                 = count_attestations (node once))
  ∧ aggregated_tree E digest [url; url] w = aggregated_tree E digest [url] w
  ∧ count_attestations (node (aggregated_tree E digest [url; url] w))
    = count_attestations (node (aggregated_tree E digest [url] w)).
Proof.
  intros Hmsg Hfirst Hsecond.
  assert (Hmerge : ∀ base, msg base = msg cal →
            ∃ once, merge base cal = Ok once ∧ merge once cal = Ok once).
  { intros base Hbase. unfold merge. rewrite decide_True by done.
    eexists. split; [done |]. simpl. rewrite decide_True by done.
    by rewrite merge_node_idempotent. }
  assert (Htree : aggregated_tree E digest [url; url] w
                  = aggregated_tree E digest [url] w).
  { unfold aggregated_tree. rewrite !submit_loop_spec. cbv zeta. simpl.
    unfold endpoint_outcome. rewrite Hfirst.
    destruct (Hmerge (new_timestamp digest)) as (once & Honce & Htwice);
      [by rewrite Hmsg |].
    rewrite Honce. simpl. rewrite Hsecond, Htwice. done. }
  split; [| split; [exact Htree | by rewrite Htree]].
  intros base Hbase. destruct (Hmerge base Hbase) as (once & Honce & Htwice).
  exists once. split; [done |]. split; [done |].
  intros twice Heq. rewrite Htwice in Heq. by injection Heq as <-.
Qed.

Lemma merge_idempotent_witness :
  aggregated_tree Demo.demo_env [x00; xff] [Demo.calendar_a; Demo.calendar_a]
    Demo.empty_world
  = aggregated_tree Demo.demo_env [x00; xff] [Demo.calendar_a] Demo.empty_world.
Proof.
  apply (merge_idempotent Demo.demo_env [x00; xff] Demo.calendar_a
           {| msg := [x00; xff];
              node := MkNode [PendingAttestation Demo.calendar_a] [] |}
           Demo.empty_world); reflexivity.
Defined.

(** ** The status of a record *)

Section Statuses.
Context (E : Env).

Lemma recheck_spec status path w :
  Evidence.recheck status path w
  = (if kept status path w then "success"
     else if String.eqb status "success" then "failed" else status, w).
Proof.
  unfold Evidence.recheck, kept, readable, bind.
  destruct (String.eqb status "success") eqn:Hs; simpl; [| done].
  apply String.eqb_eq in Hs. subst status.
  destruct (Storage.read_file path w) as [content w'] eqn:Hread.
  assert (w' = w) as ->.
  { unfold Storage.read_file in Hread. destruct path as [p |]; [| congruence].
    destruct (str_truthy p); congruence. }
  simpl. by destruct (Evidence.nonempty content).
Qed.

Lemma recheck_success status path w :
  String.eqb (Evidence.recheck status path w).1 "success" = kept status path w.
Proof.
  rewrite recheck_spec. simpl. unfold kept.
  destruct (String.eqb status "success") eqn:Hs; simpl.
  - by destruct (readable path w).
  - exact Hs.
Qed.

Lemma status_from_result_spec ok :
  Evidence._status_from_result ok = if ok then "success" else "failed".
Proof. reflexivity. Qed.

Lemma ots_block_saved_status files_dir hash enabled status path w :
  (Evidence.ots_block_saved E files_dir hash enabled status path w).1.1.1
  = if String.eqb status "success" then status
    else next_status false enabled
           (OTS.success
              (OTS.create_ots E hash (Some (ots_calendar_urls (settings E))) w).1).
Proof.
  unfold Evidence.ots_block_saved, next_status, bind.
  destruct (String.eqb status "success"); simpl; [done |].
  destruct enabled; [| done].
  destruct (OTS.create_ots E hash _ w) as [res w']. simpl.
  destruct (OTS.success res); simpl; [| done].
  destruct (Evidence.nonempty (OTS.ots_bytes res)) as [content |]; [| done].
  by destruct (Storage.save_ots_file files_dir hash content w').
Qed.

Lemma ots_block_saved_world files_dir hash enabled status path w :
  (Evidence.ots_block_saved E files_dir hash enabled status path w).2
  = (Evidence.ots_block_saved E files_dir hash enabled
       (if String.eqb status "success" then "success" else "failed") None w).2.
Proof.
  unfold Evidence.ots_block_saved, bind.
  destruct (String.eqb status "success"); simpl; [done |].
  destruct enabled; [| done].
  destruct (OTS.create_ots E hash _ w) as [res w'].
  destruct (OTS.success res); simpl; [| done].
  destruct (Evidence.nonempty (OTS.ots_bytes res)) as [content |]; [| done].
  by destruct (Storage.save_ots_file files_dir hash content w').
Qed.

Lemma tsa_block_saved_status files_dir tsa_url hash enabled status path w :
  (Evidence.tsa_block_saved E files_dir tsa_url hash enabled status path w).1.1.1.1
  = if String.eqb status "success" then status
    else next_status false enabled
           (TSA.success (TSA.create_tsa E hash tsa_url w).1).
Proof.
  unfold Evidence.tsa_block_saved, next_status, bind.
  destruct (String.eqb status "success"); simpl; [done |].
  destruct enabled; [| done].
  destruct (TSA.create_tsa E hash tsa_url w) as [res w']. simpl.
  destruct (TSA.success res); simpl; [| done].
  destruct (Evidence.nonempty (TSA.tsr_bytes res)) as [content |]; [| done].
  by destruct (Storage.save_tsa_file files_dir hash content w').
Qed.



End Statuses.

Section Records.
Context (E : Env).

(** The [UPDATE] on a row that is there: one reading of the clock, and the
    row keeps its [created_at]. *)
Lemma update_statuses_found hash ots_status tsa_status ots_path tsa_path old w :
  db w !! hash = Some old →
  evidence_repo.update_statuses E hash ots_status tsa_status ots_path tsa_path w
  = (tt, {| trace := trace w ++ [EvDatetimeNow];
            db := <[hash := {| row_ots_status := ots_status;
                               row_tsa_status := tsa_status;
                               row_ots_path := ots_path;
                               row_tsa_path := tsa_path;
                               row_created_at := row_created_at old;
                               row_updated_at := datetime_now E (trace w) |}]>
                    (db w);
            files := files w; dirs := dirs w |}).
Proof.
  intros Hrow.
  unfold evidence_repo.update_statuses, evidence_repo.fetch_by_hash, bind.
  by rewrite Hrow.
Qed.

Lemma update_statuses_missing hash ots_status tsa_status ots_path tsa_path w :
  db w !! hash = None →
  evidence_repo.update_statuses E hash ots_status tsa_status ots_path tsa_path w
  = (tt, w).
Proof.
  intros Hrow.
  unfold evidence_repo.update_statuses, evidence_repo.fetch_by_hash, bind.
  by rewrite Hrow.
Qed.


Lemma create_ots_db hash calendars w :
  db (OTS.create_ots E hash calendars w).2 = db w.
Proof.
  unfold OTS.create_ots, OTS._create_ots_with_calendar, bind, ret.
  destruct (load_ots_client E) as [client |].
  - destruct (fromhex hash) as [digest |]; [| done].
    rewrite ask_extend.
    destruct (ots_stamp client (trace w) (new_timestamp digest)) as [ts | e];
      [| done].
    by destruct (timestamp_serialize E ts).
  - destruct (core_import E) as [[] | e]; [| done].
    destruct (default [] calendars) as [| url rest] eqn:Hcal; [done |].
    destruct (fromhex hash) as [digest |]; [| done].
    rewrite submit_loop_spec. cbv zeta. simpl.
    destruct (decide _); [done |].
    by destruct (detached_serialize E OpSHA256 _).
Qed.

Lemma create_tsa_db hash tsa_url w :
  db (TSA.create_tsa E hash tsa_url w).2 = db w.
Proof.
  unfold TSA.create_tsa, bind, ret.
  destruct (negb (str_truthy tsa_url)); [done |].
  destruct (rfc3161ng_import E) as [[] | e]; [| done].
  destruct (fromhex hash) as [digest |]; [| done].
  rewrite ask_extend.
  destruct (remote_timestamper E (trace w) tsa_url digest) as [resp | e];
    [| done].
  destruct (TSA._response_to_bytes resp) as [tsr |]; [| done].
  destruct (negb (bytes_truthy tsr)); [done |].
  destruct (TSA._extract_tsa_info E tsr) as [info error].
  by destruct (TSA.opt_str_truthy error).
Qed.

Lemma ots_block_saved_db files_dir hash enabled status path w :
  db (Evidence.ots_block_saved E files_dir hash enabled status path w).2 = db w.
Proof.
  unfold Evidence.ots_block_saved, bind, ret.
  destruct (negb (String.eqb status "success")); [| done].
  destruct enabled; [| done].
  pose proof (create_ots_db hash (Some (ots_calendar_urls (settings E))) w) as Hdb.
  destruct (OTS.create_ots E hash _ w) as [res w']. simpl in Hdb.
  destruct (OTS.success res); simpl; [| done].
  by destruct (Evidence.nonempty (OTS.ots_bytes res)).
Qed.

Lemma tsa_block_saved_db files_dir tsa_url hash enabled status path w :
  db (Evidence.tsa_block_saved E files_dir tsa_url hash enabled status path w).2
  = db w.
Proof.
  unfold Evidence.tsa_block_saved, bind, ret.
  destruct (negb (String.eqb status "success")); [| done].
  destruct enabled; [| done].
  pose proof (create_tsa_db hash tsa_url w) as Hdb.
  destruct (TSA.create_tsa E hash tsa_url w) as [res w']. simpl in Hdb.
  destruct (TSA.success res); simpl; [| done].
  by destruct (Evidence.nonempty (TSA.tsr_bytes res)).
Qed.



Lemma readable_ext path w w' :
  files w' = files w → readable path w' = readable path w.
Proof.
  intros Hfiles. unfold readable, Storage.read_file.
  destruct path as [p |]; [| done].
  destruct (str_truthy p); [| done]. simpl. by rewrite Hfiles.
Qed.

(** The saved branch, for a record that is in the store. *)
Lemma process_saved_statuses files_dir tsa_url hash
    (ots_enabled tsa_enabled : bool) name_base ots_status tsa_status row w :
  db w !! hash = Some row →
  let run :=
    Evidence.process_saved E files_dir tsa_url hash ots_enabled tsa_enabled
      name_base ots_status tsa_status (Some row) w in
  let r := run.1 in
  let ots_was_kept := kept ots_status (row_ots_path row) w in
  let tsa_was_kept := kept tsa_status (row_tsa_path row) w in
  Evidence.ots_status r
  = next_status ots_was_kept ots_enabled
      (OTS.success
         (OTS.create_ots E hash (Some (ots_calendar_urls (settings E))) w).1)
  ∧ Evidence.tsa_status r
    = next_status tsa_was_kept tsa_enabled
        (TSA.success
           (TSA.create_tsa E hash tsa_url
              (Evidence.ots_block_saved E files_dir hash ots_enabled
                 (if ots_was_kept then "success" else "failed") None w).2).1)
  ∧ ∃ row', db run.2 !! hash = Some row'
            ∧ Evidence.record r = Some row'
            ∧ row_ots_status row' = Evidence.ots_status r
            ∧ row_tsa_status row' = Evidence.tsa_status r.
Proof.
  intros Hrow run r ots_was_kept tsa_was_kept. subst r run.
  unfold Evidence.process_saved, bind. simpl.
  pose proof (recheck_success ots_status (row_ots_path row) w) as Hots1.
  pose proof (recheck_success tsa_status (row_tsa_path row) w) as Htsa1.
  rewrite !recheck_spec in *. simpl in Hots1, Htsa1.
  fold ots_was_kept in Hots1 |- *. fold tsa_was_kept in Htsa1 |- *.
  set (s1 := if ots_was_kept then "success"
             else if String.eqb ots_status "success" then "failed"
                  else ots_status) in *.
  set (t1 := if tsa_was_kept then "success"
             else if String.eqb tsa_status "success" then "failed"
                  else tsa_status) in *.
  pose proof (ots_block_saved_status E files_dir hash ots_enabled s1
                (row_ots_path row) w) as Hos.
  pose proof (ots_block_saved_world E files_dir hash ots_enabled s1
                (row_ots_path row) w) as How.
  pose proof (ots_block_saved_db files_dir hash ots_enabled s1
                (row_ots_path row) w) as Hodb.
  destruct (Evidence.ots_block_saved E files_dir hash ots_enabled s1
              (row_ots_path row) w) as [[[os oe] op] w1].
  simpl in Hos, How, Hodb.
  pose proof (tsa_block_saved_status E files_dir tsa_url hash tsa_enabled t1
                (row_tsa_path row) w1) as Hts.
  pose proof (tsa_block_saved_db files_dir tsa_url hash tsa_enabled t1
                (row_tsa_path row) w1) as Htdb.
  destruct (Evidence.tsa_block_saved E files_dir tsa_url hash tsa_enabled t1
              (row_tsa_path row) w1) as [[[[tst te] ti] tp] w2].
  simpl in Hts, Htdb.
  rewrite Hots1 in Hos, How. rewrite Htsa1 in Hts.
  rewrite <- How.
  erewrite update_statuses_found by (by rewrite Htdb, Hodb).
  unfold evidence_repo.fetch_by_hash, ret. simpl.
  rewrite !lookup_insert_eq. simpl.
  split; [| split].
  - rewrite Hos. unfold next_status, s1. by destruct ots_was_kept.
  - rewrite Hts. unfold next_status, t1. by destruct tsa_was_kept.
  - by eexists.
Qed.


End Records.


(** ** Verification leaves the statuses alone *)

Section Verification.
Context (E : Env).










End Verification.



(** A first submission with OTS requested and TSA not: the calendars
    answer, and the record is stored with success and disabled. *)
Example status_state_machine_example :
  let run :=
    Evidence.process_submission Demo.demo_env "/data/files"
      "https://tsa.example/tsr" Demo.digest32_hex true false true None
      Demo.empty_world in
  Evidence.ots_status run.1 = "success"
  ∧ Evidence.tsa_status run.1 = "disabled"
  ∧ row_ots_status <$> (db run.2 !! Demo.digest32_hex) = Some "success"
  ∧ row_tsa_status <$> (db run.2 !! Demo.digest32_hex) = Some "disabled".
Proof. vm_compute. repeat split; reflexivity. Qed.

(** * Further properties of the services *)

(** ** Verifying and creating signed tokens *)

Section TokenService.
Context (E : Env).

Lemma opt_str_truthy_some (e : option string) :
  TSA.opt_str_truthy e = true → ∃ s, e = Some s ∧ s ≠ "".
Proof.
  destruct e as [s |]; [| done]. simpl. intros Hs. exists s. split; [done |].
  intros ->. done.
Qed.

(** What [_extract_tsa_info] answers: with no error the info names the
    format that decoded, with an error the info is empty. *)
Lemma extract_tsa_info_shape (tsr : bytes) :
  match (TSA._extract_tsa_info E tsr).2 with
  | None =>
      (TSA._extract_tsa_info E tsr).1 !! "format" = Some (VStr "tsr")
      ∨ (TSA._extract_tsa_info E tsr).1 !! "format" = Some (VStr "tst")
  | Some _ => (TSA._extract_tsa_info E tsr).1 = ∅
  end.
Proof.
  unfold TSA._extract_tsa_info.
  destruct (rfc3161ng_import E) as [[] | e]; [| done].
  assert (Hfallback :
    match (match get_timestamp E with
           | Some token_parser =>
               match token_parser tsr with
               | Ok timestamp =>
                   (<["format" := VStr "tst"]> (<["time" := VStr timestamp]> ∅),
                    None)
               | Raise m => (∅, Some ("invalid tsa response: " +:+ m))
               end
           | None => (∅, Some "invalid tsa response: decoder unavailable")
           end : gmap string Value * option string) with
    | (info, None) =>
        info !! "format" = Some (VStr "tsr") ∨ info !! "format" = Some (VStr "tst")
    | (info, Some _) => info = ∅
    end).
  { destruct (get_timestamp E) as [token_parser |]; [| done].
    destruct (token_parser tsr); [| done].
    right. by rewrite lookup_insert_eq. }
  destruct (decode_timestamp_response E) as [decoder |].
  - destruct (TSA._decode_tsa_response E decoder tsr).1.
    + simpl. left. by rewrite lookup_insert_eq.
    + destruct (match get_timestamp E with Some _ => _ | None => _ end)
        as [info [e |]]; exact Hfallback.
  - destruct (match get_timestamp E with Some _ => _ | None => _ end)
      as [info [e |]]; exact Hfallback.
Qed.

(** An error of [_extract_tsa_info] is a non-empty text once the library
    is imported. *)
Lemma extract_tsa_info_error_nonempty (tsr : bytes) :
  rfc3161ng_import E = Ok tt →
  ∀ e, (TSA._extract_tsa_info E tsr).2 = Some e →
       TSA.opt_str_truthy (Some e) = true.
Proof.
  intros Himport e. unfold TSA._extract_tsa_info. rewrite Himport.
  assert (Hfb : ∀ p : gmap string Value * option string,
            p = match get_timestamp E with
                | Some token_parser =>
                    match token_parser tsr with
                    | Ok timestamp =>
                        (<["format" := VStr "tst"]>
                           (<["time" := VStr timestamp]> ∅), None)
                    | Raise m => (∅, Some ("invalid tsa response: " +:+ m))
                    end
                | None => (∅, Some "invalid tsa response: decoder unavailable")
                end →
            p.2 = Some e → TSA.opt_str_truthy (Some e) = true).
  { intros p ->. destruct (get_timestamp E) as [token_parser |].
    - destruct (token_parser tsr); [done |]. simpl. by intros [= <-].
    - simpl. by intros [= <-]. }
  destruct (decode_timestamp_response E) as [decoder |].
  - destruct (TSA._decode_tsa_response E decoder tsr).1; [done |].
    by apply Hfb.
  - by apply Hfb.
Qed.

End TokenService.

(** X1: [verify_tsa] succeeds exactly when [rfc3161ng] can be imported, the
    token yields its info without an error and, when a non-empty digest
    text is given, [_check_tsa_hash] has nothing to report; its [error] is
    [None] exactly on success, and the info of a token that does not
    decode is empty. *)
Theorem verify_tsa_success_iff (E : Env) (tsr : bytes)
    (hash_hex : option string) :
  let r := TSA.verify_tsa E tsr hash_hex in
  (TSA.success r = true
   ↔ is_ok (rfc3161ng_import E) = true
     ∧ (TSA._extract_tsa_info E tsr).2 = None
     ∧ (TSA.opt_str_truthy hash_hex = true →
        TSA._check_tsa_hash E tsr (default "" hash_hex) = None))
  ∧ (TSA.success r = true ↔ TSA.error r = None)
  ∧ ((TSA._extract_tsa_info E tsr).2 ≠ None → TSA.info r = ∅).
Proof.
  intros r. subst r. unfold TSA.verify_tsa.
  pose proof (extract_tsa_info_shape E tsr) as Hshape.
  destruct (rfc3161ng_import E) as [[] | e] eqn:Himport.
  2: { simpl. repeat split; try done. intros (? & _); done. }
  pose proof (extract_tsa_info_error_nonempty E tsr Himport) as Hnonempty.
  destruct (TSA._extract_tsa_info E tsr) as [info [e |]]; simpl in *.
  - rewrite (Hnonempty e eq_refl). simpl.
    repeat split; try done. intros (_ & ? & _); done.
  - destruct (TSA.opt_str_truthy hash_hex) eqn:Hhex; simpl.
    + destruct (TSA.opt_str_truthy (TSA._check_tsa_hash E tsr (default "" hash_hex)))
        eqn:Hcheck; simpl.
      * apply opt_str_truthy_some in Hcheck as (s & Hs & _).
        rewrite Hs. repeat split; try done.
        intros (_ & _ & Hnone). by specialize (Hnone eq_refl).
      * apply check_tsa_hash_silent in Hcheck. by rewrite Hcheck.
    + repeat split; try done.
Qed.


(** ** Hexadecimal text *)

Lemma hex_pair_decodes (c : byte) :
  is_space (TSA.hex_digit (Byte.to_N c / 16)) = false
  ∧ hexval (TSA.hex_digit (Byte.to_N c / 16)) = Some (Byte.to_N c / 16)%N
  ∧ hexval (TSA.hex_digit (Byte.to_N c mod 16)) = Some (Byte.to_N c mod 16)%N
  ∧ byte_of_N (16 * (Byte.to_N c / 16) + Byte.to_N c mod 16) = c.
Proof. destruct c; vm_compute; done. Qed.

(** [bytes.fromhex(x.hex())] is [x]. *)
Lemma fromhex_hex (x : bytes) : fromhex (TSA.hex x) = Some x.
Proof.
  unfold fromhex, TSA.hex. rewrite list_byte_of_string_of_list_byte.
  induction x as [| c rest IH]; [done |].
  destruct (hex_pair_decodes c) as (Hspace & Hhi & Hlo & Hbyte).
  cbn [flat_map app fromhex_bytes].
  rewrite Hspace, Hhi, Hlo, IH, Hbyte. done.
Qed.

(** X3: when [_extract_message_imprint] finds the imprint of a token, the
    debug information it returns holds the imprint in hexadecimal, two
    characters a byte, and [bytes.fromhex] reads the imprint back from
    it. *)
Theorem message_imprint_hex_round_trip (E : Env) (tst : TimeStampToken)
    (imprint : bytes) :
  (TSA._extract_message_imprint E tst).1 = Some imprint →
  ∃ h, (TSA._extract_message_imprint E tst).2 !! "imprint_hex" = Some (VStr h)
       ∧ fromhex h = Some imprint
       ∧ String.length h = (2 * length imprint)%nat.
Proof.
  intros Himp. exists (TSA.hex imprint).
  assert (Hlen : ∀ x : bytes, String.length (TSA.hex x) = (2 * length x)%nat).
  { intros x. unfold TSA.hex.
    assert (Hs : ∀ l : bytes, String.length (string_of_list_byte l) = length l).
    { intros l. unfold string_of_list_byte.
      induction l as [| c l IH]; simpl; [done | by rewrite IH]. }
    rewrite Hs. induction x as [| c x IH]; simpl; [done |]. rewrite IH. lia. }
  split; [| split; [apply fromhex_hex | apply Hlen]].
  revert Himp. unfold TSA._extract_message_imprint.
  repeat case_match; simpl; intros; simplify_eq; try done;
    by rewrite lookup_insert_eq.
Qed.

Lemma message_imprint_hex_round_trip_witness :
  ∃ h, (TSA._extract_message_imprint Demo.demo_env Demo.demo_token).2
         !! "imprint_hex" = Some (VStr h)
       ∧ fromhex h = Some Demo.digest32.
Proof.
  destruct (message_imprint_hex_round_trip Demo.demo_env Demo.demo_token
              Demo.digest32 eq_refl) as (h & Hh & Hback & _).
  by exists h.
Defined.

(** ** PEM text *)

Section Pem.

Lemma lstrip_spaces (pre x : bytes) :
  Forall (fun c => is_space c = true) pre → lstrip (pre ++ x) = lstrip x.
Proof.
  induction 1 as [| c pre Hc _ IH]; [done |]. simpl. by rewrite Hc.
Qed.

Lemma lstrip_head (c : byte) (rest : bytes) :
  is_space c = false → lstrip (c :: rest) = c :: rest.
Proof. intros Hc. simpl. by rewrite Hc. Qed.

(** [strip] removes the white space around a trimmed text and nothing
    else. *)
Lemma strip_trimmed (pre core post : bytes) :
  Forall (fun c => is_space c = true) pre →
  Forall (fun c => is_space c = true) post →
  trimmed core →
  strip (pre ++ core ++ post) = core.
Proof.
  intros Hpre Hpost [(c & rest & Hcore & Hc) (front & c' & Hcore' & Hc')].
  unfold strip. rewrite lstrip_spaces by done.
  rewrite Hcore. cbn [app]. rewrite lstrip_head by done.
  change (c :: rest ++ post) with ((c :: rest) ++ post).
  rewrite <- Hcore, rev_app_distr.
  rewrite lstrip_spaces by (by apply Forall_rev).
  rewrite Hcore', rev_app_distr. cbn [rev app].
  rewrite lstrip_head by done.
  change (c' :: rev front) with (rev [c'] ++ rev front).
  by rewrite <- rev_app_distr, rev_involutive.
Qed.

Lemma splitlines_aux_line (l : bytes) :
  one_line l →
  ∀ cur x, splitlines_aux cur (l ++ x) = splitlines_aux (rev l ++ cur) x.
Proof.
  intros [Hlf Hcr]. induction l as [| c l IH]; intros cur x; [done |].
  apply not_elem_of_cons in Hlf as [Hlf1 Hlf], Hcr as [Hcr1 Hcr].
  cbn [app splitlines_aux].
  rewrite decide_False by done. rewrite decide_False by done.
  rewrite IH by done. cbn [rev]. by rewrite <- app_assoc.
Qed.

(** [splitlines] gives back the lines that were joined. *)
Lemma splitlines_join_lines (ls : list bytes) :
  Forall one_line ls →
  (∃ front l, ls = front ++ [l] ∧ l ≠ []) →
  splitlines (join_lines ls) = ls.
Proof.
  unfold splitlines. intros Hlines (front & l & -> & Hl).
  induction front as [| l1 front IH].
  - simpl. apply Forall_cons in Hlines as [Hone _].
    rewrite <- (app_nil_r l) at 1.
    rewrite splitlines_aux_line by done. simpl. rewrite app_nil_r.
    destruct (rev l) eqn:Hrev.
    + apply (f_equal (@rev byte)) in Hrev. rewrite rev_involutive in Hrev.
      done.
    + by rewrite <- Hrev, rev_involutive.
  - apply Forall_cons in Hlines as [Hone Hlines].
    assert (Hjoin : join_lines ((l1 :: front) ++ [l])
                    = l1 ++ LF :: join_lines (front ++ [l])).
    { simpl. by destruct (front ++ [l]) eqn:Heq; [destruct front |]. }
    rewrite Hjoin, splitlines_aux_line by done.
    cbn [splitlines_aux]. rewrite decide_True by done.
    rewrite app_nil_r, rev_involutive. simpl. f_equal. by apply IH.
Qed.

Lemma startswith_app (x y p : bytes) :
  startswith x p = true → startswith (x ++ y) p = true.
Proof.
  revert x. induction p as [| c p IH]; intros x;
    [intros _; by destruct (x ++ y) |].
  destruct x as [| d x]; [done |]. simpl.
  destruct (decide (c = d)); [apply IH | done].
Qed.

Lemma startswith_prefix (x p q : bytes) :
  startswith x (p ++ q) = true → startswith x p = true.
Proof.
  revert x. induction p as [| c p IH]; intros x; [intros _; by destruct x |].
  destruct x as [| d x]; [done |]. simpl.
  destruct (decide (c = d)); [apply IH | done].
Qed.

Lemma join_lines_cons (l : bytes) (ls : list bytes) :
  ls ≠ [] → join_lines (l :: ls) = l ++ LF :: join_lines ls.
Proof. by destruct ls. Qed.

Lemma join_lines_snoc (ls : list bytes) (l : bytes) :
  ∃ front, join_lines (ls ++ [l]) = front ++ l.
Proof.
  induction ls as [| l1 ls [front IH]].
  - by exists [].
  - exists (l1 ++ LF :: front). cbn [app].
    rewrite join_lines_cons by (by destruct ls). rewrite IH.
    by rewrite <- app_assoc.
Qed.

End Pem.

(** X4: a PEM file, possibly with white space around it, that the strict
    decoder rejects is decoded from the base64 of its body: the lines that
    start with five dashes are dropped, the others are concatenated and
    handed to [base64.b64decode], and what the strict decoder makes of the
    result is the answer; the bare-base64 step is not tried. *)
Theorem decode_pem_wrapped (E : Env) (decoder : bytes → result TimeStampResp)
    (pre post header footer : bytes) (body : list bytes) :
  let tsr := pre ++ join_lines (header :: body ++ [footer]) ++ post in
  is_ok (decoder tsr) = false →
  is_ascii tsr = true →
  Forall (fun c => is_space c = true) pre →
  Forall (fun c => is_space c = true) post →
  startswith header (bytes_of "-----BEGIN") = true →
  startswith footer (bytes_of "-----") = true →
  (∃ front c, footer = front ++ [c] ∧ is_space c = false) →
  Forall one_line (header :: body ++ [footer]) →
  Forall (fun l => startswith l (bytes_of "-----") = false) body →
  TSA._decode_tsa_response E decoder tsr
  = ((TSA.decode_b64 E decoder false (concat body)).1,
     TSA.CallDecoder tsr :: (TSA.decode_b64 E decoder false (concat body)).2).
Proof.
  intros tsr Hstrict Hascii Hpre Hpost Hheader Hfooter Hlast Hlines Hbody.
  destruct (decode_strict_failed decoder tsr Hstrict) as [m Hm].
  set (text := join_lines (header :: body ++ [footer])).
  assert (Htext : text = header ++ LF :: join_lines (body ++ [footer])).
  { unfold text. apply join_lines_cons. by destruct body. }
  assert (Htrim : trimmed text).
  { split.
    - destruct header as [| c rest]; [done |]. exists c, (rest ++ LF :: join_lines (body ++ [footer])).
      split; [by rewrite Htext |].
      simpl in Hheader. destruct (decide (_ = c)) as [<- |]; done.
    - destruct Hlast as (front & c & -> & Hc).
      destruct (join_lines_snoc (header :: body) (front ++ [c])) as [pref Hpref].
      exists (pref ++ front), c. split; [| done].
      unfold text. change (header :: body ++ [front ++ [c]])
        with ((header :: body) ++ [front ++ [c]]).
      by rewrite Hpref, app_assoc. }
  assert (Hstrip : strip tsr = text) by (by apply strip_trimmed).
  assert (Hsplit : splitlines text = header :: body ++ [footer]).
  { apply splitlines_join_lines; [done |].
    exists (header :: body), footer. split; [done |]. by destruct footer. }
  assert (Hfilter :
    filter (fun line => negb (startswith line (bytes_of "-----")))
      (header :: body ++ [footer]) = body).
  { assert (Hh : startswith header (bytes_of "-----") = true).
    { apply (startswith_prefix header (bytes_of "-----") (bytes_of "BEGIN")).
      exact Hheader. }
    rewrite filter_cons_False by (rewrite Hh; exact id).
    rewrite filter_app.
    rewrite (filter_cons_False _ footer) by (rewrite Hfooter; exact id).
    rewrite filter_nil, app_nil_r.
    clear -Hbody. induction Hbody as [| l body Hl _ IH]; [done |].
    rewrite filter_cons_True by (rewrite Hl; exact I). by rewrite IH. }
  unfold TSA._decode_tsa_response. rewrite Hm, Hascii. cbn [negb].
  rewrite Hstrip.
  rewrite Htext at 1. rewrite (startswith_app _ _ _ Hheader).
  rewrite Hsplit, Hfilter.
  by destruct (TSA.decode_b64 E decoder false (concat body)).
Qed.

Lemma decode_pem_wrapped_witness :
  (TSA._decode_tsa_response Demo.demo_env Demo.demo_decoder
     (bytes_of " " ++
      join_lines (bytes_of "-----BEGIN TSR-----"
                  :: [bytes_of "MAMC"; bytes_of "AQA="]
                  ++ [bytes_of "-----END TSR-----"])
      ++ [LF])).1
  = Ok Demo.demo_tsr.
Proof.
  rewrite (decode_pem_wrapped Demo.demo_env Demo.demo_decoder (bytes_of " ") [LF]
             (bytes_of "-----BEGIN TSR-----") (bytes_of "-----END TSR-----")
             [bytes_of "MAMC"; bytes_of "AQA="]).
  - reflexivity.
  - reflexivity.
  - reflexivity.
  - repeat constructor.
  - repeat constructor.
  - reflexivity.
  - reflexivity.
  - exists (bytes_of "-----END TSR----"), (byte_of_N 45). split; reflexivity.
  - repeat constructor;
      apply (proj1 (bool_decide_eq_false _)); vm_compute; reflexivity.
  - repeat constructor.
Defined.

(** ** Resolving anchors and pending attestations *)

Section Resolution.
Context (E : Env).

Lemma lookup_block_hash_result chain height w :
  ∃ block_hash hash_error,
    (OTS._lookup_block_hash E chain height w).1 = (block_hash, hash_error).
Proof. destruct (OTS._lookup_block_hash E chain height w).1; by eexists _, _. Qed.

(** The loop adds one entry per pair met for the first time, in that
    order, and each entry names its pair. *)
Lemma collect_loop_entries atts :
  ∀ proofs seen cache w,
    dom cache ⊆ seen →
    ∃ entries,
      (OTS.collect_loop E atts proofs seen cache w).1 = proofs ++ entries
      ∧ omap entry_key entries = fresh_keys (anchor_keys atts) seen
      ∧ length entries = length (fresh_keys (anchor_keys atts) seen).
Proof.
  induction atts as [| [m att] rest IH]; intros proofs seen cache w Hdom.
  - exists []. simpl. by rewrite app_nil_r.
  - rewrite anchor_keys_cons. simpl OTS.collect_loop.
    destruct (OTS.chain_of att) as [[chain height] |] eqn:Hchain.
    2: { by apply IH. }
    simpl fresh_keys.
    destruct (decide ((chain, height) ∈ seen)) as [Hin | Hnotin].
    + by apply IH.
    + assert (Hmiss : cache !! (chain, height) = None).
      { apply not_elem_of_dom. set_solver. }
      unfold bind. rewrite Hmiss.
      destruct (OTS._lookup_block_hash E chain height w)
        as [[block_hash hash_error] w'].
      unfold ret. cbv zeta.
      match goal with
      | |- context [OTS.collect_loop E rest (proofs ++ [?v]) ?s ?c ?w0] =>
          destruct (IH (proofs ++ [v]) s c w0) as (entries & Hrun & Hkeys & Hlen);
            [rewrite dom_insert; set_solver |];
          exists (v :: entries)
      end.
      rewrite Hrun, <- app_assoc. split; [done |].
      split; [| simpl; by rewrite Hlen].
      rewrite <- Hkeys.
      by destruct (TSA.opt_str_truthy hash_error).
Qed.

Lemma fresh_keys_elem keys :
  ∀ seen key, key ∈ fresh_keys keys seen ↔ key ∈ keys ∧ key ∉ seen.
Proof.
  induction keys as [| k rest IH]; intros seen key; simpl.
  - rewrite elem_of_nil. naive_solver.
  - destruct (decide (k ∈ seen)) as [Hin | Hout].
    + rewrite IH, elem_of_cons. naive_solver.
    + rewrite !elem_of_cons, IH. rewrite elem_of_union, elem_of_singleton.
      destruct (decide (key = k)) as [-> |]; naive_solver.
Qed.

Lemma fresh_keys_NoDup keys : ∀ seen, NoDup (fresh_keys keys seen).
Proof.
  induction keys as [| k rest IH]; intros seen; simpl; [constructor |].
  destruct (decide (k ∈ seen)); [apply IH |].
  constructor; [| apply IH].
  rewrite fresh_keys_elem. set_solver.
Qed.

End Resolution.

(** X5: the resolver reports one entry per distinct (chain, height) among
    the anchors of the tree, each naming its chain and height, in the
    order the pairs are first met; an entry is there whether its lookup
    succeeded or failed, and no pair is reported twice. *)
Theorem blockchain_proofs_entries (E : Env) (ts : Timestamp) (w : World) :
  core_import E = Ok tt →
  let proofs := (OTS._collect_blockchain_proofs E ts w).1 in
  let keys := omap entry_key proofs in
  length keys = length proofs
  ∧ NoDup keys
  ∧ (∀ key, key ∈ keys ↔ key ∈ anchor_keys (OTS.all_attestations E ts))
  ∧ keys = fresh_keys (anchor_keys (OTS.all_attestations E ts)) ∅.
Proof.
  intros Hcore proofs keys. subst keys proofs.
  unfold OTS._collect_blockchain_proofs. rewrite Hcore.
  destruct (collect_loop_entries E (OTS.all_attestations E ts) [] ∅ ∅ w)
    as (entries & Hrun & Hkeys & Hlen); [set_solver |].
  rewrite Hrun. simpl. rewrite Hkeys.
  split; [by rewrite Hlen |].
  split; [apply fresh_keys_NoDup |].
  split; [| done].
  intros key. rewrite fresh_keys_elem. set_solver.
Qed.

Lemma blockchain_proofs_entries_witness :
  omap entry_key
    (OTS._collect_blockchain_proofs Demo.demo_env two_anchor_tree
       Demo.empty_world).1
  = [("bitcoin", 800000)].
Proof.
  destruct (blockchain_proofs_entries Demo.demo_env two_anchor_tree
              Demo.empty_world eq_refl) as (_ & _ & _ & Hkeys).
  rewrite Hkeys. vm_compute. reflexivity.
Defined.

Section DisabledLookup.
Context (E : Env).
Hypothesis Hbtc : str_truthy (btc_block_hash_api (settings E)) = false.
Hypothesis Hltc : str_truthy (ltc_block_hash_api (settings E)) = false.

Lemma lookup_block_hash_disabled att chain height w :
  OTS.chain_of att = Some (chain, height) →
  OTS._lookup_block_hash E chain height w
  = ((None, Some "block hash api disabled"),
     extend w [EvBlockHashLookup chain height]).
Proof.
  intros Hchain. unfold OTS._lookup_block_hash. rewrite log_extend.
  destruct att; simpl in Hchain; simplify_eq; simpl.
  - by rewrite Hbtc.
  - by rewrite Hltc.
Qed.

Lemma collect_loop_disabled atts :
  ∀ proofs seen cache w,
    dom cache ⊆ seen →
    OTS.collect_loop E atts proofs seen cache w
    = (proofs ++ map (disabled_entry E) (fresh_keys (anchor_keys atts) seen),
       extend w (map (fun key : string * Z => EvBlockHashLookup key.1 key.2)
                   (fresh_keys (anchor_keys atts) seen))).
Proof.
  induction atts as [| [m att] rest IH]; intros proofs seen cache w Hdom.
  - simpl. by rewrite app_nil_r, extend_nil.
  - rewrite anchor_keys_cons. simpl OTS.collect_loop.
    destruct (OTS.chain_of att) as [[chain height] |] eqn:Hchain.
    2: { by apply IH. }
    simpl fresh_keys.
    destruct (decide ((chain, height) ∈ seen)) as [Hin | Hnotin].
    + by apply IH.
    + assert (Hmiss : cache !! (chain, height) = None).
      { apply not_elem_of_dom. set_solver. }
      unfold bind. rewrite Hmiss.
      rewrite (lookup_block_hash_disabled att chain height w Hchain).
      unfold ret. cbv zeta. cbn [TSA.opt_str_truthy str_truthy String.eqb negb].
      rewrite IH by (rewrite dom_insert; set_solver).
      rewrite extend_extend, <- app_assoc. done.
Qed.

End DisabledLookup.

(** X6: with no block-hash lookup API configured for either chain, the
    resolver sends no HTTP request at all: every distinct anchor is still
    reported, with no block hash, the error "block hash api disabled" and
    the explorer link built from its height alone. *)
Theorem blockchain_proofs_lookup_disabled (E : Env) (ts : Timestamp)
    (w : World) :
  core_import E = Ok tt →
  str_truthy (btc_block_hash_api (settings E)) = false →
  str_truthy (ltc_block_hash_api (settings E)) = false →
  let fresh := fresh_keys (anchor_keys (OTS.all_attestations E ts)) ∅ in
  let events := map (fun key : string * Z => EvBlockHashLookup key.1 key.2) fresh in
  OTS._collect_blockchain_proofs E ts w
  = (map (disabled_entry E) fresh, extend w events)
  ∧ count_events is_http_get events = 0%nat.
Proof.
  intros Hcore Hbtc Hltc fresh events.
  unfold OTS._collect_blockchain_proofs. rewrite Hcore.
  rewrite (collect_loop_disabled E Hbtc Hltc) by set_solver.
  split; [done |].
  unfold events. clear. induction fresh as [| k rest IH]; [done |].
  exact IH.
Qed.

Lemma blockchain_proofs_lookup_disabled_witness :
  trace (OTS._collect_blockchain_proofs no_lookup_env two_anchor_tree
           Demo.empty_world).2
  = [EvBlockHashLookup "bitcoin" 800000].
Proof.
  destruct (blockchain_proofs_lookup_disabled no_lookup_env two_anchor_tree
              Demo.empty_world eq_refl eq_refl eq_refl) as [Hrun _].
  rewrite Hrun. vm_compute. reflexivity.
Defined.

(** ** Upgrading pending attestations *)

Section Upgrades.
Context (E : Env).

(** The loop asks once per pending attestation, keeps the message of the
    tree and answers for each attestation; when nothing was merged the
    tree is the one it started from and every request is in the error
    list. *)
Lemma upgrade_loop_spec pending :
  ∀ ts upgraded upgrade_errors calendar_results w,
    let run :=
      OTS.upgrade_loop E pending ts upgraded upgrade_errors calendar_results w in
    run.2 = extend w (map upgrade_event pending)
    ∧ msg run.1.1.1.1 = msg ts
    ∧ length run.1.2 = (length calendar_results + length pending)%nat
    ∧ (upgraded = true → run.1.1.1.2 = true)
    ∧ (run.1.1.1.2 = false →
       run.1.1.1.1 = ts
       ∧ length run.1.1.2 = (length upgrade_errors + length pending)%nat).
Proof.
  induction pending as [| [[path m] uri] rest IH];
    intros ts upgraded upgrade_errors calendar_results w.
  - simpl. rewrite extend_nil, !Nat.add_0_r. done.
  - simpl OTS.upgrade_loop. unfold bind. rewrite ask_extend. cbv zeta.
    assert (Hfail : ∀ e,
      let run :=
        OTS.upgrade_loop E rest ts upgraded
          (upgrade_errors ++ [uri +:+ ": " +:+ e])
          (calendar_results ++
             [VDict [("uri", VStr uri); ("success", VBool false);
                     ("error", VStr e)]])
          (extend w [EvCalendarUpgrade uri m]) in
      run.2 = extend w (map upgrade_event ((path, m, uri) :: rest))
      ∧ msg run.1.1.1.1 = msg ts
      ∧ length run.1.2
        = (length calendar_results + length ((path, m, uri) :: rest))%nat
      ∧ (upgraded = true → run.1.1.1.2 = true)
      ∧ (run.1.1.1.2 = false →
         run.1.1.1.1 = ts
         ∧ length run.1.1.2
           = (length upgrade_errors + length ((path, m, uri) :: rest))%nat)).
    { intros e.
      match goal with
      | |- let run := OTS.upgrade_loop E rest ?t ?u ?er ?cr ?w0 in _ =>
          destruct (IH t u er cr w0) as (Htr & Hmsg & Hres & Hup & Hno)
      end.
      cbv zeta. rewrite Htr, Hmsg, Hres, extend_extend, !length_app.
      simpl. split; [done |]. split; [done |]. split; [lia |].
      split; [exact Hup |]. intros Hfalse.
      destruct (Hno Hfalse) as [Hts Herr]. split; [done |].
      rewrite Herr, length_app. simpl. lia. }
    destruct (calendar_get_timestamp E (trace w) uri m) as [cal_ts | e];
      [| apply Hfail].
    destruct (decide (m = msg cal_ts)); [| apply Hfail].
    match goal with
    | |- context [OTS.upgrade_loop E rest ?t ?u ?er ?cr ?w0] =>
        destruct (IH t u er cr w0) as (Htr & Hmsg & Hres & Hup & Hno)
    end.
    rewrite Htr, Hmsg, Hres, extend_extend, length_app. simpl.
    split; [done |]. split; [done |]. split; [lia |].
    split; [intros _; by apply Hup |].
    intros Hfalse. rewrite Hup in Hfalse; done.
Qed.

Lemma count_upgrades_lookups keys :
  count_events is_upgrade (flat_map (lookup_events E) keys) = 0%nat.
Proof.
  induction keys as [| k rest IH]; [done |].
  change (flat_map (lookup_events E) (k :: rest))
    with (lookup_events E k ++ flat_map (lookup_events E) rest).
  rewrite count_events_app, IH.
  unfold lookup_events, lookup_requests.
  destruct (api_template_of E k.1) as [t |]; [destruct (str_truthy t) |];
    reflexivity.
Qed.

Lemma count_upgrades_requests pending :
  count_events is_upgrade (map upgrade_event pending) = length pending.
Proof.
  induction pending as [| p rest IH]; [done |].
  change (map upgrade_event (p :: rest))
    with ([upgrade_event p] ++ map upgrade_event rest).
  rewrite count_events_app, IH. reflexivity.
Qed.

Lemma collect_blockchain_proofs_trace ts w :
  ∃ keys, (OTS._collect_blockchain_proofs E ts w).2
          = extend w (flat_map (lookup_events E) keys).
Proof.
  unfold OTS._collect_blockchain_proofs.
  destruct (core_import E) as [[] | e].
  - destruct (collect_loop_trace E (OTS.all_attestations E ts) [] ∅ ∅ w)
      as [Htrace _]; [set_solver |].
    eexists. exact Htrace.
  - exists []. simpl. by rewrite extend_nil.
Qed.

End Upgrades.

Section VerifyCore.
Context (E : Env).

(** [verify_ots] on the core-library path, for a proof that decodes and a
    digest that is accepted: the upgrades, then the resolution, then the
    answer. *)
Lemma verify_ots_core (ots_bytes : bytes) (hash_hex : option string)
    (op : Op) (ts : Timestamp) (w : World) :
  load_ots_client E = None →
  core_import E = Ok tt →
  detached_deserialize E ots_bytes = Ok (op, ts) →
  digest_accepted hash_hex ts →
  let loop :=
    OTS.upgrade_loop E (OTS._collect_pending_attestations E ts) ts false [] [] w in
  let ts' := loop.1.1.1.1 in
  let resolved := OTS._collect_blockchain_proofs E ts' loop.2 in
  OTS.verify_ots E ots_bytes hash_hex w
  = (match (if loop.1.1.1.2
            then match detached_serialize E op ts' with
                 | Ok out => Ok (Some out)
                 | Raise m => Raise m
                 end
            else Ok None) with
     | Raise m => OTS.failure m ∅
     | Ok updated =>
         {| OTS.success := true; OTS.error := None;
            OTS.info :=
              verified_info E hash_hex ts' resolved.1 loop.1.1.2 loop.1.2;
            OTS.ots_bytes := None;
            OTS.updated_ots_bytes := updated |}
     end, resolved.2).
Proof.
  intros Hclient Hcore Hdec Hacc. cbv zeta.
  destruct (upgrade_loop_spec E (OTS._collect_pending_attestations E ts)
              ts false [] [] w) as (_ & Hmsg & _).
  unfold OTS.verify_ots, bind, ret. rewrite Hclient, Hcore, Hdec.
  unfold verified_info.
  destruct Hacc as [Hacc | Hacc]; rewrite Hacc; cbv beta;
    destruct (OTS.upgrade_loop E (OTS._collect_pending_attestations E ts)
                ts false [] [] w)
      as [[[[ts' upgraded] upgrade_errors] calendar_results] w1];
    simpl in Hmsg; cbn [fst snd]; rewrite Hmsg;
    destruct (OTS._collect_blockchain_proofs E ts' w1) as [proofs w2];
    cbn [fst snd]; rewrite Hacc;
    (destruct upgraded; [destruct (detached_serialize E op ts') |]; done).
Qed.

End VerifyCore.

(** X7: on the core-library path, verifying a proof that decodes (with a
    digest that is accepted) sends exactly one upgrade request per pending
    attestation of the tree, in the order of the walk, before any block
    hash is looked up; a tree without pending attestations causes no
    upgrade request and no rewritten proof. *)
Theorem verify_ots_upgrade_requests (E : Env) (ots_bytes : bytes)
    (hash_hex : option string) (op : Op) (ts : Timestamp) (w : World) :
  load_ots_client E = None →
  core_import E = Ok tt →
  detached_deserialize E ots_bytes = Ok (op, ts) →
  digest_accepted hash_hex ts →
  let pending := OTS._collect_pending_attestations E ts in
  let run := OTS.verify_ots E ots_bytes hash_hex w in
  (∃ lookups,
     run.2 = extend w (map upgrade_event pending ++ lookups)
     ∧ count_events is_upgrade lookups = 0%nat
     ∧ count_events is_upgrade (map upgrade_event pending ++ lookups)
       = length pending)
  ∧ (pending = [] →
     OTS.success run.1 = true
     ∧ OTS.updated_ots_bytes run.1 = None
     ∧ OTS.info run.1 !! "calendar_results" = None
     ∧ OTS.info run.1 !! "upgrade_errors" = None).
Proof.
  intros Hclient Hcore Hdec Hacc pending run.
  unfold run. rewrite (verify_ots_core E ots_bytes hash_hex op ts w) by done.
  fold pending. simpl.
  destruct (upgrade_loop_spec E pending ts false [] [] w)
    as (Htrace & _ & _ & _ & _).
  split.
  - destruct (collect_blockchain_proofs_trace E
                (OTS.upgrade_loop E pending ts false [] [] w).1.1.1.1
                (OTS.upgrade_loop E pending ts false [] [] w).2)
      as [keys Hkeys].
    exists (flat_map (lookup_events E) keys).
    rewrite Hkeys, Htrace, extend_extend.
    split; [done |]. split; [apply count_upgrades_lookups |].
    by rewrite count_events_app, count_upgrades_requests,
         count_upgrades_lookups, Nat.add_0_r.
  - intros Hnone. rewrite Hnone. simpl.
    unfold verified_info. simpl.
    assert (Hkeys : ∀ info : gmap string Value,
              info !! "calendar_results" = None →
              info !! "upgrade_errors" = None →
              match OTS.check_hash hash_hex (msg ts) with
              | OTS.Match => <["hash_match" := VBool true]> info
              | _ => info
              end !! "calendar_results" = None
              ∧ match OTS.check_hash hash_hex (msg ts) with
                | OTS.Match => <["hash_match" := VBool true]> info
                | _ => info
                end !! "upgrade_errors" = None).
    { intros info H1 H2.
      destruct (OTS.check_hash hash_hex (msg ts));
        by rewrite ?lookup_insert_ne. }
    split; [done |]. split; [done |].
    apply Hkeys.
    + unfold OTS.set_if_any, OTS._collect_attestation_info. rewrite Hcore.
      destruct (OTS._collect_blockchain_proofs E ts w).1;
        by rewrite ?lookup_insert_ne.
    + unfold OTS.set_if_any, OTS._collect_attestation_info. rewrite Hcore.
      destruct (OTS._collect_blockchain_proofs E ts w).1;
        by rewrite ?lookup_insert_ne.
Qed.

Lemma verify_ots_upgrade_requests_witness :
  trace (OTS.verify_ots Demo.demo_env (x02 :: Demo.digest32)
           (Some Demo.digest32_hex) Demo.empty_world).2
  = [EvCalendarUpgrade Demo.calendar_a Demo.digest32].
Proof.
  destruct (verify_ots_upgrade_requests Demo.demo_env (x02 :: Demo.digest32)
              (Some Demo.digest32_hex) OpSHA256
              {| msg := Demo.digest32;
                 node := MkNode [PendingAttestation Demo.calendar_a] [] |}
              Demo.empty_world eq_refl eq_refl eq_refl)
    as [(lookups & Htrace & _) _].
  - left. vm_compute. reflexivity.
  - vm_compute. reflexivity.
Defined.

(** ** Calls that only talk to the outside *)

Section Logging.
Context (E : Env).



Lemma only_logs_ask {A} (e : Event) (answer : list Event → A) :
  only_logs (ask e answer).
Proof. intros w. by exists [e]. Qed.

Lemma create_ots_logs hash calendars :
  only_logs (OTS.create_ots E hash calendars).
Proof.
  intros w. unfold OTS.create_ots, OTS._create_ots_with_calendar, bind, ret.
  destruct (load_ots_client E) as [client |].
  - destruct (fromhex hash) as [digest |];
      [| exists []; by rewrite extend_nil].
    rewrite ask_extend.
    exists [EvClientStamp digest].
    destruct (ots_stamp client (trace w) (new_timestamp digest)) as [ts | e];
      [| done].
    by destruct (timestamp_serialize E ts).
  - destruct (core_import E) as [[] | e];
      [| exists []; by rewrite extend_nil].
    destruct (default [] calendars) as [| url rest] eqn:Hcal;
      [exists []; by rewrite extend_nil |].
    destruct (fromhex hash) as [digest |];
      [| exists []; by rewrite extend_nil].
    rewrite submit_loop_spec. cbv zeta.
    exists (submissions digest (url :: rest)). simpl.
    destruct (decide _); [done |].
    by destruct (detached_serialize E OpSHA256 _).
Qed.

Lemma create_tsa_logs hash tsa_url :
  only_logs (TSA.create_tsa E hash tsa_url).
Proof.
  intros w. unfold TSA.create_tsa, bind, ret.
  destruct (negb (str_truthy tsa_url)); [exists []; by rewrite extend_nil |].
  destruct (rfc3161ng_import E) as [[] | e];
    [| exists []; by rewrite extend_nil].
  destruct (fromhex hash) as [digest |];
    [| exists []; by rewrite extend_nil].
  rewrite ask_extend. exists [EvTsaRequest tsa_url digest].
  destruct (remote_timestamper E (trace w) tsa_url digest) as [resp | e];
    [| done].
  destruct (TSA._response_to_bytes resp) as [tsr |]; [| done].
  destruct (negb (bytes_truthy tsr)); [done |].
  destruct (TSA._extract_tsa_info E tsr) as [info error].
  by destruct (TSA.opt_str_truthy error).
Qed.

(** A token that [create_tsa] hands over is not empty. *)
Lemma create_tsa_success_bytes hash tsa_url w :
  TSA.success (TSA.create_tsa E hash tsa_url w).1 = true →
  ∃ tsr, TSA.tsr_bytes (TSA.create_tsa E hash tsa_url w).1 = Some tsr
         ∧ bytes_truthy tsr = true.
Proof.
  unfold TSA.create_tsa, bind, ret.
  destruct (negb (str_truthy tsa_url)); [done |].
  destruct (rfc3161ng_import E) as [[] | e]; [| done].
  destruct (fromhex hash) as [digest |]; [| done].
  rewrite ask_extend.
  destruct (remote_timestamper E (trace w) tsa_url digest) as [resp | e];
    [| done].
  destruct (TSA._response_to_bytes resp) as [tsr |]; [| done].
  destruct (bytes_truthy tsr) eqn:Htsr; cbn [negb]; [| done].
  destruct (TSA._extract_tsa_info E tsr) as [info error].
  destruct (TSA.opt_str_truthy error); [done |].
  intros _. by exists tsr.
Qed.

End Logging.

(** ** Submissions that are not saved *)


(** ** Submitting a digest again *)



(** ** Submissions that are saved *)

Section Saved.
Context (E : Env).

Lemma save_ots_file_spec files_dir hash content w :
  Storage.save_ots_file files_dir hash content w
  = (ots_target files_dir hash,
     {| trace := trace w; db := db w;
        files := <[ots_target files_dir hash := content]> (files w);
        dirs := {[Storage.evidence_dir files_dir hash]} ∪ dirs w |}).
Proof. reflexivity. Qed.

Lemma save_tsa_file_spec files_dir hash content w :
  Storage.save_tsa_file files_dir hash content w
  = (tsa_target files_dir hash,
     {| trace := trace w; db := db w;
        files := <[tsa_target files_dir hash := content]> (files w);
        dirs := {[Storage.evidence_dir files_dir hash]} ∪ dirs w |}).
Proof. reflexivity. Qed.

Lemma path_join_truthy a p :
  str_truthy p = true → str_truthy (path_join a p) = true.
Proof.
  intros Hp. unfold path_join.
  destruct (startswith _ _); [done |].
  destruct (String.eqb a "") eqn:Ha; [done |].
  destruct a as [| c a]; [done |].
  by destruct (startswith _ _).
Qed.

Lemma ots_target_truthy files_dir hash :
  str_truthy (ots_target files_dir hash) = true.
Proof. apply path_join_truthy. by destruct hash. Qed.

Lemma tsa_target_truthy files_dir hash :
  str_truthy (tsa_target files_dir hash) = true.
Proof. apply path_join_truthy. by destruct hash. Qed.

Lemma nonempty_truthy (x : option bytes) (c : bytes) :
  Evidence.nonempty x = Some c ↔ x = Some c ∧ bytes_truthy c = true.
Proof.
  unfold Evidence.nonempty. destruct x as [x |].
  - destruct (bytes_truthy x) eqn:Hx.
    + split; [by intros [= <-] | by intros [[= <-] _]].
    + split; [done | intros [[= <-] Hc]; congruence].
  - split; [done | by intros [? _]].
Qed.

(** A file that can be read stays so when non-empty bytes are written,
    whether to it or to another file. *)
Lemma readable_insert path target content w w' :
  files w' = <[target := content]> (files w) →
  bytes_truthy content = true →
  readable path w = true → readable path w' = true.
Proof.
  intros Hfiles Hc. unfold readable, Storage.read_file.
  destruct path as [p |]; [| done].
  destruct (str_truthy p); [| done]. simpl. rewrite Hfiles.
  destruct (decide (p = target)) as [-> | Hne].
  - rewrite lookup_insert_eq. simpl. by rewrite Hc.
  - by rewrite lookup_insert_ne.
Qed.

Lemma readable_written target content w' :
  str_truthy target = true →
  bytes_truthy content = true →
  files w' !! target = Some content →
  readable (Some target) w' = true.
Proof.
  intros Ht Hc Hfile. unfold readable, Storage.read_file.
  rewrite Ht. simpl. rewrite Hfile. simpl. by rewrite Hc.
Qed.

(** A proof that [create_ots] hands over is not empty when the library
    serializes to something. *)
Lemma create_ots_success_bytes hash calendars w :
  serializes_nonempty E →
  OTS.success (OTS.create_ots E hash calendars w).1 = true →
  ∃ c, OTS.ots_bytes (OTS.create_ots E hash calendars w).1 = Some c
       ∧ bytes_truthy c = true.
Proof.
  intros [Hdet Hts].
  unfold OTS.create_ots, OTS._create_ots_with_calendar, bind, ret.
  destruct (load_ots_client E) as [client |].
  - destruct (fromhex hash) as [digest |]; [| done].
    rewrite ask_extend.
    destruct (ots_stamp client (trace w) (new_timestamp digest)) as [ts | e];
      [| done].
    destruct (timestamp_serialize E ts) as [out | e] eqn:Hout; [| done].
    intros _. exists out. split; [done |].
    apply Hts in Hout. by destruct out.
  - destruct (core_import E) as [[] | e]; [| done].
    destruct (default [] calendars) as [| url rest] eqn:Hcal; [done |].
    destruct (fromhex hash) as [digest |]; [| done].
    rewrite submit_loop_spec. cbv zeta. simpl.
    destruct (decide _); [done |].
    destruct (detached_serialize E OpSHA256 _) as [out | e] eqn:Hout; [| done].
    intros _. exists out. split; [done |].
    apply Hdet in Hout. by destruct out.
Qed.

(** What the OTS block of a saved submission does to the stores: nothing,
    or one write of non-empty bytes to the proof file of the digest. *)
Lemma ots_block_saved_effect files_dir hash enabled status path w :
  let run := Evidence.ots_block_saved E files_dir hash enabled status path w in
  let res :=
    (OTS.create_ots E hash (Some (ots_calendar_urls (settings E))) w).1 in
  db run.2 = db w
  ∧ (∃ evs, trace run.2 = trace w ++ evs)
  ∧ ((files run.2 = files w ∧ dirs run.2 = dirs w ∧ run.1.2 = path
      ∧ (run.1.1.1 = "success" →
         status = "success"
         ∨ (OTS.success res = true ∧ Evidence.nonempty (OTS.ots_bytes res) = None)))
     ∨ (∃ content,
          bytes_truthy content = true
          ∧ files run.2 = <[ots_target files_dir hash := content]> (files w)
          ∧ dirs run.2 = {[Storage.evidence_dir files_dir hash]} ∪ dirs w
          ∧ run.1.2 = Some (ots_target files_dir hash))).
Proof.
  cbv zeta. unfold Evidence.ots_block_saved, bind, ret.
  destruct (String.eqb status "success") eqn:Hs; cbn [negb].
  { apply String.eqb_eq in Hs. split; [done |].
    split; [exists []; by rewrite app_nil_r |]. left. auto. }
  destruct enabled.
  2: { split; [done |]. split; [exists []; by rewrite app_nil_r |].
       left. simpl. repeat split; done. }
  destruct (create_ots_logs E hash (Some (ots_calendar_urls (settings E))) w)
    as [evs Hw].
  destruct (OTS.create_ots E hash _ w) as [res w1]. simpl in Hw. subst w1.
  cbn [fst snd].
  destruct (OTS.success res) eqn:Hok.
  - destruct (Evidence.nonempty (OTS.ots_bytes res)) as [content |] eqn:Hne.
    + rewrite save_ots_file_spec. simpl.
      split; [done |]. split; [by exists evs |]. right.
      exists content. apply nonempty_truthy in Hne as [_ Hc]. done.
    + simpl. split; [done |]. split; [by exists evs |]. left.
      repeat split; try done. intros _. by right.
  - simpl. split; [done |]. split; [by exists evs |]. left.
    repeat split; done.
Qed.

(** The same for the TSA block; a token handed over is never empty. *)
Lemma tsa_block_saved_effect files_dir tsa_url hash enabled status path w :
  let run :=
    Evidence.tsa_block_saved E files_dir tsa_url hash enabled status path w in
  db run.2 = db w
  ∧ (∃ evs, trace run.2 = trace w ++ evs)
  ∧ ((files run.2 = files w ∧ dirs run.2 = dirs w ∧ run.1.2 = path
      ∧ (run.1.1.1.1 = "success" → status = "success"))
     ∨ (∃ content,
          bytes_truthy content = true
          ∧ files run.2 = <[tsa_target files_dir hash := content]> (files w)
          ∧ dirs run.2 = {[Storage.evidence_dir files_dir hash]} ∪ dirs w
          ∧ run.1.2 = Some (tsa_target files_dir hash))).
Proof.
  cbv zeta. unfold Evidence.tsa_block_saved, bind, ret.
  destruct (String.eqb status "success") eqn:Hs; cbn [negb].
  { apply String.eqb_eq in Hs. split; [done |].
    split; [exists []; by rewrite app_nil_r |]. left. auto. }
  destruct enabled.
  2: { split; [done |]. split; [exists []; by rewrite app_nil_r |].
       left. simpl. repeat split; done. }
  destruct (create_tsa_logs E hash tsa_url w) as [evs Hw].
  pose proof (create_tsa_success_bytes E hash tsa_url w) as Hb.
  destruct (TSA.create_tsa E hash tsa_url w) as [res w1].
  simpl in Hw, Hb. subst w1. cbn [fst snd].
  destruct (TSA.success res) eqn:Hok.
  - destruct (Hb eq_refl) as (tsr & Htsr & Hc).
    rewrite Htsr. unfold Evidence.nonempty. rewrite Hc.
    rewrite save_tsa_file_spec. simpl.
    split; [done |]. split; [by exists evs |]. right. by exists tsr.
  - simpl. split; [done |]. split; [by exists evs |]. left.
    repeat split; done.
Qed.

(** A saved submission, for a record that is in the store: the two blocks
    run one after the other, then the record is rewritten. *)
Lemma process_saved_world files_dir tsa_url hash
    (ots_enabled tsa_enabled : bool) name_base ots_status tsa_status row w :
  db w !! hash = Some row →
  let ob :=
    Evidence.ots_block_saved E files_dir hash ots_enabled
      (Evidence.recheck ots_status (row_ots_path row) w).1
      (row_ots_path row) w in
  let tb :=
    Evidence.tsa_block_saved E files_dir tsa_url hash tsa_enabled
      (Evidence.recheck tsa_status (row_tsa_path row) w).1
      (row_tsa_path row) ob.2 in
  let stored :=
    {| row_ots_status := ob.1.1.1; row_tsa_status := tb.1.1.1.1;
       row_ots_path := ob.1.2; row_tsa_path := tb.1.2;
       row_created_at := row_created_at row;
       row_updated_at := datetime_now E (trace tb.2) |} in
  let run :=
    Evidence.process_saved E files_dir tsa_url hash ots_enabled tsa_enabled
      name_base ots_status tsa_status (Some row) w in
  run.2 = {| trace := trace tb.2 ++ [EvDatetimeNow];
             db := <[hash := stored]> (db w);
             files := files tb.2; dirs := dirs tb.2 |}
  ∧ Evidence.record run.1 = Some stored.
Proof.
  intros Hrow. cbv zeta.
  unfold Evidence.process_saved, bind. simpl.
  rewrite !recheck_spec. simpl.
  match goal with
  | |- context [Evidence.ots_block_saved E files_dir hash ots_enabled ?s ?p w] =>
      pose proof (ots_block_saved_db E files_dir hash ots_enabled s p w) as Hodb;
      destruct (Evidence.ots_block_saved E files_dir hash ots_enabled s p w)
        as [[[os oe] op] w1]
  end.
  simpl in Hodb |- *.
  match goal with
  | |- context [Evidence.tsa_block_saved E files_dir tsa_url hash tsa_enabled
                  ?s ?p w1] =>
      pose proof (tsa_block_saved_db E files_dir tsa_url hash tsa_enabled s p w1)
        as Htdb;
      destruct (Evidence.tsa_block_saved E files_dir tsa_url hash tsa_enabled
                  s p w1) as [[[[tst te] ti] tp] w2]
  end.
  simpl in Htdb |- *.
  erewrite update_statuses_found by (by rewrite Htdb, Hodb).
  unfold evidence_repo.fetch_by_hash, ret. simpl.
  rewrite Htdb, Hodb, !lookup_insert_eq. done.
Qed.

End Saved.

Section SavedSubmission.
Context (E : Env).

(** A saved submission is the saved branch run on the record of the
    digest, once the record is there. *)
Lemma process_submission_saved files_dir tsa_url hash
    (ots_enabled tsa_enabled : bool) name_base w :
  ∃ row0,
    db (opening E hash true w) !! hash = Some row0
    ∧ Evidence.process_submission E files_dir tsa_url hash ots_enabled
        tsa_enabled true name_base w
      = Evidence.process_saved E files_dir tsa_url hash ots_enabled tsa_enabled
          name_base (row_ots_status row0) (row_tsa_status row0) (Some row0)
          (opening E hash true w).
Proof.
  unfold Evidence.process_submission, opening, bind,
    evidence_repo.fetch_by_hash. simpl.
  destruct (db w !! hash) as [row |] eqn:Hrow.
  - exists row. by rewrite Hrow.
  - exists (pending_row (datetime_now E (trace w))).
    rewrite !Hrow. fold (pending_row (datetime_now E (trace w))).
    cbn [db]. by rewrite !lookup_insert_eq.
Qed.


End SavedSubmission.


(** What a saved submission leaves: the record it answers with is the
    stored one, with the statuses of the answer, and a status of "success"
    has its proof file. *)
Lemma saved_record_invariant (E : Env) (files_dir tsa_url hash : string)
    (ots_enabled tsa_enabled : bool) (name_base : option string) (w : World) :
  serializes_nonempty E →
  let run :=
    Evidence.process_submission E files_dir tsa_url hash ots_enabled
      tsa_enabled true name_base w in
  ∃ row,
    db run.2 !! hash = Some row
    ∧ Evidence.record run.1 = Some row
    ∧ row_ots_status row = Evidence.ots_status run.1
    ∧ row_tsa_status row = Evidence.tsa_status run.1
    ∧ (row_ots_status row = "success" → readable (row_ots_path row) run.2 = true)
    ∧ (row_tsa_status row = "success" → readable (row_tsa_path row) run.2 = true).
Proof.
  intros Hser run. subst run.
  destruct (process_submission_saved E files_dir tsa_url hash ots_enabled
              tsa_enabled name_base w) as (row0 & Hrow0 & ->).
  destruct (process_saved_world E files_dir tsa_url hash ots_enabled
              tsa_enabled name_base (row_ots_status row0) (row_tsa_status row0)
              row0 (opening E hash true w) Hrow0) as [Hw Hrec].
  destruct (process_saved_statuses E files_dir tsa_url hash ots_enabled
              tsa_enabled name_base (row_ots_status row0) (row_tsa_status row0)
              row0 (opening E hash true w) Hrow0)
    as (_ & _ & row' & _ & Hrec' & Hos & Hts).
  rewrite Hrec in Hrec'. injection Hrec' as <-.
  rewrite Hrec, <- Hos, <- Hts. clear Hrec Hos Hts.
  rewrite Hw. clear Hw. cbn [fst snd db].
  set (w0 := opening E hash true w) in *.
  pose proof (recheck_success (row_ots_status row0) (row_ots_path row0) w0)
    as Hs1.
  pose proof (recheck_success (row_tsa_status row0) (row_tsa_path row0) w0)
    as Ht1.
  set (s1 := (Evidence.recheck (row_ots_status row0) (row_ots_path row0) w0).1)
    in *.
  set (t1 := (Evidence.recheck (row_tsa_status row0) (row_tsa_path row0) w0).1)
    in *.
  destruct (ots_block_saved_effect E files_dir hash ots_enabled s1
              (row_ots_path row0) w0) as (_ & _ & Ho).
  pose proof (create_ots_success_bytes E hash
                (Some (ots_calendar_urls (settings E))) w0 Hser) as Hbytes.
  set (ob := Evidence.ots_block_saved E files_dir hash ots_enabled s1
               (row_ots_path row0) w0) in *.
  destruct (tsa_block_saved_effect E files_dir tsa_url hash tsa_enabled t1
              (row_tsa_path row0) ob.2) as (_ & _ & Ht).
  set (tb := Evidence.tsa_block_saved E files_dir tsa_url hash tsa_enabled t1
               (row_tsa_path row0) ob.2) in *.
  assert (Hkept : ∀ status path s,
            String.eqb s "success" = kept status path w0 →
            s = "success" → readable path w0 = true).
  { intros status path s Heq ->. simpl in Heq. symmetry in Heq.
    unfold kept in Heq. by apply andb_true_iff in Heq as [_ ?]. }
  (* what the OTS block leaves readable *)
  assert (Hob : (ob.1.1.1 = "success" → readable ob.1.2 ob.2 = true)
                ∧ ∀ path, readable path w0 = true → readable path ob.2 = true).
  { destruct Ho as [(Hf & _ & Hp & Hst) | (c & Hc & Hf & _ & Hp)].
    - split.
      + intros Hsucc. rewrite Hp, (readable_ext _ w0 ob.2 Hf).
        destruct (Hst Hsucc) as [Hs | [Hok Hnone]].
        * by eapply Hkept.
        * destruct (Hbytes Hok) as (c & Hc & Htruthy).
          assert (Evidence.nonempty
                    (OTS.ots_bytes
                       (OTS.create_ots E hash
                          (Some (ots_calendar_urls (settings E))) w0).1)
                  = Some c) as Hsome by (by apply nonempty_truthy).
          congruence.
      + intros path Hr. by rewrite (readable_ext _ w0 ob.2 Hf).
    - split.
      + intros _. rewrite Hp.
        apply (readable_written _ c); [apply ots_target_truthy | done |].
        rewrite Hf. apply lookup_insert_eq.
      + intros path Hr. by eapply (readable_insert path _ c w0). }
  destruct Hob as [Hob1 Hob2].
  assert (Htb : (tb.1.1.1.1 = "success" → readable tb.1.2 tb.2 = true)
                ∧ ∀ path, readable path ob.2 = true → readable path tb.2 = true).
  { destruct Ht as [(Hf & _ & Hp & Hst) | (c & Hc & Hf & _ & Hp)].
    - split.
      + intros Hsucc. rewrite Hp, (readable_ext _ ob.2 tb.2 Hf).
        apply Hob2. eapply Hkept; [exact Ht1 | by apply Hst].
      + intros path Hr. by rewrite (readable_ext _ ob.2 tb.2 Hf).
    - split.
      + intros _. rewrite Hp.
        apply (readable_written _ c); [apply tsa_target_truthy | done |].
        rewrite Hf. apply lookup_insert_eq.
      + intros path Hr. by eapply (readable_insert path _ c ob.2). }
  destruct Htb as [Htb1 Htb2].
  eexists. split; [apply lookup_insert_eq |].
  split; [done |]. split; [done |]. split; [done |].
  cbn [row_ots_status row_tsa_status row_ots_path row_tsa_path].
  split; intros Hsucc.
  - rewrite (readable_ext _ tb.2 _) by done. by apply Htb2, Hob1.
  - rewrite (readable_ext _ tb.2 _) by done. by apply Htb1.
Qed.

(** X11: when the library never serializes a proof to no bytes, a saved
    submission leaves a record in which a status of "success" always has
    its proof file: the stored path names a file that can be read and is
    not empty. *)
Theorem saved_success_has_file (E : Env) (files_dir tsa_url hash : string)
    (ots_enabled tsa_enabled : bool) (name_base : option string) (w : World) :
  serializes_nonempty E →
  let run :=
    Evidence.process_submission E files_dir tsa_url hash ots_enabled
      tsa_enabled true name_base w in
  ∃ row,
    db run.2 !! hash = Some row
    ∧ (row_ots_status row = "success" → readable (row_ots_path row) run.2 = true)
    ∧ (row_tsa_status row = "success" → readable (row_tsa_path row) run.2 = true).
Proof.
  intros Hser run.
  destruct (saved_record_invariant E files_dir tsa_url hash ots_enabled
              tsa_enabled name_base w Hser) as (row & Hdb & _ & _ & _ & Ho & Ht).
  by exists row.
Qed.

Lemma saved_success_has_file_witness :
  ∃ row,
    db (Evidence.process_submission Demo.demo_env "/data/files"
          "https://tsa.example/tsr" "abab" true true true None
          Demo.empty_world).2 !! "abab" = Some row
    ∧ (row_ots_status row = "success" →
       readable (row_ots_path row)
         (Evidence.process_submission Demo.demo_env "/data/files"
            "https://tsa.example/tsr" "abab" true true true None
            Demo.empty_world).2 = true).
Proof.
  destruct (saved_success_has_file Demo.demo_env "/data/files"
              "https://tsa.example/tsr" "abab" true true None Demo.empty_world)
    as (row & Hrow & Hots & _).
  - split; [intros op ts out H | intros ts out H];
      cbn in H; injection H as <-; discriminate.
  - by exists row.
Defined.

(** ** Proof files *)

Section ProofFiles.

Lemma list_byte_of_string_app (a b : string) :
  list_byte_of_string (a +:+ b)
  = list_byte_of_string a ++ list_byte_of_string b.
Proof.
  unfold list_byte_of_string.
  induction a as [| c a IH]; [done |]. simpl. by rewrite IH.
Qed.

Lemma string_app_inj_l (a p q : string) : a +:+ p = a +:+ q → p = q.
Proof.
  induction a as [| c a IH]; [done |]. simpl. intros [= H]. by apply IH.
Qed.

Lemma startswith_self (x y : bytes) : startswith (x ++ y) x = true.
Proof.
  induction x as [| c x IH]; simpl; [by destruct y |].
  by rewrite decide_True.
Qed.

Lemma no_slash_startswith (l : bytes) :
  byte_in (byte_of_N 47) l = false → startswith l (bytes_of "/") = false.
Proof.
  unfold byte_in. intros Hin. apply bool_decide_eq_false in Hin.
  destruct l as [| d l]; [done |].
  change (bytes_of "/") with [byte_of_N 47]. simpl.
  destruct (decide (byte_of_N 47 = d)) as [<- |]; [| done].
  destruct Hin. apply list_elem_of_here.
Qed.

(** [os.path.join(base_dir, name)], for a plain name, is an entry of
    [base_dir]. *)
Lemma entry_of_joined (base_dir name : string) :
  byte_in (byte_of_N 47) (list_byte_of_string name) = false →
  bytes_truthy (list_byte_of_string name) = true →
  Storage.is_entry_of base_dir (path_join base_dir name) = true.
Proof.
  intros Hslash Hname.
  assert (Hok : ∀ pre : bytes,
            startswith (pre ++ list_byte_of_string name) pre
            && (bytes_truthy
                  (drop (length pre) (pre ++ list_byte_of_string name))
                && negb (byte_in (byte_of_N 47)
                           (drop (length pre)
                              (pre ++ list_byte_of_string name)))) = true).
  { intros pre. rewrite startswith_self, drop_app_length, Hname, Hslash. done. }
  unfold Storage.is_entry_of, path_join.
  rewrite (no_slash_startswith _ Hslash).
  change (startswith (list_byte_of_string "") (bytes_of "/")) with false.
  cbv iota.
  destruct (String.eqb base_dir "") eqn:Hbase.
  - apply (Hok []).
  - destruct (startswith (rev (list_byte_of_string base_dir)) (bytes_of "/")).
    + rewrite !list_byte_of_string_app.
      change (list_byte_of_string "") with (@nil byte).
      rewrite app_nil_r. apply Hok.
    + rewrite !list_byte_of_string_app.
      change (list_byte_of_string "") with (@nil byte).
      rewrite app_nil_r, (app_assoc (list_byte_of_string base_dir)).
      apply Hok.
Qed.

Lemma proof_name_plain (hash suffix : string) :
  no_slash hash = true →
  byte_in (byte_of_N 47) (list_byte_of_string suffix) = false →
  bytes_truthy (list_byte_of_string suffix) = true →
  byte_in (byte_of_N 47) (list_byte_of_string (hash +:+ suffix)) = false
  ∧ bytes_truthy (list_byte_of_string (hash +:+ suffix)) = true.
Proof.
  unfold no_slash, byte_in. intros Hh Hs Ht.
  apply negb_true_iff, bool_decide_eq_false in Hh.
  apply bool_decide_eq_false in Hs.
  rewrite list_byte_of_string_app. split.
  - apply bool_decide_eq_false. rewrite elem_of_app. tauto.
  - destruct (list_byte_of_string hash); [done | done].
Qed.

Lemma ots_target_entry files_dir hash :
  no_slash hash = true →
  Storage.is_entry_of (Storage.evidence_dir files_dir hash)
    (ots_target files_dir hash) = true.
Proof.
  intros Hh. destruct (proof_name_plain hash ".ots" Hh) as [H1 H2]; [done.. |].
  by apply entry_of_joined.
Qed.

Lemma tsa_target_entry files_dir hash :
  no_slash hash = true →
  Storage.is_entry_of (Storage.evidence_dir files_dir hash)
    (tsa_target files_dir hash) = true.
Proof.
  intros Hh. destruct (proof_name_plain hash ".tsr" Hh) as [H1 H2]; [done.. |].
  by apply entry_of_joined.
Qed.

Lemma targets_differ files_dir hash :
  ots_target files_dir hash ≠ tsa_target files_dir hash.
Proof.
  unfold ots_target, tsa_target, path_join.
  assert (Hhead : startswith (list_byte_of_string (hash +:+ ".ots")) (bytes_of "/")
                  = startswith (list_byte_of_string (hash +:+ ".tsr")) (bytes_of "/")).
  { rewrite !list_byte_of_string_app.
    change (bytes_of "/") with [byte_of_N 47].
    destruct (list_byte_of_string hash); [by vm_compute |].
    assert (Hnil : ∀ x : bytes, startswith x [] = true) by (by intros []).
    simpl. by rewrite !Hnil. }
  rewrite Hhead.
  assert (Hne : hash +:+ ".ots" ≠ hash +:+ ".tsr").
  { intros H. apply string_app_inj_l in H. discriminate. }
  destruct (startswith (list_byte_of_string (hash +:+ ".tsr")) _); [done |].
  destruct (String.eqb _ ""); [done |].
  destruct (startswith (rev _) _); intros H; apply string_app_inj_l in H;
    [done |].
  by apply (string_app_inj_l "/") in H.
Qed.

End ProofFiles.

(** X12: the proofs saved for a digest can be read back: after
    [save_ots_file] and [save_tsa_file], [read_file] of each returned path
    gives the bytes written there, the two paths differ, both name entries
    of the directory of the digest, which exists, and no other file has
    changed. *)
Theorem saved_proofs_read_back (files_dir hash : string) (c1 c2 : bytes)
    (w : World) :
  no_slash hash = true →
  let s1 := Storage.save_ots_file files_dir hash c1 w in
  let s2 := Storage.save_tsa_file files_dir hash c2 s1.2 in
  s1.1 ≠ s2.1
  ∧ Storage.read_file (Some s1.1) s2.2 = (Some c1, s2.2)
  ∧ Storage.read_file (Some s2.1) s2.2 = (Some c2, s2.2)
  ∧ Storage.is_entry_of (Storage.evidence_dir files_dir hash) s1.1 = true
  ∧ Storage.is_entry_of (Storage.evidence_dir files_dir hash) s2.1 = true
  ∧ Storage.evidence_dir files_dir hash ∈ dirs s2.2
  ∧ (∀ p, p ≠ s1.1 → p ≠ s2.1 → files s2.2 !! p = files w !! p).
Proof.
  intros Hh s1 s2. subst s1 s2.
  rewrite save_tsa_file_spec, save_ots_file_spec. cbn [fst snd files dirs].
  pose proof (targets_differ files_dir hash) as Hne.
  split; [done |]. unfold Storage.read_file.
  rewrite ots_target_truthy, tsa_target_truthy. cbn [files].
  rewrite lookup_insert_eq, lookup_insert_ne, lookup_insert_eq by done.
  split; [done |]. split; [done |].
  split; [by apply ots_target_entry |].
  split; [by apply tsa_target_entry |].
  split; [set_solver |].
  intros p Hp1 Hp2. by rewrite !lookup_insert_ne.
Qed.

Lemma saved_proofs_read_back_witness :
  Storage.read_file (Some "/data/files/abab/abab.ots")
    (Storage.save_tsa_file "/data/files" "abab" Demo.demo_der
       (Storage.save_ots_file "/data/files" "abab" (x00 :: Demo.digest32)
          Demo.empty_world).2).2
  = (Some (x00 :: Demo.digest32),
     (Storage.save_tsa_file "/data/files" "abab" Demo.demo_der
        (Storage.save_ots_file "/data/files" "abab" (x00 :: Demo.digest32)
           Demo.empty_world).2).2).
Proof.
  destruct (saved_proofs_read_back "/data/files" "abab" (x00 :: Demo.digest32)
              Demo.demo_der Demo.empty_world eq_refl) as (_ & Hread & _).
  exact Hread.
Defined.

(** ** Deleting a record that exists *)




(** ** What verification writes *)

Section VerificationWrites.
Context (E : Env).







End VerificationWrites.



(** ** The answers of the OpenTimestamps service *)

Section OtsAnswers.
Context (E : Env).

Lemma check_hash_match (hash_hex : option string) (m : bytes) :
  OTS.check_hash hash_hex m = OTS.Match →
  TSA.opt_str_truthy hash_hex = true
  ∧ fromhex (default "" hash_hex) = Some m.
Proof.
  unfold OTS.check_hash. destruct (TSA.opt_str_truthy hash_hex); [| done].
  destruct (fromhex (default "" hash_hex)) as [expected |]; [| done].
  destruct (decide (m ≠ expected)) as [| Heq]; [done |].
  apply dec_stable in Heq. by subst.
Qed.

Lemma check_hash_no_digest (hash_hex : option string) (m : bytes) :
  OTS.check_hash hash_hex m = OTS.NoDigest →
  TSA.opt_str_truthy hash_hex = false.
Proof.
  unfold OTS.check_hash. destruct (TSA.opt_str_truthy hash_hex); [| done].
  destruct (fromhex (default "" hash_hex)) as [expected |]; [| done].
  by destruct (decide (m ≠ expected)).
Qed.

Lemma set_if_any_lookup_ne key k l (info : gmap string Value) :
  k ≠ key → OTS.set_if_any key l info !! k = info !! k.
Proof.
  intros Hne. unfold OTS.set_if_any. destruct l; [done |].
  by rewrite lookup_insert_ne.
Qed.

Lemma attestation_info_no_hash_match ts :
  OTS._collect_attestation_info E ts !! "hash_match" = None.
Proof.
  unfold OTS._collect_attestation_info.
  destruct (core_import E); [| done]. by rewrite !lookup_insert_ne.
Qed.

End OtsAnswers.

(** X15: the answer of [verify_ots] has [error] [None] exactly when it
    reports success, never carries [ots_bytes], and carries an upgraded
    proof only on success.  A success means that the proof decoded and,
    when a non-empty digest text was given, that this text is the
    hexadecimal form of the digest the proof commits to, which the info
    records as [hash_match] [True]; without a digest text the info has no
    [hash_match] entry. *)
Theorem verify_ots_result (E : Env) (ots_bytes : bytes)
    (hash_hex : option string) (w : World) :
  let r := (OTS.verify_ots E ots_bytes hash_hex w).1 in
  (OTS.success r = true ↔ OTS.error r = None)
  ∧ OTS.ots_bytes r = None
  ∧ (OTS.success r = false → OTS.updated_ots_bytes r = None)
  ∧ (OTS.success r = true →
     ∃ ts, decoded_proof E ots_bytes = Ok ts
           ∧ (TSA.opt_str_truthy hash_hex = true →
              fromhex (default "" hash_hex) = Some (msg ts)
              ∧ OTS.info r !! "hash_match" = Some (VBool true))
           ∧ (TSA.opt_str_truthy hash_hex = false →
              OTS.info r !! "hash_match" = None)).
Proof.
  intros r. subst r. unfold OTS.verify_ots, decoded_proof, bind, ret.
  destruct (load_ots_client E) as [client |].
  - destruct (timestamp_deserialize E ots_bytes) as [ts | e];
      [| by repeat split].
    rewrite ask_extend.
    destruct (ots_verify client (trace w) ts) as [verdict | e];
      [| by repeat split].
    destruct (OTS._collect_blockchain_proofs E ts _) as [proofs w'].
    destruct (OTS.check_hash hash_hex (msg ts)) eqn:Hcheck;
      cbn [fst OTS.success OTS.error OTS.ots_bytes OTS.updated_ots_bytes
             OTS.info OTS.failure].
    + apply check_hash_no_digest in Hcheck.
      repeat split; try done. intros _. exists ts. split; [done |].
      split; [congruence |]. intros _.
      destruct verdict; rewrite ?lookup_insert_ne by done;
        rewrite set_if_any_lookup_ne by done;
        apply attestation_info_no_hash_match.
    + by repeat split.
    + by repeat split.
    + apply check_hash_match in Hcheck as [Htruthy Hhex].
      repeat split; try done. intros _. exists ts. split; [done |].
      split; [| congruence]. intros _. split; [done |].
      destruct verdict; rewrite ?lookup_insert_ne by done;
        apply lookup_insert_eq.
  - destruct (core_import E) as [[] | e]; [| by repeat split].
    destruct (detached_deserialize E ots_bytes) as [[op ts] | e];
      [| by repeat split].
    destruct (OTS.check_hash hash_hex (msg ts)) eqn:Hcheck;
      try by repeat split.
    all: destruct (upgrade_loop_spec E (OTS._collect_pending_attestations E ts)
                     ts false [] [] w) as (_ & Hmsg & _);
      destruct (OTS.upgrade_loop E _ ts false [] [] w)
        as [[[[ts' upgraded] upgrade_errors] calendar_results] w1];
      cbn [fst snd] in Hmsg;
      destruct (OTS._collect_blockchain_proofs E ts' w1) as [proofs w2];
      rewrite Hmsg, Hcheck;
      destruct (if upgraded
                then match detached_serialize E op ts' with
                     | Ok out => Ok (Some out)
                     | Raise m => Raise m
                     end
                else Ok None) as [updated | e];
      [| by repeat split];
      cbn [fst OTS.success OTS.error OTS.ots_bytes OTS.updated_ots_bytes
             OTS.info].
    + apply check_hash_no_digest in Hcheck.
      repeat split; try done. intros _. exists ts. split; [done |].
      split; [congruence |]. intros _.
      rewrite !set_if_any_lookup_ne by done.
      apply attestation_info_no_hash_match.
    + apply check_hash_match in Hcheck as [Htruthy Hhex].
      repeat split; try done. intros _. exists ts. split; [done |].
      split; [| congruence]. intros _. split; [done |].
      apply lookup_insert_eq.
Qed.


(** ** Sessions *)

Section SessionStore.
Context {time : Type} (time_lt : time → time → bool).

(** Asking for one token leaves what is known of every other token. *)
Lemma get_session_other (now : time) (token : option string)
    (s : Session.Sessions time) (other : string) :
  token ≠ Some other →
  (Session.get_session time_lt now token s).2 !! other = s !! other.
Proof.
  intros Hne. unfold Session.get_session.
  destruct token as [t |]; [| done].
  destruct (negb (str_truthy t)); [done |].
  destruct (s !! t) as [session |]; [| done].
  destruct (time_lt (Session.expires_at session) now); [| done].
  simpl. apply lookup_delete_ne. congruence.
Qed.

(** The answer for a token depends on what the store holds for it. *)
Lemma get_session_ext (now : time) (t : string) (s s' : Session.Sessions time) :
  s' !! t = s !! t →
  (Session.get_session time_lt now (Some t) s').1
  = (Session.get_session time_lt now (Some t) s).1.
Proof.
  intros Heq. unfold Session.get_session. rewrite Heq.
  destruct (negb (str_truthy t)); [done |].
  destruct (s !! t) as [session |]; [| done].
  by destruct (time_lt (Session.expires_at session) now).
Qed.

End SessionStore.

(** X17: the life of a session.  A login with other credentials than the
    configured ones is refused with 401 and creates nothing.  A login with
    the configured credentials answers with the token drawn for it, and,
    the token not being empty: [require_login] with that cookie answers
    with the session of that user as long as the expiry, twelve hours
    after the login, is not before the clock, and leaves the sessions as
    they are; once the expiry is before the clock it raises 403 and
    forgets the session, after which no reading of the clock brings it
    back; after a logout with that cookie it raises 403 whatever the clock
    reads.  None of this changes the answer for any other token. *)
Theorem session_lifecycle {time : Type} (time_lt : time → time → bool)
    (time_add : time → Z → time) (basic_auth_user basic_auth_pass : string)
    (token : string) (now : time) (username password : string)
    (s : Session.Sessions time) :
  token ≠ "" →
  let run :=
    Routes.login time_add basic_auth_user basic_auth_pass token now
      username password s in
  let expiry := time_add now 43200 in
  let session := {| Session.expires_at := expiry; Session.user := username |} in
  ((username ≠ basic_auth_user ∨ password ≠ basic_auth_pass) →
   run = (Routes.HTTPException 401 "unauthorized", s))
  ∧ (username = basic_auth_user → password = basic_auth_pass →
     run.1 = Routes.Respond token
     ∧ (∀ later, time_lt expiry later = false →
          Routes.require_login time_lt later (Some token) run.2
          = (Routes.Respond session, run.2))
     ∧ (∀ later, time_lt expiry later = true →
          Routes.require_login time_lt later (Some token) run.2
          = (Routes.HTTPException 403 "forbidden", delete token run.2)
          ∧ ∀ t, (Routes.require_login time_lt t (Some token)
                    (delete token run.2)).1
                 = Routes.HTTPException 403 "forbidden")
     ∧ (∀ t, (Routes.require_login time_lt t (Some token)
                (Routes.logout (Some token) run.2)).1
             = Routes.HTTPException 403 "forbidden")
     ∧ (∀ t other, other ≠ token →
          (Session.get_session time_lt t (Some other) run.2).1
          = (Session.get_session time_lt t (Some other) s).1
          ∧ (Session.get_session time_lt t (Some other)
               (Routes.logout (Some token) run.2)).1
            = (Session.get_session time_lt t (Some other) s).1)).
Proof.
  intros Htoken run expiry session. subst run.
  assert (Htruthy : str_truthy token = true).
  { unfold str_truthy. apply negb_true_iff, String.eqb_neq. done. }
  unfold Routes.login. split.
  - intros Hbad.
    destruct (String.eqb username basic_auth_user) eqn:Hu;
      destruct (String.eqb password basic_auth_pass) eqn:Hp; try done.
    apply String.eqb_eq in Hu, Hp. tauto.
  - intros -> ->. rewrite !String.eqb_refl. cbn [andb negb fst snd].
    unfold Session.create_session. cbn [fst snd].
    change Session.SESSION_TTL_SECONDS with 43200. fold expiry. fold session.
    assert (Hgone : ∀ (t : time) (s' : Session.Sessions time),
              s' !! token = None →
              (Routes.require_login time_lt t (Some token) s').1
              = Routes.HTTPException 403 "forbidden").
    { intros t s' Hnone. unfold Routes.require_login, Session.get_session.
      rewrite Htruthy, Hnone. done. }
    split; [done |]. split; [| split; [| split]].
    + intros later Hlive. unfold Routes.require_login, Session.get_session.
      rewrite Htruthy. cbn [negb]. rewrite lookup_insert_eq.
      unfold session at 1. cbn [Session.expires_at]. by rewrite Hlive.
    + intros later Hdead. split.
      * unfold Routes.require_login, Session.get_session.
        rewrite Htruthy. cbn [negb]. rewrite lookup_insert_eq.
        unfold session at 1. cbn [Session.expires_at]. by rewrite Hdead.
      * intros t. apply Hgone. apply lookup_delete_eq.
    + intros t. apply Hgone. unfold Routes.logout, Session.delete_session.
      rewrite Htruthy. apply lookup_delete_eq.
    + intros t other Hne. split; apply get_session_ext.
      * by rewrite lookup_insert_ne.
      * unfold Routes.logout, Session.delete_session. rewrite Htruthy.
        cbn [negb]. by rewrite lookup_delete_ne, lookup_insert_ne.
Qed.

Lemma session_lifecycle_witness :
  (Routes.login Z.add "admin" "admin" "tok" 100 "admin" "admin" ∅).1
  = Routes.Respond "tok"
  ∧ (Routes.require_login Z.ltb 43300 (Some "tok")
       (Routes.login Z.add "admin" "admin" "tok" 100 "admin" "admin" ∅).2).1
    = Routes.Respond {| Session.expires_at := 43300; Session.user := "admin" |}.
Proof.
  destruct (session_lifecycle Z.ltb Z.add "admin" "admin" "tok" 100
              "admin" "admin" ∅) as [_ Hgood]; [done |].
  destruct (Hgood eq_refl eq_refl) as (Htoken & Hlive & _).
  split; [exact Htoken |].
  by rewrite (Hlive 43300 eq_refl).
Defined.

(** ** Uploads and downloads *)

Section Uploads.
Context (E : Env).



End Uploads.



(** X19: downloads follow the record.  After a saved submission, and when
    the library never serializes a proof to no bytes, the download of a
    proof whose status in the answer is "success" answers with the stored
    path, which names a non-empty file, under the name of the digest with
    the suffix of the protocol; for any other status it is refused with
    403. *)
Theorem download_after_saved_submission (E : Env)
    (files_dir tsa_url hash : string) (ots_enabled tsa_enabled : bool)
    (name_base : option string) (w : World) :
  serializes_nonempty E →
  let run :=
    Evidence.process_submission E files_dir tsa_url hash ots_enabled
      tsa_enabled true name_base w in
  (if String.eqb (Evidence.ots_status run.1) "success"
   then ∃ path c,
          Routes.download_ots hash run.2
          = (Routes.Respond {| Routes.fr_path := path;
                               Routes.fr_filename := hash +:+ ".ots" |}, run.2)
          ∧ files run.2 !! path = Some c ∧ c ≠ []
   else Routes.download_ots hash run.2
        = (Routes.HTTPException 403 "ots file not available", run.2))
  ∧ (if String.eqb (Evidence.tsa_status run.1) "success"
     then ∃ path c,
            Routes.download_tsa hash run.2
            = (Routes.Respond {| Routes.fr_path := path;
                                 Routes.fr_filename := hash +:+ ".tsr" |}, run.2)
            ∧ files run.2 !! path = Some c ∧ c ≠ []
     else Routes.download_tsa hash run.2
          = (Routes.HTTPException 403 "tsa file not available", run.2)).
Proof.
  intros Hser run.
  destruct (saved_record_invariant E files_dir tsa_url hash ots_enabled
              tsa_enabled name_base w Hser)
    as (row & Hdb & _ & Hos & Hts & Ho & Ht).
  fold run in Hdb, Hos, Hts, Ho, Ht.
  assert (Hfile : ∀ path w',
            readable path w' = true →
            ∃ p c, path = Some p ∧ str_truthy p = true
                   ∧ files w' !! p = Some c ∧ c ≠ []).
  { intros path w'. unfold readable, Storage.read_file.
    destruct path as [p |]; [| done].
    destruct (str_truthy p) eqn:Hp; [| done]. cbn [fst].
    destruct (files w' !! p) as [c |] eqn:Hc; [| done].
    unfold Evidence.nonempty. destruct c as [| b c]; [done |].
    intros _. by exists p, (b :: c). }
  unfold Routes.download_ots, Routes.download_tsa, bind, ret,
    evidence_repo.fetch_by_hash. rewrite Hdb, Hos, Hts. split.
  - destruct (String.eqb (Evidence.ots_status run.1) "success") eqn:Hs;
      cbn [negb]; [| done].
    apply String.eqb_eq in Hs. rewrite <- Hos in Hs.
    destruct (Hfile _ _ (Ho Hs)) as (p & c & Hp & Htr & Hc & Hne).
    exists p, c. unfold Routes._file_response. rewrite Hp, Htr, Hc.
    rewrite bool_decide_eq_true_2 by (by eexists). done.
  - destruct (String.eqb (Evidence.tsa_status run.1) "success") eqn:Hs;
      cbn [negb]; [| done].
    apply String.eqb_eq in Hs. rewrite <- Hts in Hs.
    destruct (Hfile _ _ (Ht Hs)) as (p & c & Hp & Htr & Hc & Hne).
    exists p, c. unfold Routes._file_response. rewrite Hp, Htr, Hc.
    rewrite bool_decide_eq_true_2 by (by eexists). done.
Qed.

Lemma download_after_saved_submission_witness :
  ∃ c,
    Routes.download_ots "abab"
      (Evidence.process_submission Demo.demo_env "/data/files"
         "https://tsa.example/tsr" "abab" true true true None
         Demo.empty_world).2
    = (Routes.Respond {| Routes.fr_path := "/data/files/abab/abab.ots";
                         Routes.fr_filename := "abab.ots" |},
       (Evidence.process_submission Demo.demo_env "/data/files"
          "https://tsa.example/tsr" "abab" true true true None
          Demo.empty_world).2)
    ∧ files (Evidence.process_submission Demo.demo_env "/data/files"
               "https://tsa.example/tsr" "abab" true true true None
               Demo.empty_world).2 !! "/data/files/abab/abab.ots" = Some c.
Proof.
  destruct (download_after_saved_submission Demo.demo_env "/data/files"
              "https://tsa.example/tsr" "abab" true true None Demo.empty_world)
    as [Hots _].
  - split; [intros op ts out H | intros ts out H];
      cbn in H; injection H as <-; discriminate.
  - vm_compute. eexists. split; reflexivity.
Defined.



(** ** Verifying while the calendars are unreachable *)

Section Unreachable.
Context (E : Env).

Lemma upgrade_loop_unreachable pending :
  calendars_unreachable E →
  ∀ ts upgraded upgrade_errors calendar_results w,
    let run :=
      OTS.upgrade_loop E pending ts upgraded upgrade_errors calendar_results w in
    run.1.1.1.1 = ts
    ∧ run.1.1.1.2 = upgraded
    ∧ length run.1.1.2 = (length upgrade_errors + length pending)%nat
    ∧ ∃ new, run.1.2 = calendar_results ++ new
             ∧ length new = length pending
             ∧ Forall failed_upgrade new.
Proof.
  intros Hdown.
  induction pending as [| [[path m] uri] rest IH]; intros; subst run.
  - simpl. repeat split; [lia |]. exists []. by rewrite app_nil_r.
  - cbn [OTS.upgrade_loop]. unfold bind. rewrite ask_extend.
    specialize (Hdown (trace w) uri m).
    destruct (calendar_get_timestamp E (trace w) uri m) as [cal_ts | e];
      [done |].
    destruct (IH ts upgraded (upgrade_errors ++ [uri +:+ ": " +:+ e])
                (calendar_results ++
                   [VDict [("uri", VStr uri); ("success", VBool false);
                           ("error", VStr e)]])
                (extend w [EvCalendarUpgrade uri m]))
      as (Hts & Hup & Hlen & new & Hnew & Hnewlen & Hall).
    split; [exact Hts |]. split; [exact Hup |].
    split; [rewrite Hlen, length_app; simpl; lia |].
    exists (VDict [("uri", VStr uri); ("success", VBool false);
                   ("error", VStr e)] :: new).
    split; [by rewrite Hnew, <- app_assoc |].
    split; [simpl; by rewrite Hnewlen |].
    constructor; [| done]. eexists. split; [done |]. split; [done |].
    by eexists.
Qed.

End Unreachable.

(** X21: calendars that cannot be reached do not make a verification
    fail.  On the core-library path, for a proof that decodes and a digest
    that is accepted, when no calendar answers an upgrade request
    [verify_ots] still succeeds, returns no rewritten proof, and, when the
    proof has pending attestations, reports one upgrade error and one
    failed calendar result for each of them. *)
Theorem verify_ots_calendars_unreachable (E : Env) (ots_bytes : bytes)
    (hash_hex : option string) (op : Op) (ts : Timestamp) (w : World) :
  load_ots_client E = None →
  core_import E = Ok tt →
  detached_deserialize E ots_bytes = Ok (op, ts) →
  digest_accepted hash_hex ts →
  calendars_unreachable E →
  let pending := OTS._collect_pending_attestations E ts in
  let r := (OTS.verify_ots E ots_bytes hash_hex w).1 in
  OTS.success r = true
  ∧ OTS.error r = None
  ∧ OTS.updated_ots_bytes r = None
  ∧ (pending ≠ [] →
     ∃ errors results,
       OTS.info r !! "upgrade_errors" = Some (VList errors)
       ∧ length errors = length pending
       ∧ OTS.info r !! "calendar_results" = Some (VList results)
       ∧ length results = length pending
       ∧ Forall failed_upgrade results).
Proof.
  intros Hclient Hcore Hdec Hacc Hdown pending r. subst r.
  rewrite (verify_ots_core E ots_bytes hash_hex op ts w) by done.
  fold pending.
  destruct (upgrade_loop_unreachable E pending Hdown ts false [] [] w)
    as (Hts & Hup & Hlen & new & Hnew & Hnewlen & Hall).
  destruct (OTS.upgrade_loop E pending ts false [] [] w)
    as [[[[ts' upgraded] upgrade_errors] calendar_results] w1].
  cbn [fst snd] in *. subst ts' upgraded calendar_results.
  cbn [fst OTS.success OTS.error OTS.updated_ots_bytes OTS.info].
  split; [done |]. split; [done |]. split; [done |].
  intros Hpending.
  assert (Hpos : (0 < length pending)%nat).
  { destruct pending; [done | simpl; lia]. }
  exists (map VStr upgrade_errors), new.
  unfold verified_info.
  assert (Hkeys : ∀ (info : gmap string Value) k v,
            k ≠ "hash_match" → info !! k = Some v →
            match OTS.check_hash hash_hex (msg ts) with
            | OTS.Match => <["hash_match" := VBool true]> info
            | _ => info
            end !! k = Some v).
  { intros info k v Hk Hv.
    destruct (OTS.check_hash hash_hex (msg ts)); by rewrite ?lookup_insert_ne. }
  split; [| split; [by rewrite length_map | split; [| done]]].
  - apply Hkeys; [done |].
    rewrite set_if_any_lookup_ne by done.
    unfold OTS.set_if_any at 1.
    destruct (map VStr upgrade_errors) as [| e es] eqn:Hes.
    + apply (f_equal length) in Hes. rewrite length_map in Hes.
      simpl in Hes. lia.
    + apply lookup_insert_eq.
  - apply Hkeys; [done |]. unfold OTS.set_if_any at 1.
    destruct new as [| v vs]; [simpl in Hnewlen; lia |].
    apply lookup_insert_eq.
Qed.

Lemma verify_ots_calendars_unreachable_witness :
  OTS.success (OTS.verify_ots Demo.demo_env (x02 :: Demo.digest32)
                 (Some Demo.digest32_hex) Demo.empty_world).1 = true
  ∧ OTS.updated_ots_bytes
      (OTS.verify_ots Demo.demo_env (x02 :: Demo.digest32)
         (Some Demo.digest32_hex) Demo.empty_world).1 = None.
Proof.
  destruct (verify_ots_calendars_unreachable Demo.demo_env
              (x02 :: Demo.digest32) (Some Demo.digest32_hex) OpSHA256
              {| msg := Demo.digest32;
                 node := MkNode [PendingAttestation Demo.calendar_a] [] |}
              Demo.empty_world eq_refl eq_refl eq_refl)
    as (Hok & _ & Hnone & _).
  - left. vm_compute. reflexivity.
  - intros h uri m. reflexivity.
  - split; [exact Hok | exact Hnone].
Defined.

(** ** The summary of a proof and its collectors *)

Section Summary.
Context (E : Env).

Lemma walk_unfold path m atts nops :
  OTS.walk E path m (MkNode atts nops)
  = omap (fun att =>
            match att with
            | PendingAttestation uri => Some (path, m, uri)
            | _ => None
            end) atts
    ++ flat_map (fun oc : Op * Node =>
                   OTS.walk E (path ++ [oc.1]) (OTS.apply_op E oc.1 m) oc.2) nops.
Proof.
  cbn [OTS.walk]. f_equal.
  induction nops as [| [op ch] rest IH]; [done |].
  cbn [flat_map fst snd]. by rewrite <- IH.
Qed.

Lemma all_attestations_node_unfold m atts nops :
  OTS.all_attestations_node E m (MkNode atts nops)
  = map (pair m) atts
    ++ flat_map (fun oc : Op * Node =>
                   OTS.all_attestations_node E (OTS.apply_op E oc.1 m) oc.2) nops.
Proof.
  cbn [OTS.all_attestations_node]. f_equal.
  induction nops as [| [op ch] rest IH]; [done |].
  cbn [flat_map fst snd]. by rewrite <- IH.
Qed.

(** The walk for pending attestations meets the pending attestations of
    [all_attestations], in the same order and with the same messages. *)
Lemma walk_pending n :
  ∀ path m,
    map (fun p : list Op * bytes * string => (p.1.2, PendingAttestation p.2))
      (OTS.walk E path m n)
    = filter (fun ma : bytes * Attestation => OTS.is_pending ma.2 = true)
        (OTS.all_attestations_node E m n).
Proof.
  induction n as [atts nops IH] using Node_ind_children. intros path m.
  rewrite walk_unfold, all_attestations_node_unfold, map_app, filter_app.
  f_equal.
  - clear IH. induction atts as [| att atts IHa]; [done |].
    destruct att; cbn [omap map];
      first [ rewrite filter_cons_True by done; cbn [map fst snd];
              by rewrite <- IHa
            | by rewrite filter_cons_False by done ].
  - induction IH as [| [op ch] rest Hch _ IHrest]; [done |].
    cbn [flat_map fst snd]. rewrite map_app, filter_app, IHrest. f_equal.
    apply Hch.
Qed.

Lemma anchor_keys_nil atts :
  anchor_keys atts = [] ↔ existsb OTS.is_blockchain (map snd atts) = false.
Proof.
  unfold anchor_keys, OTS.is_blockchain.
  induction atts as [| [m att] atts IH]; [done |].
  simpl. destruct (OTS.chain_of att) as [key |]; simpl; [done | exact IH].
Qed.

Lemma filter_pending_nil (atts : list (bytes * Attestation)) :
  filter (fun ma : bytes * Attestation => OTS.is_pending ma.2 = true) atts = []
  ↔ existsb OTS.is_pending (map snd atts) = false.
Proof.
  induction atts as [| [m att] atts IH]; [done |].
  cbn [map existsb snd].
  destruct (OTS.is_pending att) eqn:Hp; cbn [orb].
  - by rewrite filter_cons_True by done.
  - rewrite filter_cons_False by (simpl; congruence). exact IH.
Qed.

End Summary.

(** X22: the summary of a proof agrees with what the collectors find in
    it.  With the core library imported, the walk of
    [_collect_pending_attestations] meets exactly the pending attestations
    of [all_attestations], in the same order and each with the message of
    its node; [has_pending_attestations] is true exactly when that walk
    finds something, and [has_blockchain_proof] is true exactly when
    [_collect_blockchain_proofs] returns an entry. *)
Theorem summary_agrees_with_collectors (E : Env) (ts : Timestamp) (w : World) :
  core_import E = Ok tt →
  let info := OTS._collect_attestation_info E ts in
  let pending := OTS._collect_pending_attestations E ts in
  let proofs := (OTS._collect_blockchain_proofs E ts w).1 in
  map (fun p : list Op * bytes * string => (p.1.2, PendingAttestation p.2))
    pending
  = filter (fun ma : bytes * Attestation => OTS.is_pending ma.2 = true)
      (OTS.all_attestations E ts)
  ∧ info !! "has_pending_attestations"
    = Some (VBool (bool_decide (pending ≠ [])))
  ∧ info !! "has_blockchain_proof"
    = Some (VBool (bool_decide (proofs ≠ [])))
  ∧ info !! "attestations"
    = Some (VInt (Z.of_nat (length (OTS.all_attestations E ts)))).
Proof.
  intros Hcore info pending proofs. subst info pending proofs.
  unfold OTS._collect_attestation_info, OTS._collect_pending_attestations,
    OTS._collect_blockchain_proofs. rewrite Hcore.
  pose proof (walk_pending E (node ts) [] (msg ts)) as Hwalk.
  fold (OTS.all_attestations E ts) in Hwalk.
  split; [exact Hwalk |]. split; [| split].
  - rewrite !lookup_insert_ne by done. rewrite lookup_insert_eq.
    do 2 f_equal.
    destruct (existsb OTS.is_pending (map snd (OTS.all_attestations E ts)))
      eqn:Hex.
    + symmetry. apply bool_decide_eq_true. intros Hnil.
      rewrite Hnil in Hwalk. symmetry in Hwalk.
      apply filter_pending_nil in Hwalk. congruence.
    + symmetry. apply bool_decide_eq_false. intros Hne. apply Hne.
      apply filter_pending_nil in Hex. rewrite Hex in Hwalk.
      by apply map_eq_nil in Hwalk.
  - rewrite !lookup_insert_ne by done. rewrite lookup_insert_eq.
    do 2 f_equal.
    destruct (collect_loop_trace E (OTS.all_attestations E ts) [] ∅ ∅ w)
      as [_ Hlen]; [set_solver |].
    cbn [length Nat.add] in Hlen.
    destruct (existsb OTS.is_blockchain (map snd (OTS.all_attestations E ts)))
      eqn:Hex.
    + symmetry. apply bool_decide_eq_true. intros Hnil.
      rewrite Hnil in Hlen. simpl in Hlen.
      destruct (anchor_keys (OTS.all_attestations E ts)) as [| k keys] eqn:Hkeys.
      * apply anchor_keys_nil in Hkeys. congruence.
      * cbn [fresh_keys] in Hlen.
        rewrite decide_False in Hlen by set_solver. simpl in Hlen. lia.
    + symmetry. apply bool_decide_eq_false. intros Hne. apply Hne.
      apply anchor_keys_nil in Hex. rewrite Hex in Hlen. simpl in Hlen.
      by apply length_zero_iff_nil.
  - rewrite lookup_insert_eq. by rewrite !length_map.
Qed.

Lemma summary_agrees_with_collectors_witness :
  OTS._collect_attestation_info Demo.demo_env two_anchor_tree
    !! "has_blockchain_proof" = Some (VBool true)
  ∧ (OTS._collect_blockchain_proofs Demo.demo_env two_anchor_tree
       Demo.empty_world).1 ≠ [].
Proof.
  destruct (summary_agrees_with_collectors Demo.demo_env two_anchor_tree
              Demo.empty_world eq_refl) as (_ & _ & Hchain & _).
  split.
  - rewrite Hchain. vm_compute. reflexivity.
  - vm_compute. discriminate.
Defined.

(** ** What a block-hash lookup answers *)

(** X23: [_lookup_block_hash] answers with a block hash or with an error
    text, never with both and never with neither; a block hash is only
    ever taken from a response of the configured lookup API whose status
    is OK. *)
Theorem lookup_block_hash_answer (E : Env) (chain : string) (height : Z)
    (w : World) :
  let r := (OTS._lookup_block_hash E chain height w).1 in
  (∃ h api_template resp,
     r = (Some h, None)
     ∧ api_template_of E chain = Some api_template
     ∧ api_template ≠ ""
     ∧ http_get E (trace w ++ [EvBlockHashLookup chain height])
         (str_format E api_template [("height", pretty height)]) = Ok resp
     ∧ resp_ok resp = true)
  ∨ (∃ e, r = (None, Some e)).
Proof.
  intros r. subst r. unfold OTS._lookup_block_hash, api_template_of, ask.
  cbn [trace log].
  set (api := if String.eqb chain "bitcoin"
              then Some (btc_block_hash_api (settings E))
              else if String.eqb chain "litecoin"
                   then Some (ltc_block_hash_api (settings E))
                   else None).
  destruct api as [api_template |]; [| right; by eexists].
  destruct (str_truthy api_template) eqn:Hapi; cbn [negb];
    [| right; by eexists].
  assert (Hne : api_template ≠ "").
  { intros ->. done. }
  destruct (http_get E (trace w ++ [EvBlockHashLookup chain height])
              (str_format E api_template [("height", pretty height)]))
    as [resp | e] eqn:Hget; cbn [fst]; [| right; by eexists].
  destruct (resp_ok resp) eqn:Hok; cbn [negb fst]; [| right; by eexists].
  assert (Hfound : ∀ (h : string) (w' : World),
            ∃ h0 t resp0,
              ((Some h, @None string), w').1 = (Some h0, None)
              ∧ Some api_template = Some t ∧ t ≠ ""
              ∧ http_get E (trace w ++ [EvBlockHashLookup chain height])
                  (str_format E t [("height", pretty height)]) = Ok resp0
              ∧ resp_ok resp0 = true).
  { intros h w'. by exists h, api_template, resp. }
  destruct (negb (str_truthy (OTS.str_strip (resp_text resp))));
    [right; by eexists |].
  destruct (startswith _ _); [| left; apply Hfound].
  destruct (resp_json resp) as [[] | e]; try (right; by eexists).
  repeat case_match; simplify_eq; cbn [fst].
  all: try (left; apply Hfound).
  all: try (right; by eexists).
  all: left; eexists _, api_template, resp; done.
Qed.

(** ** The calendars of the configuration *)

Section CalendarList.

Lemma split_aux_plain (sep : byte) (x : bytes) :
  sep ∉ x →
  ∀ cur rest,
    Config.split_aux sep cur (x ++ rest)
    = match rest with
      | [] => [cur ++ x]
      | _ => Config.split_aux sep (cur ++ x) rest
      end.
Proof.
  induction x as [| c x IH]; intros Hsep cur rest.
  - rewrite app_nil_r. by destruct rest.
  - apply not_elem_of_cons in Hsep as [Hc Hx].
    cbn [app Config.split_aux].
    rewrite decide_False by done. rewrite IH by done.
    rewrite <- app_assoc. by cbn [app].
Qed.

Lemma split_aux_item (sep : byte) (x y : bytes) cur :
  sep ∉ x →
  Config.split_aux sep cur (x ++ sep :: y)
  = (cur ++ x) :: Config.split_aux sep [] y.
Proof.
  intros Hsep. rewrite split_aux_plain by done.
  cbn [Config.split_aux]. by rewrite decide_True.
Qed.

Lemma split_aux_last (sep : byte) (x : bytes) cur :
  sep ∉ x → Config.split_aux sep cur x = [cur ++ x].
Proof.
  intros Hsep. rewrite <- (app_nil_r x) at 1. by rewrite split_aux_plain.
Qed.

(** Splitting what was joined gives the items back. *)
Lemma str_split_join (urls : list string) :
  urls ≠ [] →
  Forall (fun u => Config.comma ∉ list_byte_of_string u) urls →
  Config.str_split Config.comma (Config.str_join "," urls) = urls.
Proof.
  unfold Config.str_split. intros Hne Hall.
  induction Hall as [| u rest Hu Hrest IH]; [done |].
  destruct rest as [| v rest].
  - cbn [Config.str_join]. rewrite split_aux_last by done.
    cbn [map app]. by rewrite string_of_list_byte_of_string.
  - change (Config.str_join "," (u :: v :: rest))
      with (u +:+ "," +:+ Config.str_join "," (v :: rest)).
    rewrite !list_byte_of_string_app.
    change (list_byte_of_string ",") with [Config.comma].
    cbn [app]. rewrite split_aux_item by done.
    cbn [map app]. rewrite string_of_list_byte_of_string.
    f_equal. by apply IH.
Qed.

End CalendarList.

(** X24: the calendar list survives the environment.  When
    [OTS_CALENDAR_URLS] holds URLs joined by commas, each of them not
    empty, left alone by [str.strip] and free of commas, [load_settings]
    gives exactly these URLs, in order; and whatever the variable holds,
    no URL of the settings is empty. *)
Theorem calendar_urls_round_trip (str_strip : string → string)
    (environ : gmap string string) (urls : list string) :
  str_strip "" = "" →
  Forall (plain_url str_strip) urls →
  environ !! "OTS_CALENDAR_URLS" = Some (Config.str_join "," urls) →
  ots_calendar_urls (Config.load_settings str_strip environ) = urls
  ∧ ∀ environ' u,
      u ∈ ots_calendar_urls (Config.load_settings str_strip environ') →
      u ≠ "".
Proof.
  intros Hblank Hall Henv. split.
  - unfold Config.load_settings, Config.environ_get. cbn [ots_calendar_urls].
    rewrite Henv. change (default Config.calendar_default
                            (Some (Config.str_join "," urls)))
      with (Config.str_join "," urls).
    destruct urls as [| u rest].
    + cbn. by rewrite Hblank.
    + rewrite str_split_join; [| done |].
      2: { eapply Forall_impl; [exact Hall |]. by intros x (_ & _ & ?). }
      generalize (u :: rest) Hall. clear.
      intros l Hall.
      induction Hall as [| x xs (Hx & Hstrip & _) _ IH]; [done |].
      cbn [omap list_omap]. rewrite Hstrip.
      rewrite (str_truthy_nonempty _ Hx). by rewrite IH.
  - intros environ' u. unfold Config.load_settings. cbn [ots_calendar_urls].
    rewrite list_elem_of_omap. intros (item & _ & Hitem).
    destruct (str_truthy (str_strip item)) eqn:Ht; [| done].
    injection Hitem as <-. intros Heq. rewrite Heq in Ht. done.
Qed.

Lemma calendar_urls_round_trip_witness :
  ots_calendar_urls
    (Config.load_settings OTS.str_strip
       {["OTS_CALENDAR_URLS" := "https://a.example,https://b.example"]})
  = ["https://a.example"; "https://b.example"].
Proof.
  apply (calendar_urls_round_trip OTS.str_strip
           {["OTS_CALENDAR_URLS" := "https://a.example,https://b.example"]}
           ["https://a.example"; "https://b.example"]).
  - reflexivity.
  - repeat constructor; try done;
      apply (proj1 (bool_decide_eq_true _)); vm_compute; reflexivity.
  - reflexivity.
Defined.
